(** * dm.zope.saml2: key cache, role registry, attribute release

    A shallow embedding of the trust and attribute-release core of
    [dm.zope.saml2] (modules [attribute.py], [authority.py], [entity.py])
    together with the properties established about it.

    Conventions.
    - Python exceptions are the [Raise] branch of [result].
    - A Python [dict] whose iteration order matters (the role registry, the
      table [role2element]) is an association list in insertion order;
      mappings that are only looked up are [gmap]s.
    - Time stamps are integers ([Z]); [utcnow()] is an input of the call.
    - Byte strings and texts are [string]s (sequences of 8-bit characters);
      a Python 3 text is represented by its UTF-8 encoding.
    - Calls into collaborators outside the package (xmlsec, the metadata
      repository, the logger) are recorded in an event trace. *)

From Stdlib Require Import ZArith List Lia Bool Ascii String.
From stdpp Require Import base option list strings gmap.

Local Open Scope string_scope.
Local Open Scope list_scope.
Local Set Warnings "-register-all".

(** ** Exceptions and results *)

Inductive exn : Type :=
| ValueError (msg : string) (args : list string)
| TypeError (msg : string)
| KeyError (key : string)
| AttributeError (name : string)
| ExternalError (msg : string)
| ProtectedDeletionError (path : string).

Inductive result (A : Type) : Type :=
| Ok (a : A)
| Raise (e : exn).

Arguments Ok {A} a.
Arguments Raise {A} e.

Definition rbind {A B : Type} (r : result A) (k : A -> result B) : result B :=
  match r with
  | Ok a => k a
  | Raise e => Raise e
  end.

Declare Scope result_scope.
Delimit Scope result_scope with result.
Notation "x <-! r ; k" := (rbind r (fun x => k))
  (at level 20, r at level 100, k at level 200, only parsing) : result_scope.

Definition is_ok {A : Type} (r : result A) : bool :=
  match r with Ok _ => true | Raise _ => false end.

(** ** Python truth values *)

(** [x is None] *)
Definition is_None {A : Type} (o : option A) : bool :=
  match o with None => true | Some _ => false end.

(** truth value of an optional boolean attribute: [None] and [False] are
    false. *)
Definition truthy_bool (o : option bool) : bool :=
  match o with Some true => true | _ => false end.

(** truth value of a text or byte string: the empty string is false. *)
Definition truthy_str (s : string) : bool :=
  match s with EmptyString => false | String _ _ => true end.

(** truth value of an optional string: [None] and [""] are false. *)
Definition truthy_ostr (o : option string) : bool :=
  match o with Some s => truthy_str s | None => false end.

(** truth value of a sequence: the empty one is false. *)
Definition truthy_list {A : Type} (l : list A) : bool :=
  match l with [] => false | _ :: _ => true end.

(** [a or b] on optional strings with a string default. *)
Definition ostr_or (a : option string) (b : string) : string :=
  match a with
  | Some s => if truthy_str s then s else b
  | None => b
  end.

(** [for x in l: if p(x): break] -- [Some x] when the loop was left by
    [break] at [x], [None] when it ran to its end (the [else] branch of the
    loop is taken). *)
Fixpoint for_break {A : Type} (p : A -> bool) (l : list A) : option A :=
  match l with
  | [] => None
  | x :: l' => if p x then Some x else for_break p l'
  end.

(** ** Metadata of a service provider (the parts that are read) *)

Record RequestedAttribute : Type := {
  NameFormat : option string;
  Name : string;
  FriendlyName : option string
}.

Record AttributeConsumingService : Type := {
  index : Z;
  isDefault : option bool;
  RequestedAttributes : list RequestedAttribute
}.

Record SPSSODescriptor : Type := {
  AttributeConsumingServices : list AttributeConsumingService
}.

Record EntityDescriptor : Type := {
  SPSSODescriptors : list SPSSODescriptor;
  validUntil : option Z
}.

Module Selector.

(** [index == acs.index], where [index] may be [None] and [acs.index] is an
    integer. *)
Definition index_eq (requested : option Z) (i : Z) : bool :=
  match requested with
  | None => false
  | Some j => (j =? i)%Z
  end.

(** the condition of the first inner loop:
    [index is None and acs.isDefault or index == acs.index] *)
Definition matches (requested : option Z) (acs : AttributeConsumingService) : bool :=
  (is_None requested && truthy_bool (isDefault acs)) || index_eq requested (index acs).

(** [getattr(acs, "isDefault", None) is None] *)
Definition isDefault_unset (acs : AttributeConsumingService) : bool :=
  is_None (isDefault acs).

(** body of the loop over the [SPSSODescriptor]s: the value of [acs] when
    the test [acs is not None] is reached. *)
Definition select_in_sp (requested : option Z) (sp : SPSSODescriptor)
  : option AttributeConsumingService :=
  match for_break (matches requested) (AttributeConsumingServices sp) with
  | Some acs => Some acs
  | None =>
      let acss := AttributeConsumingServices sp in
      if is_None requested && truthy_list acss then
        match for_break isDefault_unset acss with
        | Some acs => Some acs
        | None => head acss
        end
      else None
  end.

Fixpoint select_in_sps (requested : option Z) (sps : list SPSSODescriptor)
  : option AttributeConsumingService :=
  match sps with
  | [] => None
  | sp :: sps' =>
      match select_in_sp requested sp with
      | Some acs => Some acs
      | None => select_in_sps requested sps'
      end
  end.

(** [SimpleAttributeProvider._attribute_consuming_service(md, index)] *)
Definition _attribute_consuming_service (md : EntityDescriptor) (requested : option Z)
  : option AttributeConsumingService :=
  select_in_sps requested (SPSSODescriptors md).

(** *** The selection rule in the words of the specification *)

(** the services the rule is applied to: those of the first SP descriptor
    that declares any (at most one SP descriptor is expected). *)
Fixpoint effective_services (sps : list SPSSODescriptor) : list AttributeConsumingService :=
  match sps with
  | [] => []
  | sp :: sps' =>
      match AttributeConsumingServices sp with
      | [] => effective_services sps'
      | acss => acss
      end
  end.

Definition explicitly_default (acs : AttributeConsumingService) : bool :=
  match isDefault acs with Some true => true | _ => false end.

Definition default_unset (acs : AttributeConsumingService) : bool :=
  match isDefault acs with None => true | Some _ => false end.

(** explicit default, else unset default, else first, else nothing *)
Definition spec_select_default (acss : list AttributeConsumingService)
  : option AttributeConsumingService :=
  match find explicitly_default acss with
  | Some acs => Some acs
  | None =>
      match find default_unset acss with
      | Some acs => Some acs
      | None => head acss
      end
  end.

(** no service of any SP descriptor carries index [i] *)
Definition no_service_with_index (md : EntityDescriptor) (i : Z) : Prop :=
  forall sp acs, In sp (SPSSODescriptors md) ->
    In acs (AttributeConsumingServices sp) -> index acs <> i.

End Selector.

(** ** Attribute release ([attribute.py]) *)

Module Release.

(** a locally provided attribute ([ProvidedAttribute]); [pa_id] is the
    object id returned by [getId()]. *)
Record ProvidedAttribute : Type := {
  pa_id : string;
  format : string;
  title : string;
  type : string;
  evaluator : option string
}.

(** raw attribute values as the member or an evaluator yields them *)
Inductive pyvalue : Type :=
| PyNone
| PyBytes (b : string)
| PyText (s : string)
| PyInt (z : Z)
| PyBool (b : bool)
| PySeq (l : list pyvalue).

Record AttributeValue : Type := { av_text : string }.

(** what [xs_convert_to_xml] returns: one value or a [list] of values *)
Inductive converted : Type :=
| OneValue (x : AttributeValue)
| ValueList (l : list AttributeValue).

Record Attribute : Type := {
  a_NameFormat : string;
  a_Name : string;
  a_FriendlyName : string;
  a_values : list AttributeValue
}.

(** the three kinds of value [_make_attribute_statement] returns: [None],
    the status string, an [AttributeStatement]. *)
Inductive statement_result : Type :=
| NoStatement
| Status (s : string)
| AttributeStatement (attributes : list Attribute).

(** the two [logger.error] calls *)
Inductive log_entry : Type :=
| LogAcsNotLocated (index : Z) (eid : string)
| LogAttributeNotFound (ran : string * string) (eid : string).

(** Collaborators outside [attribute.py]: [dm.saml2.util], the member
    object, the evaluators reached by traversal, the metadata repository
    and the provider's own content. *)
Record collaborators : Type := {
  normalize_attrname_format : string -> string;
  xs_convert_to_xml : string -> pyvalue -> result converted;
  decode_charset : string -> result string;
  getProperty : string -> pyvalue;
  call_evaluator : string -> ProvidedAttribute -> string -> result pyvalue;
  get_recent_metadata : string -> result EntityDescriptor;
  objectValues : list ProvidedAttribute
}.

Section WithCollaborators.

Variable env : collaborators.

(** [attrs = {}; for att in self.objectValues():
      attrs[(att.format, att.title)] = att] *)
Definition catalog : gmap (string * string) ProvidedAttribute :=
  fold_left (fun attrs att => <[(format att, title att) := att]> attrs)
            (objectValues env) ∅.

(** [(ra.NameFormat or normalize_attrname_format("unspecified"), ra.Name)] *)
Definition ran_of (ra : RequestedAttribute) : string * string :=
  (ostr_or (NameFormat ra) (normalize_attrname_format env "unspecified"), Name ra).

(** the raw value of a catalogued attribute, decoded when it is a byte
    string of type "string" *)
Definition raw_value (d : ProvidedAttribute) (eid : string) : result pyvalue :=
  (v <-! match evaluator d with
         | None => Ok (getProperty env (pa_id d))
         | Some path => call_evaluator env path d eid
         end;
   match v with
   | PyBytes b =>
       if String.eqb (type d) "string"
       then (s <-! decode_charset env b; Ok (PyText s))
       else Ok v
   | _ => Ok v
   end)%result.

(** [if not isinstance(xv, list): xv = xv,] *)
Definition as_values (xv : converted) : list AttributeValue :=
  match xv with
  | OneValue x => [x]
  | ValueList l => l
  end.

(** one catalogued attribute turned into an [Attribute] *)
Definition make_attribute (ra : RequestedAttribute) (d : ProvidedAttribute) (eid : string)
  : result Attribute :=
  (v <-! raw_value d eid;
   xv <-! xs_convert_to_xml env (type d) v;
   Ok {| a_NameFormat := format d;
         a_Name := title d;
         a_FriendlyName := ostr_or (FriendlyName ra) (pa_id d);
         a_values := as_values xv |})%result.

(** [for ra in acs.RequestedAttribute: ...] with the list [av] and the log
    threaded through *)
Fixpoint release_loop (eid : string) (ras : list RequestedAttribute)
    (av : list Attribute) (log : list log_entry)
  : result (list Attribute) * list log_entry :=
  match ras with
  | [] => (Ok av, log)
  | ra :: ras' =>
      match catalog !! ran_of ra with
      | None => release_loop eid ras' av (log ++ [LogAttributeNotFound (ran_of ra) eid])
      | Some d =>
          match make_attribute ra d eid with
          | Ok att => release_loop eid ras' (av ++ [att]) log
          | Raise e => (Raise e, log)
          end
      end
  end.

(** [if not av: return] / [return AttributeStatement( *av)] *)
Definition statement_of (av : list Attribute) : statement_result :=
  if truthy_list av then AttributeStatement av else NoStatement.

(** [SimpleAttributeProvider._make_attribute_statement]; [target_eid] is
    [target.eid], [issuer] is [req.Issuer.value()]. *)
Definition _make_attribute_statement (target_eid : option string) (issuer : string)
    (index : option Z) : result statement_result * list log_entry :=
  let eid := ostr_or target_eid issuer in
  match get_recent_metadata env eid with
  | Raise e => (Raise e, [])
  | Ok md =>
      match Selector._attribute_consuming_service md index with
      | None =>
          match index with
          | None => (Ok NoStatement, [])
          | Some i => (Ok (Status "ResourceNotRecognized"), [LogAcsNotLocated i eid])
          end
      | Some acs =>
          match release_loop eid (RequestedAttributes acs) [] [] with
          | (Ok av, log) => (Ok (statement_of av), log)
          | (Raise e, log) => (Raise e, log)
          end
      end
  end.

(** a requested attribute the catalog provides *)
Definition provided (ra : RequestedAttribute) : bool :=
  negb (is_None (catalog !! ran_of ra)).

(** a requested attribute the catalog misses, and its log entry *)
Definition missing (ra : RequestedAttribute) : bool := negb (provided ra).

Definition miss_entry (eid : string) (ra : RequestedAttribute) : log_entry :=
  LogAttributeNotFound (ran_of ra) eid.

End WithCollaborators.

End Release.

(** ** File names ([authority.py], [_make_absolute]) *)

Module Path.

(** [os.path.isabs] *)
Definition isabs (fn : string) : bool :=
  match fn with
  | String "/" _ => true
  | _ => false
  end.

Fixpoint endswith_slash (s : string) : bool :=
  match s with
  | EmptyString => false
  | String c EmptyString => Ascii.eqb c "/"
  | String _ s' => endswith_slash s'
  end.

(** [os.path.join] of two components *)
Definition join (a b : string) : string :=
  if isabs b then b
  else if negb (truthy_str a) || endswith_slash a then a +:+ b
  else a +:+ "/" +:+ b.

(** [_make_absolute(fn)], [clienthome] being
    [getConfiguration().clienthome] *)
Definition _make_absolute (clienthome fn : string) : string :=
  if isabs fn then fn else join clienthome fn.

End Path.

(** ** The authority's configuration (schema [ISamlAuthority]) *)

(** a configured password: a byte string or a text *)
Inductive pystr : Type :=
| Bytes (b : string)
| Text (s : string).

Definition truthy_pystr (p : pystr) : bool :=
  match p with Bytes b => truthy_str b | Text s => truthy_str s end.

(** [clienthome] is [getConfiguration().clienthome], the directory relative
    file names are resolved against. *)
Record authority_config : Type := {
  entity_id : string;
  certificate : option string;
  future_certificate : option string;
  private_key : string;
  private_key_password : option pystr;
  base_url : string;
  metadata_validity : Z;
  clienthome : string
}.

(** ** Python dictionaries in insertion order *)

Module Dict.

Section Dict.

Context {V : Type}.

(** [k in d] *)
Definition contains (k : string) (d : list (string * V)) : bool :=
  existsb (fun kv => String.eqb (fst kv) k) d.

(** [d.get(k)] *)
Fixpoint get (k : string) (d : list (string * V)) : option V :=
  match d with
  | [] => None
  | (k', v) :: d' => if String.eqb k' k then Some v else get k d'
  end.

(** [d[k] = v]: an existing key keeps its place, a new one goes last *)
Fixpoint set (d : list (string * V)) (k : string) (v : V) : list (string * V) :=
  match d with
  | [] => [(k, v)]
  | (k', v') :: d' =>
      if String.eqb k' k then (k, v) :: d' else (k', v') :: set d' k v
  end.

(** [del d[k]] for a key that is present *)
Definition del (d : list (string * V)) (k : string) : list (string * V) :=
  List.filter (fun kv => negb (String.eqb (fst kv) k)) d.

End Dict.

End Dict.

(** ** Calls that leave the package *)

Inductive event : Type :=
| EvKeyLoad (filename format password : string)
| EvKeyLoadMemory (cert format : string)
| EvGetRecentMetadata (eid : string)
| EvClearMetadata (eid : string).

(** each distinct element once, at the place of its first occurrence *)
Fixpoint first_occurrences {A : Type} `{EqDecision A} (l : list A) : list A :=
  match l with
  | [] => []
  | x :: l' => x :: filter (fun y => y <> x) (first_occurrences l')
  end.

(** the validity of a cache entry in the words of the specification:
    [validUntil is None or T <= validUntil] *)
Definition valid_until (vu : option Z) (now : Z) : Prop :=
  vu = None \/ exists t, vu = Some t /\ (now <= t)%Z.

(** ** The keys manager ([authority.py], [_KeysManager]) *)

Module Keys.

Section WithKeys.

(** the type of loaded keys ([xmlsec.Key]) *)
Variable Key : Type.

(** Modelled from the spec: [util.Volatile] is not part of the sources at
    hand; it is the holder of one cache slot, [get()] yields the stored
    [(validUntil, keys)] pair or [None] when nothing is stored, [set(v)]
    replaces the slot as a whole. *)
Record Volatile : Type := { volatile_value : option (option Z * list Key) }.

Definition Volatile_new : Volatile := {| volatile_value := None |}.
Definition Volatile_get (v : Volatile) : option (option Z * list Key) := volatile_value v.
Definition Volatile_set (v : Volatile) (info : option Z * list Key) : Volatile :=
  {| volatile_value := Some info |}.

(** Collaborators: [xmlsec.Key.load], [xmlsec.Key.loadMemory], the metadata
    repository ([metadata_by_id(eid).get_recent_metadata()] and
    [get_role_certificates]), the text encoder of [_to_bytes] and the role
    table [role2element] of [dm.saml2.metadata] (its keys, in iteration
    order).

    [fetches_metadata eid] tells whether [get_recent_metadata()] of the
    entity has to fetch its metadata: [EntityMetadata.fetch_metadata] and
    [_get_metadata_sets] (lines 69-80) then notify an [ObjectModifiedEvent],
    and the subscriber [signature_context_changed] (lines 381-383) deletes
    the cache entry of the entity while the lookup is still under way. *)
Record collaborators : Type := {
  key_load : string -> string -> string -> result Key;
  key_loadMemory : string -> string -> result Key;
  get_recent_metadata : string -> result EntityDescriptor;
  fetches_metadata : string -> bool;
  get_role_certificates : string -> string -> string -> list string;
  encode_charset : string -> result string;
  role2element : list (string * string)
}.

Variable auth : authority_config.
Variable env : collaborators.

(** [auth._to_bytes(v)] *)
Definition _to_bytes (v : pystr) : result string :=
  match v with
  | Bytes b => Ok b
  | Text s => encode_charset env s
  end.

(** [auth.private_key_password and
     auth._to_bytes(auth.private_key_password) or b"fail"] *)
Definition password_argument : result string :=
  match private_key_password auth with
  | None => Ok "fail"
  | Some p =>
      if truthy_pystr p
      then (b <-! _to_bytes p; Ok (if truthy_str b then b else "fail"))%result
      else Ok "fail"
  end.

(** the branch [auth.entity_id == eid]: the one-element tuple holding the
    private key *)
Definition own_keys : result (option Z * list Key) * list event :=
  match password_argument with
  | Raise e => (Raise e, [])
  | Ok pw =>
      let fn := Path._make_absolute (clienthome auth) (private_key auth) in
      (match key_load env fn "KeyDataFormatPem" pw with
       | Ok k => Ok (None, [k])
       | Raise e => Raise e
       end,
       [EvKeyLoad fn "KeyDataFormatPem" pw])
  end.

(** [for cert in md.get_role_certificates(r, "signing"): ...] *)
Fixpoint load_certs (certs : list string) (seen : gset string) (keys : list Key)
    (tr : list event) : result (gset string * list Key) * list event :=
  match certs with
  | [] => (Ok (seen, keys), tr)
  | cert :: certs' =>
      if decide (cert ∈ seen) then load_certs certs' seen keys tr
      else
        match key_loadMemory env cert "KeyDataFormatCertDer" with
        | Ok k =>
            load_certs certs' ({[cert]} ∪ seen) (keys ++ [k])
                       (tr ++ [EvKeyLoadMemory cert "KeyDataFormatCertDer"])
        | Raise e => (Raise e, tr ++ [EvKeyLoadMemory cert "KeyDataFormatCertDer"])
        end
  end.

(** [for r in role2element: ...] *)
Fixpoint load_roles (eid : string) (roles : list string) (seen : gset string)
    (keys : list Key) (tr : list event) : result (list Key) * list event :=
  match roles with
  | [] => (Ok keys, tr)
  | r :: roles' =>
      match load_certs (get_role_certificates env eid r "signing") seen keys tr with
      | (Ok (seen', keys'), tr') => load_roles eid roles' seen' keys' tr'
      | (Raise e, tr') => (Raise e, tr')
      end
  end.

(** the branch of a foreign entity *)
Definition foreign_keys (eid : string) : result (option Z * list Key) * list event :=
  match get_recent_metadata env eid with
  | Raise e => (Raise e, [EvGetRecentMetadata eid])
  | Ok rmd =>
      match load_roles eid (map fst (role2element env)) ∅ [] [EvGetRecentMetadata eid] with
      | (Ok keys, tr) => (Ok (validUntil rmd, keys), tr)
      | (Raise e, tr) => (Raise e, tr)
      end
  end.

(** "determine the keys": lines 433-460 of [__getitem__] *)
Definition determine_keys (eid : string) : result (option Z * list Key) * list event :=
  if String.eqb (entity_id auth) eid then own_keys else foreign_keys eid.

(** [volatile = self.eid2volatile_info.get(eid);
     info = volatile and volatile.get()] *)
Definition cached_info (cache : gmap string Volatile) (eid : string)
  : option (option Z * list Key) :=
  match cache !! eid with
  | None => None
  | Some volatile => Volatile_get volatile
  end.

(** [info[0] is None or utcnow() <= info[0]] *)
Definition valid_at (now : Z) (info : option Z * list Key) : bool :=
  match fst info with
  | None => true
  | Some t => (now <=? t)%Z
  end.

(** lines 461-465: refetch the holder, create it when missing, set it *)
Definition store (cache : gmap string Volatile) (eid : string)
    (info : option Z * list Key) : gmap string Volatile :=
  match cache !! eid with
  | None => <[eid := Volatile_set Volatile_new info]> cache
  | Some volatile => <[eid := Volatile_set volatile info]> cache
  end.

(** [_KeysManager.__delitem__(eid)] *)
Definition __delitem__ (cache : gmap string Volatile) (eid : string)
  : gmap string Volatile :=
  if decide (is_Some (cache !! eid)) then delete eid cache else cache.

(** the cache as the determination of the keys leaves it, when line 461 is
    reached or an exception leaves [__getitem__]: "a subscriber might have
    deleted the entry".  For a foreign entity whose metadata had to be
    fetched, [signature_context_changed] has run [del ...[o.id]]; the
    branch of the own entity calls [xmlsec] only. *)
Definition after_subscribers (cache : gmap string Volatile) (eid : string)
  : gmap string Volatile :=
  if String.eqb (entity_id auth) eid then cache
  else if fetches_metadata env eid then __delitem__ cache eid
  else cache.

(** the path of [__getitem__] after a miss *)
Definition recompute (cache : gmap string Volatile) (eid : string)
  : result (list Key) * gmap string Volatile * list event :=
  match determine_keys eid with
  | (Ok info, tr) => (Ok (snd info), store (after_subscribers cache eid) eid info, tr)
  | (Raise e, tr) => (Raise e, after_subscribers cache eid, tr)
  end.

(** [_KeysManager.__getitem__(eid)] called at time [now] *)
Definition __getitem__ (cache : gmap string Volatile) (now : Z) (eid : string)
  : result (list Key) * gmap string Volatile * list event :=
  match cached_info cache eid with
  | Some info =>
      if valid_at now info then (Ok (snd info), cache, [])
      else recompute cache eid
  | None => recompute cache eid
  end.

(** [_KeysManager.get(eid, default)]: [self[eid] or default] *)
Definition get (cache : gmap string Volatile) (now : Z) (eid : string)
    (default : list Key) : result (list Key) * gmap string Volatile * list event :=
  match __getitem__ cache now eid with
  | (Ok keys, cache', tr) => (Ok (if truthy_list keys then keys else default), cache', tr)
  | r => r
  end.

(** a sequence of lookups, each at its own time; a lookup that fails is
    followed by the next one all the same *)
Fixpoint lookups (cache : gmap string Volatile) (calls : list (Z * string))
  : gmap string Volatile :=
  match calls with
  | [] => cache
  | (now, eid) :: calls' => lookups (snd (fst (__getitem__ cache now eid))) calls'
  end.

(** what [__getitem__] leaves in the slot of an entity id *)
Definition slot (info : option Z * list Key) : Volatile :=
  {| volatile_value := Some info |}.

(** no valid entry for [eid] at time [now]: the lookup goes on to determine
    the keys *)
Definition is_miss (cache : gmap string Volatile) (now : Z) (eid : string) : Prop :=
  forall info, cached_info cache eid = Some info -> valid_at now info = false.

(** whether a private-key password is configured *)
Definition password_configured : bool :=
  match private_key_password auth with
  | Some p => truthy_pystr p
  | None => false
  end.

(** *** The collection of certificates in the words of the specification *)

(** all certificates marked for signing, role section after role section *)
Definition signing_certificates (eid : string) : list string :=
  concat (map (fun r => get_role_certificates env eid r "signing")
              (map fst (role2element env))).

(** load every certificate of a list, stopping at the first failure *)
Fixpoint load_all (certs : list string) : result (list Key) :=
  match certs with
  | [] => Ok []
  | cert :: certs' =>
      (k <-! key_loadMemory env cert "KeyDataFormatCertDer";
       ks <-! load_all certs';
       Ok (k :: ks))%result
  end.

End WithKeys.

End Keys.

(** ** The authority ([authority.py]) *)

Module Authority.

(** *** [str.capitalize] on ASCII texts *)

Definition upper (c : ascii) : ascii :=
  let n := nat_of_ascii c in
  if (97 <=? n)%nat && (n <=? 122)%nat then ascii_of_nat (n - 32) else c.

Definition lower (c : ascii) : ascii :=
  let n := nat_of_ascii c in
  if (65 <=? n)%nat && (n <=? 90)%nat then ascii_of_nat (n + 32) else c.

Fixpoint string_map (f : ascii -> ascii) (s : string) : string :=
  match s with
  | EmptyString => EmptyString
  | String c s' => String (f c) (string_map f s')
  end.

Definition capitalize (s : string) : string :=
  match s with
  | EmptyString => EmptyString
  | String c s' => String (upper c) (string_map lower s')
  end.

(** the role interfaces bound in the module's [globals()] by
    [from .interfaces import ...] *)
Definition role_interfaces : list string :=
  ["IIdpssoRole"; "ISpssoRole"; "IApRole"; "IAuthnRole"; "IPdpRole"].

(** [md["I" + role.capitalize() + "Role"]] *)
Definition role_interface (role : string) : result string :=
  let name := "I" +:+ capitalize role +:+ "Role" in
  if bool_decide (name ∈ role_interfaces) then Ok name else Raise (KeyError name).

(** ["/".join(p)] *)
Fixpoint join_slash (p : list string) : string :=
  match p with
  | [] => ""
  | [x] => x
  | x :: p' => x +:+ "/" +:+ join_slash p'
  end.

(** *** The metadata document under construction

    ([dm.saml2.pyxb.metadata]; the fields this module populates) *)

Module metadata.

Record KeyDescriptor : Type := {
  X509Certificate : string;
  use : string
}.

Record Endpoint : Type := {
  Binding : string;
  Location : string;
  ep_index : option Z;
  ep_isDefault : option bool
}.

(** a role descriptor; [element] is the name of its element
    ([rd.__class__.__name__[:-4]]). *)
Record RoleDescriptor : Type := {
  element : string;
  KeyDescriptors : list KeyDescriptor;
  NameIDFormat : option (list string);
  SingleSignOnService : list Endpoint;
  AssertionConsumerService : list Endpoint;
  WantsAssertionsSigned : bool;
  attribute_metadata : list (string * string * string)
}.

(** [ld[element]()] *)
Definition new_descriptor (el : string) : RoleDescriptor :=
  {| element := el; KeyDescriptors := []; NameIDFormat := None;
     SingleSignOnService := []; AssertionConsumerService := [];
     WantsAssertionsSigned := false; attribute_metadata := [] |}.

(** the entity descriptor; the per-element lists of role descriptors
    ([ed.IDPSSODescriptor], [ed.SPSSODescriptor], ...) are kept as one list
    in the order of the [append] calls. *)
Record EntityDescriptor : Type := {
  entityID : string;
  ed_validUntil : Z;
  RoleDescriptors : list RoleDescriptor
}.

Definition add_KeyDescriptor (rd : RoleDescriptor) (kd : KeyDescriptor) : RoleDescriptor :=
  {| element := element rd; KeyDescriptors := KeyDescriptors rd ++ [kd];
     NameIDFormat := NameIDFormat rd;
     SingleSignOnService := SingleSignOnService rd;
     AssertionConsumerService := AssertionConsumerService rd;
     WantsAssertionsSigned := WantsAssertionsSigned rd;
     attribute_metadata := attribute_metadata rd |}.

Definition set_NameIDFormat (rd : RoleDescriptor) (l : list string) : RoleDescriptor :=
  {| element := element rd; KeyDescriptors := KeyDescriptors rd;
     NameIDFormat := Some l;
     SingleSignOnService := SingleSignOnService rd;
     AssertionConsumerService := AssertionConsumerService rd;
     WantsAssertionsSigned := WantsAssertionsSigned rd;
     attribute_metadata := attribute_metadata rd |}.

Definition add_SingleSignOnService (rd : RoleDescriptor) (ep : Endpoint) : RoleDescriptor :=
  {| element := element rd; KeyDescriptors := KeyDescriptors rd;
     NameIDFormat := NameIDFormat rd;
     SingleSignOnService := SingleSignOnService rd ++ [ep];
     AssertionConsumerService := AssertionConsumerService rd;
     WantsAssertionsSigned := WantsAssertionsSigned rd;
     attribute_metadata := attribute_metadata rd |}.

Definition add_AssertionConsumerService (rd : RoleDescriptor) (ep : Endpoint)
  : RoleDescriptor :=
  {| element := element rd; KeyDescriptors := KeyDescriptors rd;
     NameIDFormat := NameIDFormat rd;
     SingleSignOnService := SingleSignOnService rd;
     AssertionConsumerService := AssertionConsumerService rd ++ [ep];
     WantsAssertionsSigned := WantsAssertionsSigned rd;
     attribute_metadata := attribute_metadata rd |}.

Definition set_WantsAssertionsSigned (rd : RoleDescriptor) : RoleDescriptor :=
  {| element := element rd; KeyDescriptors := KeyDescriptors rd;
     NameIDFormat := NameIDFormat rd;
     SingleSignOnService := SingleSignOnService rd;
     AssertionConsumerService := AssertionConsumerService rd;
     WantsAssertionsSigned := true;
     attribute_metadata := attribute_metadata rd |}.

(** what [implementor.add_attribute_metadata(rd)] appends *)
Definition add_attributes (rd : RoleDescriptor) (l : list (string * string * string))
  : RoleDescriptor :=
  {| element := element rd; KeyDescriptors := KeyDescriptors rd;
     NameIDFormat := NameIDFormat rd;
     SingleSignOnService := SingleSignOnService rd;
     AssertionConsumerService := AssertionConsumerService rd;
     WantsAssertionsSigned := WantsAssertionsSigned rd;
     attribute_metadata := attribute_metadata rd ++ l |}.

End metadata.

(** the bindings of [dm.saml2.binding] *)
Definition HttpRedirectBinding : string :=
  "urn:oasis:names:tc:SAML:2.0:bindings:HTTP-Redirect".
Definition HttpPostBinding : string :=
  "urn:oasis:names:tc:SAML:2.0:bindings:HTTP-POST".

(** a role implementor as the authority sees it: its physical path, the
    interfaces it provides, its [wants_assertions_signed] flag, the formats
    [INameidFormatSupport(i).supported] ([None]: it cannot be adapted) and
    the attribute descriptions its [add_attribute_metadata] appends. *)
Record implementor : Type := {
  getPhysicalPath : list string;
  provides : list string;
  wants_assertions_signed : bool;
  nameid_supported : option (list string);
  own_attribute_metadata : list (string * string * string)
}.

(** [i.providedBy(implementor)] *)
Definition providedBy (i : string) (impl : implementor) : bool :=
  bool_decide (i ∈ provides impl).

(** Collaborators of the authority: the role table of [dm.saml2.metadata],
    traversal, the file system, the classes of the metadata binding (which
    of them have a [NameIDFormat]), url customization and [path2url]. *)
Record collaborators : Type := {
  role2element : list (string * string);
  unrestrictedTraverse : list string -> result implementor;
  read_file : string -> result string;
  has_NameIDFormat : string -> bool;
  url_customizer : option (list string -> string);
  path2url : list string -> string
}.

Section WithAuthority.

Variable Key : Type.
Variable cfg : authority_config.
Variable env : collaborators.

(** the mutable part of the authority: the role registry [self.roles], the
    cache of its keys manager, and the calls made to the metadata
    repository. *)
Record state : Type := {
  roles : list (string * list string);
  eid2volatile_info : gmap string (Keys.Volatile Key);
  calls : list event
}.

Definition set_roles (st : state) (r : list (string * list string)) : state :=
  {| roles := r; eid2volatile_info := eid2volatile_info st; calls := calls st |}.

(** [SamlAuthority._update]: clear the own metadata, drop the own keys *)
Definition _update (st : state) : state :=
  {| roles := roles st;
     eid2volatile_info := Keys.__delitem__ Key (eid2volatile_info st) (entity_id cfg);
     calls := calls st ++ [EvClearMetadata (entity_id cfg)] |}.

(** [ValueError("Role %s already registered" % role)] *)
Definition already_registered (role : string) : exn :=
  ValueError ("Role " +:+ role +:+ " already registered") [].

(** the loop of [register_role_implementor]; the registry is returned
    as the loop left it, also when it raised. *)
Fixpoint register_loop (impl : implementor) (path : list string)
    (role_names : list string) (roles : list (string * list string))
  : result unit * list (string * list string) :=
  match role_names with
  | [] => (Ok tt, roles)
  | role :: role_names' =>
      match role_interface role with
      | Raise e => (Raise e, roles)
      | Ok i =>
          if providedBy i impl then
            if Dict.contains role roles then
              (Raise (already_registered role), roles)
            else register_loop impl path role_names' (Dict.set roles role path)
          else register_loop impl path role_names' roles
      end
  end.

(** [SamlAuthority.register_role_implementor] *)
Definition register_role_implementor (st : state) (impl : implementor)
  : result unit * state :=
  match register_loop impl (getPhysicalPath impl) (map fst (role2element env)) (roles st) with
  | (Ok _, roles') => (Ok tt, _update (set_roles st roles'))
  | (Raise e, roles') => (Raise e, set_roles st roles')
  end.

(** [for r, ri in list(roles.items()): if ri == path: del roles[r]] *)
Definition unregister_loop (path : list string) (roles : list (string * list string))
  : list (string * list string) :=
  fold_left (fun rs item => if decide (snd item = path) then Dict.del rs (fst item) else rs)
            roles roles.

(** [SamlAuthority.unregister_role_implementor] *)
Definition unregister_role_implementor (st : state) (impl : implementor) : state :=
  _update (set_roles st (unregister_loop (getPhysicalPath impl) (roles st))).

(** *** Registration in the words of the specification *)

(** the implementor implements the role: it provides the role's interface *)
Definition implements (impl : implementor) (role : string) : bool :=
  match role_interface role with
  | Ok i => providedBy i impl
  | Raise _ => false
  end.

(** the roles an implementor implements, in the order of the role table *)
Definition implemented_roles (impl : implementor) : list string :=
  List.filter (implements impl) (map fst (role2element env)).

(** the first of the given roles that the registry already maps *)
Definition first_conflict (registry : list (string * list string)) (l : list string)
  : option string :=
  List.find (fun r => Dict.contains r registry) l.

(** the given roles up to the first one the registry already maps *)
Fixpoint free_prefix (registry : list (string * list string)) (l : list string)
  : list string :=
  match l with
  | [] => []
  | r :: l' => if Dict.contains r registry then [] else r :: free_prefix registry l'
  end.

(** every role of the table has its interface among the imported ones *)
Definition role_table_known : Prop :=
  Forall (fun r => is_ok (role_interface r) = true) (map fst (role2element env)).

(** [SamlAuthority._get_url] *)
Definition _get_url (obj : implementor) : string :=
  match url_customizer env with
  | Some customizer => customizer (getPhysicalPath obj)
  | None => base_url cfg +:+ "/" +:+ path2url env (tail (getPhysicalPath obj))
  end.

Definition gen_metadata_sso (i : implementor) (rd : metadata.RoleDescriptor)
  : metadata.RoleDescriptor := rd.

Definition gen_metadata_idpsso (i : implementor) (rd : metadata.RoleDescriptor)
  : metadata.RoleDescriptor :=
  let rd := gen_metadata_sso i rd in
  let rd := metadata.add_SingleSignOnService rd
    {| metadata.Binding := HttpRedirectBinding;
       metadata.Location := _get_url i +:+ "/redirect";
       metadata.ep_index := None; metadata.ep_isDefault := None |} in
  let rd := metadata.add_SingleSignOnService rd
    {| metadata.Binding := HttpPostBinding;
       metadata.Location := _get_url i +:+ "/post";
       metadata.ep_index := None; metadata.ep_isDefault := None |} in
  if providedBy "IApRole" i
  then metadata.add_attributes rd (own_attribute_metadata i)
  else rd.

Definition gen_metadata_spsso (i : implementor) (rd : metadata.RoleDescriptor)
  : metadata.RoleDescriptor :=
  let rd := gen_metadata_sso i rd in
  let rd := if wants_assertions_signed i then metadata.set_WantsAssertionsSigned rd else rd in
  let rd := metadata.add_AssertionConsumerService rd
    {| metadata.Binding := HttpPostBinding;
       metadata.Location := _get_url i +:+ "/post";
       metadata.ep_index := Some 1%Z; metadata.ep_isDefault := Some true |} in
  metadata.add_attributes rd (own_attribute_metadata i).

(** [getattr(self, "gen_metadata_" + r)]: the class defines the three
    generators above and no other. *)
Definition gen_metadata (r : string)
  : result (implementor -> metadata.RoleDescriptor -> metadata.RoleDescriptor) :=
  if String.eqb r "sso" then Ok gen_metadata_sso
  else if String.eqb r "idpsso" then Ok gen_metadata_idpsso
  else if String.eqb r "spsso" then Ok gen_metadata_spsso
  else Raise (AttributeError ("gen_metadata_" +:+ r)).

(** [for c in (self.certificate, self.future_certificate): if c: ...] *)
Fixpoint add_key_descriptors (certs : list (option string)) (rd : metadata.RoleDescriptor)
  : result metadata.RoleDescriptor :=
  match certs with
  | [] => Ok rd
  | c :: certs' =>
      if truthy_ostr c then
        (cert <-! read_file env (Path._make_absolute (clienthome cfg) (ostr_or c ""));
         add_key_descriptors certs'
           (metadata.add_KeyDescriptor rd
              {| metadata.X509Certificate := cert; metadata.use := "signing" |}))%result
      else add_key_descriptors certs' rd
  end.

(** the body of the loop of [_export_own_metadata] for one role other than
    "ap": the role descriptor as it stands in the entity descriptor when
    the body is done. *)
Definition role_descriptor (r : string) (p : list string) : result metadata.RoleDescriptor :=
  (i <-! unrestrictedTraverse env p;
   el <-! match Dict.get r (role2element env) with
          | Some el => Ok el
          | None => Raise (KeyError r)
          end;
   rd <-! add_key_descriptors [certificate cfg; future_certificate cfg]
            (metadata.new_descriptor el);
   rd <-! (if has_NameIDFormat env el then
             match nameid_supported i with
             | Some supported => Ok (metadata.set_NameIDFormat rd supported)
             | None => Raise (TypeError "Could not adapt")
             end
           else Ok rd);
   g <-! gen_metadata r;
   Ok (g i rd))%result.

(** [for r, p in self.roles.items(): ...] with the descriptors appended so
    far and the counter [rno] *)
Fixpoint export_loop (items : list (string * list string))
    (rds : list metadata.RoleDescriptor) (rno : nat)
  : result (list metadata.RoleDescriptor * nat) :=
  match items with
  | [] => Ok (rds, rno)
  | (r, p) :: items' =>
      if String.eqb r "ap" then export_loop items' rds rno
      else (rd <-! role_descriptor r p;
            export_loop items' (rds ++ [rd]) (S rno))%result
  end.

Definition no_roles_message : string :=
  "The authority does not have associated roles; its metadata would violate the saml2 metadata schema".

(** [SamlAuthority._export_own_metadata], called at time [now]; the
    document is the entity descriptor that [toxml()] serializes. *)
Definition _export_own_metadata (st : state) (now : Z) : result metadata.EntityDescriptor :=
  (out <-! export_loop (roles st) [] 0;
   match snd out with
   | O => Raise (ValueError no_roles_message [])
   | S _ =>
       Ok {| metadata.entityID := entity_id cfg;
             metadata.ed_validUntil := (now + metadata_validity cfg)%Z;
             metadata.RoleDescriptors := fst out |}
   end)%result.

(** *** The export in the words of the specification *)

(** the roles of the registry that get a role descriptor: all but "ap" *)
Definition exported_roles (st : state) : list (string * list string) :=
  List.filter (fun item => negb (String.eqb (fst item) "ap")) (roles st).

(** the role descriptors of a list of roles, one per role, unless building
    one of them fails *)
Fixpoint role_descriptors (items : list (string * list string))
  : result (list metadata.RoleDescriptor) :=
  match items with
  | [] => Ok []
  | (r, p) :: items' =>
      (rd <-! role_descriptor r p;
       rds <-! role_descriptors items';
       Ok (rd :: rds))%result
  end.

(** the roles the class has a metadata generator for *)
Definition has_generator (r : string) : Prop :=
  r = "sso" \/ r = "idpsso" \/ r = "spsso".

(** the body of the loop up to the look-up of the generator (lines
    197-215): the implementor found and the role descriptor with its key
    descriptors and name id formats *)
Definition prepare_descriptor (r : string) (p : list string)
  : result (implementor * metadata.RoleDescriptor) :=
  (i <-! unrestrictedTraverse env p;
   el <-! match Dict.get r (role2element env) with
          | Some el => Ok el
          | None => Raise (KeyError r)
          end;
   rd <-! add_key_descriptors [certificate cfg; future_certificate cfg]
            (metadata.new_descriptor el);
   rd <-! (if has_NameIDFormat env el then
             match nameid_supported i with
             | Some supported => Ok (metadata.set_NameIDFormat rd supported)
             | None => Raise (TypeError "Could not adapt")
             end
           else Ok rd);
   Ok (i, rd))%result.

End WithAuthority.

(** *** [move_handler]: the authority is added, moved or deleted *)

(** the active site: whether its site manager is persistent
    ([hasattr(sm, "_p_jar")]) *)
Record site : Type := { sm_has_p_jar : bool }.

(** the move event: a missing parent is [None] *)
Record moved_event : Type := {
  oldParent : option (list string);
  newParent : option (list string)
}.

Inductive action : Type :=
| UnregisterUtility
| RegisterUtility
| AddOwnEntity.

Section SetOrder.

(** [list(set(l))]: the distinct elements of [l] in the iteration order of
    a Python set, which follows the hashes of the elements and is not
    determined by [l] *)
Variable set_order : list (list string) -> list (list string).

(** the paths the error lists: [set(o.roles.values())] *)
Definition listed_paths (o_roles : list (string * list string)) : list (list string) :=
  set_order (map snd o_roles).

(** the error raised when roles are still registered *)
Definition refusal (o_roles : list (string * list string)) : exn :=
  ValueError "must first delete role implementers"
             (map join_slash (listed_paths o_roles)).

(** [move_handler(o, e)]; [o_roles] is [o.roles], [active] is [getSite()].
    The actions are those performed before the handler returned or raised. *)
Definition move_handler (active : option site) (o_roles : list (string * list string))
    (e : moved_event) : result unit * list action :=
  match active with
  | None =>
      if is_None (newParent e) then (Ok tt, [])
      else (Raise (ValueError "need a persistent active site" []), [])
  | Some sm =>
      let unregister :=
        if negb (is_None (oldParent e)) then
          if truthy_list o_roles && is_None (newParent e) then
            (Raise (refusal o_roles), [])
          else (Ok tt, [UnregisterUtility])
        else (Ok tt, []) in
      match unregister with
      | (Raise e', acts) => (Raise e', acts)
      | (Ok _, acts) =>
          if negb (is_None (newParent e)) then
            if negb (sm_has_p_jar sm) then
              (Raise (ValueError "need a persistent active site" []), acts)
            else
              (Ok tt, acts ++ [RegisterUtility] ++
                      (if is_None (oldParent e) then [AddOwnEntity] else []))
          else (Ok tt, acts)
      end
  end.

End SetOrder.

(** what every iteration order of a set has: each element once *)
Definition lists_the_set (set_order : list (list string) -> list (list string)) : Prop :=
  forall l, List.NoDup (set_order l) /\ forall p, In p (set_order l) <-> In p l.

(** the event of a deletion: the object leaves its container and gets no
    new one *)
Definition is_deletion (e : moved_event) : bool :=
  negb (is_None (oldParent e)) && is_None (newParent e).

(** *** The deletion of a role implementor *)


End Authority.

(** ** Entity management ([entity.py]) *)

Module Entity.

(** *** [urllib.parse.quote] and [unquote]

    A text is represented by its UTF-8 encoding, which is what [quote]
    works on and what [unquote] decodes to. *)

Definition is_digit (n : nat) : bool := (48 <=? n)%nat && (n <=? 57)%nat.
Definition is_upper (n : nat) : bool := (65 <=? n)%nat && (n <=? 90)%nat.
Definition is_lower (n : nat) : bool := (97 <=? n)%nat && (n <=? 122)%nat.

(** the characters [quote] never quotes: letters, digits and [_.-~] *)
Definition always_safe (c : ascii) : bool :=
  let n := nat_of_ascii c in
  is_digit n || is_upper n || is_lower n
  || (n =? 95)%nat || (n =? 46)%nat || (n =? 45)%nat || (n =? 126)%nat.

(** the upper-case hexadecimal digit of a value below 16 *)
Definition hexdigit (n : nat) : ascii :=
  if (n <? 10)%nat then ascii_of_nat (48 + n) else ascii_of_nat (55 + n).

(** the value of a hexadecimal digit of either case *)
Definition unhex (c : ascii) : option nat :=
  let n := nat_of_ascii c in
  if is_digit n then Some (n - 48)
  else if (65 <=? n)%nat && (n <=? 70)%nat then Some (n - 55)
  else if (97 <=? n)%nat && (n <=? 102)%nat then Some (n - 87)
  else None.

(** [quote(s, "")]: every byte outside the safe set becomes [%XX] *)
Fixpoint quote (s : string) : string :=
  match s with
  | EmptyString => EmptyString
  | String c s' =>
      if always_safe c then String c (quote s')
      else
        let n := nat_of_ascii c in
        String "%" (String (hexdigit (n / 16)) (String (hexdigit (n mod 16)) (quote s')))
  end.

(** [unquote(s)]: [%XX] with two hexadecimal digits becomes the byte, any
    other [%] stays *)
Fixpoint unquote (s : string) : string :=
  match s with
  | EmptyString => EmptyString
  | String c s' =>
      if Ascii.eqb c "%" then
        match s' with
        | String h (String l rest) =>
            match unhex h, unhex l with
            | Some a, Some b => String (ascii_of_nat (16 * a + b)) (unquote rest)
            | _, _ => String "%" (unquote s')
            end
        | _ => String "%" (unquote s')
        end
      else String c (unquote s')
  end.

(** [s.replace(a, b)] for single characters *)
Fixpoint replace (a b : ascii) (s : string) : string :=
  match s with
  | EmptyString => EmptyString
  | String c s' => String (if Ascii.eqb c a then b else c) (replace a b s')
  end.

(** [_quote(id)]: [quote(id, "").replace("%", "$")] *)
Definition _quote (id : string) : string := replace "%" "$" (quote id).

(** [_unquote(id)]: [unquote(id.replace("$", "%"))] *)
Definition _unquote (id : string) : string := unquote (replace "$" "%" id).

(** *** The entity manager *)

(** a managed entity: its entity id and its [protected] flag
    ([getattr(e, "protected", False)]) *)
Record entity : Type := {
  id : string;
  protected : bool
}.

(** the entities of the repository, by entity id ([get_entity] looks an
    id up, [del_entity] removes it) *)
Definition get_entity (entities : gmap string entity) (eid : string) : option entity :=
  entities !! eid.

Definition del_entity (entities : gmap string entity) (eid : string)
  : gmap string entity :=
  delete eid entities.

(** [EntityManagerMixin._getOb(id)] (without the acquisition wrapper) *)
Definition _getOb (entities : gmap string entity) (id : string) : option entity :=
  get_entity entities (_unquote id).

(** [EntityManagerMixin._delOb(id)] *)
Definition _delOb (entities : gmap string entity) (oid : string)
  : result (gmap string entity) :=
  match get_entity entities (_unquote oid) with
  | None => Ok entities
  | Some e =>
      if protected e then Raise (TypeError "Cannot delete a protected entity")
      else Ok (del_entity entities (id e))
  end.

(** [EntityManagerMixin.objectIds()] for a list of entities *)
Definition objectIds (es : list entity) : list string :=
  map (fun e => _quote (id e)) es.

End Entity.

(** ** Further operations of [attribute.py], [authority.py] and [entity.py] *)

Module Advertise.

(** the [Attribute] that announces a provided attribute in the metadata:
    [Attribute(NameFormat=ad.format, Name=ad.title, FriendlyName=ad.id)] *)
Definition advertised (ad : Release.ProvidedAttribute) : Release.Attribute :=
  {| Release.a_NameFormat := Release.format ad;
     Release.a_Name := Release.title ad;
     Release.a_FriendlyName := Release.pa_id ad;
     Release.a_values := [] |}.

(** [SimpleAttributeProvider.add_attribute_metadata(descriptor)];
    [attributes] is [descriptor.Attribute] *)
Definition add_attribute_metadata (env : Release.collaborators)
    (attributes : list Release.Attribute) : list Release.Attribute :=
  fold_left (fun attrs ad => attrs ++ [advertised ad]) (Release.objectValues env) attributes.

(** the request of an attribute by the format and name under which it is
    announced *)
Definition request_of (a : Release.Attribute) : RequestedAttribute :=
  {| NameFormat := Some (Release.a_NameFormat a);
     Name := Release.a_Name a;
     FriendlyName := None |}.

End Advertise.

Module Subscribers.

Section WithAuthority.

Variable Key : Type.
Variable cfg : authority_config.

(** [own_metadata_changed(o, e)]: [getUtility(ISamlAuthority)._update()] *)
Definition own_metadata_changed (st : Authority.state Key) : Authority.state Key :=
  Authority._update Key cfg st.

(** [signature_context_changed(o, e)]:
    [del getUtility(ISamlAuthority)._get_keys_manager()[o.id]] *)
Definition signature_context_changed (st : Authority.state Key) (o_id : string)
  : Authority.state Key :=
  {| Authority.roles := Authority.roles Key st;
     Authority.eid2volatile_info :=
       Keys.__delitem__ Key (Authority.eid2volatile_info Key st) o_id;
     Authority.calls := Authority.calls Key st |}.

(** the keys of an entity id are gone from the cache, the keys of every
    other entity id are where they were *)
Definition keys_dropped (eid : string) (before after : Authority.state Key) : Prop :=
  Authority.eid2volatile_info Key after !! eid = None /\
  forall eid', eid' <> eid ->
    Authority.eid2volatile_info Key after !! eid'
    = Authority.eid2volatile_info Key before !! eid'.

End WithAuthority.

End Subscribers.

Module EntityManager.

(** [list_entities()]: the entities of the repository *)
Definition list_entities (entities : gmap string Entity.entity) : list Entity.entity :=
  map snd (map_to_list entities).

(** [EntityManagerMixin.__getitem__(k)] *)
Definition __getitem__ (entities : gmap string Entity.entity) (k : string)
  : result Entity.entity :=
  match Entity._getOb entities k with
  | None => Raise (KeyError k)
  | Some e => Ok e
  end.

(** [ManageableEntityMixin.getId()]: the quoted entity id *)
Definition getId (e : Entity.entity) : string := Entity._quote (Entity.id e).

(** every entity is stored under its own entity id *)
Definition well_keyed (entities : gmap string Entity.entity) : Prop :=
  forall k e, entities !! k = Some e -> Entity.id e = k.

End EntityManager.

Module ExportSpec.

Section WithAuthority.

Variable cfg : authority_config.
Variable env : Authority.collaborators.

(** the files of the certificates that are configured *)
Definition files_of (certs : list (option string)) : list string :=
  map (Path._make_absolute (clienthome cfg))
      (omap (fun c => if truthy_ostr c then c else None) certs).

(** the configured certificate files, current before future *)
Definition certificate_files : list string :=
  files_of [certificate cfg; future_certificate cfg].

(** the contents of a list of files, unless one of them cannot be read *)
Fixpoint read_all (files : list string) : result (list string) :=
  match files with
  | [] => Ok []
  | f :: files' =>
      (c <-! Authority.read_file env f;
       cs <-! read_all files';
       Ok (c :: cs))%result
  end.

Definition signing_descriptor (cert : string) : Authority.metadata.KeyDescriptor :=
  {| Authority.metadata.X509Certificate := cert; Authority.metadata.use := "signing" |}.

(** the two single-sign-on endpoints of an identity provider at [url] *)
Definition idp_endpoints (url : string) : list Authority.metadata.Endpoint :=
  [ {| Authority.metadata.Binding := Authority.HttpRedirectBinding;
       Authority.metadata.Location := url +:+ "/redirect";
       Authority.metadata.ep_index := None; Authority.metadata.ep_isDefault := None |};
    {| Authority.metadata.Binding := Authority.HttpPostBinding;
       Authority.metadata.Location := url +:+ "/post";
       Authority.metadata.ep_index := None; Authority.metadata.ep_isDefault := None |} ].

(** the assertion consumer endpoint of a service provider at [url] *)
Definition sp_endpoints (url : string) : list Authority.metadata.Endpoint :=
  [ {| Authority.metadata.Binding := Authority.HttpPostBinding;
       Authority.metadata.Location := url +:+ "/post";
       Authority.metadata.ep_index := Some 1%Z;
       Authority.metadata.ep_isDefault := Some true |} ].

(** a descriptor differs from another one at most in its key descriptors *)
Definition same_but_keys (rd rd' : Authority.metadata.RoleDescriptor) : Prop :=
  Authority.metadata.element rd' = Authority.metadata.element rd /\
  Authority.metadata.NameIDFormat rd' = Authority.metadata.NameIDFormat rd /\
  Authority.metadata.SingleSignOnService rd' = Authority.metadata.SingleSignOnService rd /\
  Authority.metadata.AssertionConsumerService rd'
    = Authority.metadata.AssertionConsumerService rd /\
  Authority.metadata.WantsAssertionsSigned rd' = Authority.metadata.WantsAssertionsSigned rd /\
  Authority.metadata.attribute_metadata rd' = Authority.metadata.attribute_metadata rd.

End WithAuthority.

End ExportSpec.

(** ** Concrete inputs used by the examples below *)

Module Examples.

Definition acs0 : AttributeConsumingService :=
  {| index := 0; isDefault := None; RequestedAttributes := [] |}.
Definition acs1 : AttributeConsumingService :=
  {| index := 1; isDefault := Some false; RequestedAttributes := [] |}.
Definition acs2 : AttributeConsumingService :=
  {| index := 2; isDefault := Some true; RequestedAttributes := [] |}.

(** metadata with one SP descriptor declaring the given services *)
Definition sp_metadata (acss : list AttributeConsumingService) : EntityDescriptor :=
  {| SPSSODescriptors := [ {| AttributeConsumingServices := acss |} ];
     validUntil := None |}.

Definition uri_format : string := "urn:oasis:names:tc:SAML:2.0:attrname-format:uri".
Definition unspecified_format : string :=
  "urn:oasis:names:tc:SAML:2.0:attrname-format:unspecified".

Definition mail : Release.ProvidedAttribute :=
  {| Release.pa_id := "mail"; Release.format := uri_format; Release.title := "mail";
     Release.type := "string"; Release.evaluator := None |}.

Definition ra_mail : RequestedAttribute :=
  {| NameFormat := Some uri_format; Name := "mail"; FriendlyName := None |}.
Definition ra_phone : RequestedAttribute :=
  {| NameFormat := None; Name := "phone"; FriendlyName := Some "telephone" |}.
Definition ra_fax : RequestedAttribute :=
  {| NameFormat := Some uri_format; Name := "fax"; FriendlyName := None |}.

(** a conversion that accepts texts only *)
Definition convert_text (t : string) (v : Release.pyvalue) : result Release.converted :=
  match v with
  | Release.PyText s => Ok (Release.OneValue {| Release.av_text := s |})
  | _ => Raise (ExternalError "cannot convert")
  end.

(** a provider offering [mail], a member whose [mail] property is
    "a@example.org", and a repository answering every id with [md] *)
Definition release_env (md : EntityDescriptor) : Release.collaborators :=
  {| Release.normalize_attrname_format := fun _ => unspecified_format;
     Release.xs_convert_to_xml := convert_text;
     Release.decode_charset := fun b => Ok b;
     Release.getProperty := fun p =>
       if String.eqb p "mail" then Release.PyText "a@example.org" else Release.PyNone;
     Release.call_evaluator := fun _ _ _ => Raise (ExternalError "no evaluator");
     Release.get_recent_metadata := fun _ => Ok md;
     Release.objectValues := [mail] |}.

Definition acs_requesting (ras : list RequestedAttribute) : AttributeConsumingService :=
  {| index := 0; isDefault := Some true; RequestedAttributes := ras |}.

Definition acs_all_missing : AttributeConsumingService :=
  acs_requesting [ra_phone; ra_fax].
Definition env_all_missing : Release.collaborators :=
  release_env (sp_metadata [acs_all_missing]).

Definition acs_partial : AttributeConsumingService :=
  acs_requesting [ra_phone; ra_mail; ra_fax].
Definition env_partial : Release.collaborators :=
  release_env (sp_metadata [acs_partial]).

(** *** The keys manager *)

Definition five_roles : list (string * string) :=
  [("idpsso", "IDPSSODescriptor"); ("spsso", "SPSSODescriptor");
   ("ap", "AttributeAuthorityDescriptor"); ("authn", "AuthnAuthorityDescriptor");
   ("pdp", "PDPDescriptor")].

Definition idp_config : authority_config :=
  {| entity_id := "https://idp.example.org";
     certificate := Some "etc/cert.der";
     future_certificate := None;
     private_key := "etc/key.pem";
     private_key_password := None;
     base_url := "https://idp.example.org";
     metadata_validity := 86400;
     clienthome := "/var/zope" |}.

(** keys are named after what they were loaded from; the metadata of every
    foreign entity is valid until 1000, has to be fetched, and carries the
    certificates c1, c2 for the IdP role and c2, c3, c1 for the SP role *)
Definition keys_env : Keys.collaborators string :=
  {| Keys.key_load := fun fn _ pw => Ok ("key " +:+ fn +:+ " " +:+ pw);
     Keys.key_loadMemory := fun cert _ => Ok ("cert " +:+ cert);
     Keys.get_recent_metadata := fun _ =>
       Ok {| SPSSODescriptors := []; validUntil := Some 1000%Z |};
     Keys.fetches_metadata := fun _ => true;
     Keys.get_role_certificates := fun _ role use_ =>
       if String.eqb use_ "signing" then
         if String.eqb role "idpsso" then ["c1"; "c2"]
         else if String.eqb role "spsso" then ["c2"; "c3"; "c1"]
         else []
       else ["c9"];
     Keys.encode_charset := fun s => Ok s;
     Keys.role2element := five_roles |}.

(** a cache holding keys of the SP that are valid until 100 *)
Definition sp_cache : gmap string (Keys.Volatile string) :=
  {[ "https://sp.example.org" := Keys.slot string (Some 100%Z, ["old key"]) ]}.

(** *** The authority *)

Definition idp_path : list string := [""; "site"; "idp"].
Definition sp_path : list string := [""; "site"; "sp"].
Definition attrs_path : list string := [""; "site"; "attrs"].
Definition authn_path : list string := [""; "site"; "authn"].

(** an identity provider that also provides attributes *)
Definition idp_with_attributes : Authority.implementor :=
  {| Authority.getPhysicalPath := idp_path;
     Authority.provides := ["IIdpssoRole"; "IApRole"];
     Authority.wants_assertions_signed := false;
     Authority.nameid_supported := Some ["urn:oasis:names:tc:SAML:2.0:nameid-format:persistent"];
     Authority.own_attribute_metadata := [(uri_format, "mail", "mail")] |}.

Definition service_provider : Authority.implementor :=
  {| Authority.getPhysicalPath := sp_path;
     Authority.provides := ["ISpssoRole"];
     Authority.wants_assertions_signed := true;
     Authority.nameid_supported := Some [];
     Authority.own_attribute_metadata := [] |}.

Definition attribute_provider : Authority.implementor :=
  {| Authority.getPhysicalPath := attrs_path;
     Authority.provides := ["IApRole"];
     Authority.wants_assertions_signed := false;
     Authority.nameid_supported := Some [];
     Authority.own_attribute_metadata := [] |}.

Definition authn_authority : Authority.implementor :=
  {| Authority.getPhysicalPath := authn_path;
     Authority.provides := ["IAuthnRole"];
     Authority.wants_assertions_signed := false;
     Authority.nameid_supported := Some [];
     Authority.own_attribute_metadata := [] |}.

(** every path resolves, every file can be read, every descriptor class
    has a [NameIDFormat] and no url customizer is registered *)
Definition authority_env : Authority.collaborators :=
  {| Authority.role2element := five_roles;
     Authority.unrestrictedTraverse := fun p =>
       if bool_decide (p = idp_path) then Ok idp_with_attributes
       else if bool_decide (p = sp_path) then Ok service_provider
       else if bool_decide (p = attrs_path) then Ok attribute_provider
       else if bool_decide (p = authn_path) then Ok authn_authority
       else Raise (KeyError (Authority.join_slash p));
     Authority.read_file := fun fn => Ok ("DER " +:+ fn);
     Authority.has_NameIDFormat := fun _ => true;
     Authority.url_customizer := None;
     Authority.path2url := Authority.join_slash |}.

Definition registry (r : list (string * list string)) : Authority.state string :=
  {| Authority.roles := r; Authority.eid2volatile_info := ∅; Authority.calls := [] |}.

(** the attribute provider is registered *)
Definition ap_registered : Authority.state string := registry [("ap", attrs_path)].

Definition authn_registered : Authority.state string := registry [("authn", authn_path)].

Definition three_registered : Authority.state string :=
  registry [("idpsso", idp_path); ("ap", idp_path); ("spsso", sp_path)].

(** the authority is deleted *)
Definition deletion : Authority.moved_event :=
  {| Authority.oldParent := Some [""; "site"]; Authority.newParent := None |}.

(** the role descriptors of the three registered roles *)
Definition exported_descriptors : list Authority.metadata.RoleDescriptor :=
  Eval vm_compute in
    match Authority.role_descriptors idp_config authority_env
            [("idpsso", idp_path); ("spsso", sp_path)] with
    | Ok rds => rds
    | Raise _ => []
    end.

End Examples.

(** ** Further concrete inputs *)

Module MoreExamples.

(** an attribute whose value the member does not have *)
Definition age : Release.ProvidedAttribute :=
  {| Release.pa_id := "age"; Release.format := Examples.uri_format;
     Release.title := "age"; Release.type := "integer"; Release.evaluator := None |}.

Definition ra_age : RequestedAttribute :=
  {| NameFormat := Some Examples.uri_format; Name := "age"; FriendlyName := None |}.

Definition acs_with_age : AttributeConsumingService :=
  Examples.acs_requesting [Examples.ra_phone; Examples.ra_mail; ra_age; Examples.ra_fax].

(** the provider of [Examples.release_env] offering [age] as well *)
Definition env_with_age : Release.collaborators :=
  {| Release.normalize_attrname_format := fun _ => Examples.unspecified_format;
     Release.xs_convert_to_xml := Examples.convert_text;
     Release.decode_charset := fun b => Ok b;
     Release.getProperty := fun p =>
       if String.eqb p "mail" then Release.PyText "a@example.org" else Release.PyNone;
     Release.call_evaluator := fun _ _ _ => Raise (ExternalError "no evaluator");
     Release.get_recent_metadata := fun _ => Ok (Examples.sp_metadata [acs_with_age]);
     Release.objectValues := [Examples.mail; age] |}.

(** a repository whose metadata carry no certificate at all and declare
    no end of validity *)
Definition keys_env_no_certs : Keys.collaborators string :=
  {| Keys.key_load := fun fn _ pw => Ok ("key " +:+ fn +:+ " " +:+ pw);
     Keys.key_loadMemory := fun cert _ => Ok ("cert " +:+ cert);
     Keys.get_recent_metadata := fun _ => Ok {| SPSSODescriptors := []; validUntil := None |};
     Keys.fetches_metadata := fun _ => false;
     Keys.get_role_certificates := fun _ _ _ => [];
     Keys.encode_charset := fun s => Ok s;
     Keys.role2element := Examples.five_roles |}.

(** a repository that fetches the metadata of every entity and whose
    certificates cannot be loaded as keys *)
Definition keys_env_unloadable : Keys.collaborators string :=
  {| Keys.key_load := fun fn _ pw => Ok ("key " +:+ fn +:+ " " +:+ pw);
     Keys.key_loadMemory := fun cert _ => Raise (ExternalError ("cannot load " +:+ cert));
     Keys.get_recent_metadata := fun _ =>
       Ok {| SPSSODescriptors := []; validUntil := Some 1000%Z |};
     Keys.fetches_metadata := fun _ => true;
     Keys.get_role_certificates := fun _ role use_ =>
       if String.eqb use_ "signing" && String.eqb role "spsso" then ["c1"] else [];
     Keys.encode_charset := fun s => Ok s;
     Keys.role2element := Examples.five_roles |}.

(** the configuration of [Examples.idp_config] with a password for the
    private key *)
Definition idp_config_with_password : authority_config :=
  {| entity_id := "https://idp.example.org";
     certificate := Some "etc/cert.der";
     future_certificate := None;
     private_key := "etc/key.pem";
     private_key_password := Some (Text "secret");
     base_url := "https://idp.example.org";
     metadata_validity := 86400;
     clienthome := "/var/zope" |}.

(** an authority state whose cache holds keys of the authority and of the SP *)
Definition cached_state : Authority.state string :=
  {| Authority.roles := [];
     Authority.eid2volatile_info :=
       <[ "https://idp.example.org" := Keys.slot string (None, ["own key"]) ]>
         Examples.sp_cache;
     Authority.calls := [] |}.

(** the service provider's path no longer resolves *)
Definition dangling_path : list string := [""; "site"; "gone"].

Definition dangling_sp_registered : Authority.state string :=
  Examples.registry [("idpsso", Examples.idp_path); ("spsso", dangling_path)].

Definition dangling_ap_registered : Authority.state string :=
  Examples.registry [("ap", dangling_path); ("idpsso", Examples.idp_path)].

(** the authentication authority cannot be adapted to
    [INameidFormatSupport] *)
Definition unadaptable_env : Authority.collaborators :=
  {| Authority.role2element := Examples.five_roles;
     Authority.unrestrictedTraverse := fun _ =>
       Ok {| Authority.getPhysicalPath := Examples.authn_path;
             Authority.provides := ["IAuthnRole"];
             Authority.wants_assertions_signed := false;
             Authority.nameid_supported := None;
             Authority.own_attribute_metadata := [] |};
     Authority.read_file := fun fn => Ok ("DER " +:+ fn);
     Authority.has_NameIDFormat := fun _ => true;
     Authority.url_customizer := None;
     Authority.path2url := Authority.join_slash |}.

(** one of the orders in which a set may list its elements: that of
    their first occurrences *)
Definition insertion_order : list (list string) -> list (list string) :=
  first_occurrences.

(** the role descriptor of the identity provider *)
Definition idp_descriptor : Authority.metadata.RoleDescriptor :=
  Eval vm_compute in
    match Authority.role_descriptor Examples.idp_config Examples.authority_env
            "idpsso" Examples.idp_path with
    | Ok rd => rd
    | Raise _ => Authority.metadata.new_descriptor ""
    end.

(** the entities of a repository: the authority's own entity, which is
    protected, and a service provider *)
Definition own_entity : Entity.entity :=
  {| Entity.id := "https://idp.example.org"; Entity.protected := true |}.
Definition sp_entity : Entity.entity :=
  {| Entity.id := "https://sp.example.org/a%b"; Entity.protected := false |}.

Definition two_entities : gmap string Entity.entity :=
  {[ "https://idp.example.org" := own_entity;
     "https://sp.example.org/a%b" := sp_entity ]}.

End MoreExamples.

(** * Properties *)

(** ** The selector of the attribute consuming service *)

Module SelectorFacts.

Import Selector.

Lemma for_break_find {A : Type} (p q : A -> bool) (l : list A) :
  (forall x, p x = q x) -> for_break p l = find q l.
Proof.
  intros Hpq. induction l as [|x l IH]; simpl; [reflexivity|].
  rewrite Hpq, IH. reflexivity.
Qed.

Lemma matches_None (acs : AttributeConsumingService) :
  matches None acs = explicitly_default acs.
Proof.
  unfold matches, explicitly_default, truthy_bool, index_eq. simpl.
  destruct (isDefault acs) as [[]|]; reflexivity.
Qed.

Lemma isDefault_unset_spec (acs : AttributeConsumingService) :
  isDefault_unset acs = default_unset acs.
Proof.
  unfold isDefault_unset, default_unset. destruct (isDefault acs); reflexivity.
Qed.

(** within one SP descriptor the default rule of the code is the rule of
    the specification *)
Lemma select_in_sp_default (sp : SPSSODescriptor) :
  select_in_sp None sp = spec_select_default (AttributeConsumingServices sp).
Proof.
  unfold select_in_sp, spec_select_default.
  rewrite (for_break_find _ _ _ matches_None).
  rewrite (for_break_find _ _ _ isDefault_unset_spec).
  destruct (AttributeConsumingServices sp) as [|a l]; [reflexivity|].
  destruct (find explicitly_default (a :: l)); reflexivity.
Qed.

Lemma spec_select_default_nonempty (a : AttributeConsumingService) l :
  exists acs, spec_select_default (a :: l) = Some acs.
Proof.
  unfold spec_select_default.
  destruct (find explicitly_default (a :: l)); [eauto|].
  destruct (find default_unset (a :: l)); simpl; eauto.
Qed.

(** an explicit index selects a service carrying it, or nothing *)
Lemma select_in_sp_index (i : Z) (sp : SPSSODescriptor) :
  select_in_sp (Some i) sp =
  find (fun acs => (i =? index acs)%Z) (AttributeConsumingServices sp).
Proof.
  unfold select_in_sp. simpl.
  rewrite (for_break_find _ (fun acs => (i =? index acs)%Z)); [|reflexivity].
  destruct (find _ _); reflexivity.
Qed.

Lemma select_unknown_index (md : EntityDescriptor) (i : Z) :
  no_service_with_index md i -> _attribute_consuming_service md (Some i) = None.
Proof.
  unfold no_service_with_index, _attribute_consuming_service.
  induction (SPSSODescriptors md) as [|sp sps IH]; intros Hno; [reflexivity|].
  simpl. rewrite select_in_sp_index.
  destruct (find _ _) as [acs|] eqn:Hfind.
  - apply find_some in Hfind as [Hin Heq].
    apply Z.eqb_eq in Heq. exfalso.
    apply (Hno sp acs); [left; reflexivity | exact Hin | symmetry; exact Heq].
  - apply IH. intros sp' acs' Hsp. apply Hno. right. exact Hsp.
Qed.

(** C1: with no requested index, the selector returns, among the services
    of the SP descriptor (the first one declaring any), the first one whose
    [isDefault] is explicitly true; failing that the first one whose
    [isDefault] is not set at all (an explicit false counts as set);
    failing that the first one declared; and [None] when no service is
    declared. *)
Theorem select_default_rule (md : EntityDescriptor) :
  _attribute_consuming_service md None =
  spec_select_default (effective_services (SPSSODescriptors md)).
Proof.
  unfold _attribute_consuming_service.
  induction (SPSSODescriptors md) as [|sp sps IH]; [reflexivity|].
  simpl. rewrite select_in_sp_default.
  destruct (AttributeConsumingServices sp) as [|a l] eqn:Hacss.
  - simpl. exact IH.
  - destruct (spec_select_default_nonempty a l) as [acs Hacs].
    rewrite Hacs. reflexivity.
Qed.

(** the three cases of the specification's example *)
Example select_explicit_default :
  _attribute_consuming_service
    (Examples.sp_metadata [Examples.acs0; Examples.acs1; Examples.acs2]) None
  = Some Examples.acs2.
Proof. reflexivity. Qed.

Example select_unset_default :
  _attribute_consuming_service (Examples.sp_metadata [Examples.acs0; Examples.acs1]) None
  = Some Examples.acs0.
Proof. reflexivity. Qed.

Example select_unset_beats_false :
  _attribute_consuming_service (Examples.sp_metadata [Examples.acs1; Examples.acs0]) None
  = Some Examples.acs0.
Proof. reflexivity. Qed.

Example select_first_any :
  _attribute_consuming_service (Examples.sp_metadata [Examples.acs1]) None
  = Some Examples.acs1.
Proof. reflexivity. Qed.

Example select_no_service :
  _attribute_consuming_service (Examples.sp_metadata []) None = None.
Proof. reflexivity. Qed.

(** with several SP descriptors the rule is applied to the first one that
    declares services, not to the services of all of them *)
Example select_first_descriptor_with_services :
  _attribute_consuming_service
    {| SPSSODescriptors :=
         [ {| AttributeConsumingServices := [] |};
           {| AttributeConsumingServices := [Examples.acs1] |};
           {| AttributeConsumingServices := [Examples.acs2] |} ];
       validUntil := None |}
    None
  = Some Examples.acs1.
Proof. reflexivity. Qed.

(** an explicit index is looked for in every SP descriptor *)
Example select_by_index :
  _attribute_consuming_service
    {| SPSSODescriptors :=
         [ {| AttributeConsumingServices := [Examples.acs1] |};
           {| AttributeConsumingServices := [Examples.acs0; Examples.acs2] |} ];
       validUntil := None |}
    (Some 2%Z)
  = Some Examples.acs2.
Proof. reflexivity. Qed.

End SelectorFacts.

(** ** Attribute release *)

Module ReleaseFacts.

Import Release.

Section WithCollaborators.

Variable env : collaborators.

Lemma provided_lookup (ra : RequestedAttribute) :
  provided env ra = false <-> catalog env !! ran_of env ra = None.
Proof.
  unfold provided. destruct (catalog env !! ran_of env ra); simpl; split; congruence.
Qed.

(** one step of the loop at a miss: the attribute is logged, nothing else
    changes, and the loop goes on with the remaining attributes *)
Lemma release_loop_miss eid ra ras av log :
  catalog env !! ran_of env ra = None ->
  release_loop env eid (ra :: ras) av log =
  release_loop env eid ras av (log ++ [miss_entry env eid ra]).
Proof. intros Hmiss. simpl. rewrite Hmiss. reflexivity. Qed.

(** the attributes released (or the exception raised) do not depend on the
    misses nor on the log *)
Lemma release_loop_filter eid ras : forall av log log',
  fst (release_loop env eid ras av log) =
  fst (release_loop env eid (List.filter (provided env) ras) av log').
Proof.
  induction ras as [|ra ras IH]; intros av log log'; [reflexivity|].
  simpl. unfold provided at 1.
  destruct (catalog env !! ran_of env ra) as [d|] eqn:Hd; simpl.
  - rewrite Hd. destruct (make_attribute env ra d eid); [apply IH | reflexivity].
  - apply IH.
Qed.

(** when the loop runs to its end every miss has been logged, in order *)
Lemma release_loop_log eid ras : forall av log av' log',
  release_loop env eid ras av log = (Ok av', log') ->
  log' = log ++ map (miss_entry env eid) (List.filter (missing env) ras).
Proof.
  induction ras as [|ra ras IH]; intros av log av' log' Hrun; simpl in *.
  - injection Hrun as _ <-. rewrite app_nil_r. reflexivity.
  - unfold missing at 1; unfold provided.
    destruct (catalog env !! ran_of env ra) as [d|] eqn:Hd; simpl.
    + destruct (make_attribute env ra d eid); [|discriminate].
      apply IH in Hrun. exact Hrun.
    + apply IH in Hrun. rewrite Hrun, <- app_assoc. reflexivity.
Qed.

(** the list of attributes only grows *)
Lemma release_loop_grows eid ras : forall av log av' log',
  release_loop env eid ras av log = (Ok av', log') ->
  exists more, av' = av ++ more.
Proof.
  induction ras as [|ra ras IH]; intros av log av' log' Hrun; simpl in *.
  - injection Hrun as <- _. exists []. rewrite app_nil_r. reflexivity.
  - destruct (catalog env !! ran_of env ra) as [d|].
    + destruct (make_attribute env ra d eid) as [att|]; [|discriminate].
      apply IH in Hrun as [more ->]. exists (att :: more).
      rewrite <- app_assoc. reflexivity.
    + apply IH in Hrun. exact Hrun.
Qed.

(** when every requested attribute misses, the loop ends with no
    attribute and one log entry each *)
Lemma release_loop_all_miss eid ras : forall av log,
  List.filter (provided env) ras = [] ->
  release_loop env eid ras av log = (Ok av, log ++ map (miss_entry env eid) ras).
Proof.
  induction ras as [|ra ras IH]; intros av log Hnone; simpl in *.
  - rewrite app_nil_r. reflexivity.
  - unfold provided in Hnone at 1.
    destruct (catalog env !! ran_of env ra) as [d|]; simpl in Hnone; [discriminate|].
    rewrite (IH _ _ Hnone), <- app_assoc. reflexivity.
Qed.

Lemma statement_of_nonempty av l :
  statement_of av = AttributeStatement l -> l <> [].
Proof.
  unfold statement_of. destruct av; simpl; [discriminate|].
  intros [= <-]. discriminate.
Qed.

End WithCollaborators.

(** C3: when an index is requested explicitly and no attribute consuming
    service of the SP metadata carries it, the selector returns [None] and
    the release yields the protocol-level result "ResourceNotRecognized"
    (after logging the index); when no index is requested and the selector
    finds no service, the release succeeds with [None]. *)
Theorem release_unknown_index (env : collaborators) (target_eid : option string)
    (issuer : string) (md : EntityDescriptor) (i : Z) :
  get_recent_metadata env (ostr_or target_eid issuer) = Ok md ->
  (Selector.no_service_with_index md i ->
     Selector._attribute_consuming_service md (Some i) = None /\
     _make_attribute_statement env target_eid issuer (Some i) =
       (Ok (Status "ResourceNotRecognized"),
        [LogAcsNotLocated i (ostr_or target_eid issuer)])) /\
  (Selector._attribute_consuming_service md None = None ->
     _make_attribute_statement env target_eid issuer None = (Ok NoStatement, [])).
Proof.
  intros Hmd. split.
  - intros Hno. pose proof (SelectorFacts.select_unknown_index md i Hno) as Hsel.
    split; [exact Hsel|].
    unfold _make_attribute_statement. rewrite Hmd, Hsel. reflexivity.
  - intros Hsel. unfold _make_attribute_statement. rewrite Hmd, Hsel. reflexivity.
Qed.

Lemma release_unknown_index_witness :
  _make_attribute_statement
    (Examples.release_env
       (Examples.sp_metadata [Examples.acs0; Examples.acs1; Examples.acs2]))
    None "https://sp.example.org" (Some 5%Z)
  = (Ok (Status "ResourceNotRecognized"), [LogAcsNotLocated 5 "https://sp.example.org"])
  /\ _make_attribute_statement (Examples.release_env (Examples.sp_metadata []))
       None "https://sp.example.org" None
     = (Ok NoStatement, []).
Proof.
  split.
  - apply (release_unknown_index
             (Examples.release_env
                (Examples.sp_metadata [Examples.acs0; Examples.acs1; Examples.acs2]))
             None "https://sp.example.org" _ 5%Z eq_refl).
    intros sp acs Hsp Hacs. simpl in Hsp.
    destruct Hsp as [<-|[]]. simpl in Hacs.
    destruct Hacs as [<-|[<-|[<-|[]]]]; simpl; lia.
  - apply (release_unknown_index (Examples.release_env (Examples.sp_metadata []))
             None "https://sp.example.org" _ 0%Z eq_refl).
    reflexivity.
Defined.

(** C6: in the loop over the requested attributes a miss of the catalog is
    logged and skipped -- the attributes released are those of the requested
    attributes the catalog provides, and when the loop runs to its end the
    log holds one entry per miss; when no attribute was emitted the release
    returns [None], and it never returns an empty attribute statement. *)
Theorem release_skips_missing (env : collaborators) (target_eid : option string)
    (issuer : string) (index : option Z) (md : EntityDescriptor)
    (acs : AttributeConsumingService) :
  let eid := ostr_or target_eid issuer in
  let ras := RequestedAttributes acs in
  get_recent_metadata env eid = Ok md ->
  Selector._attribute_consuming_service md index = Some acs ->
  (forall ra ras' av log,
     catalog env !! ran_of env ra = None ->
     release_loop env eid (ra :: ras') av log =
     release_loop env eid ras' av (log ++ [LogAttributeNotFound (ran_of env ra) eid])) /\
  fst (_make_attribute_statement env target_eid issuer index) =
    match fst (release_loop env eid (List.filter (provided env) ras) [] []) with
    | Ok av => Ok (statement_of av)
    | Raise e => Raise e
    end /\
  (is_ok (fst (_make_attribute_statement env target_eid issuer index)) = true ->
   snd (_make_attribute_statement env target_eid issuer index) =
     map (miss_entry env eid) (List.filter (missing env) ras)) /\
  (List.filter (provided env) ras = [] ->
   _make_attribute_statement env target_eid issuer index =
     (Ok NoStatement, map (miss_entry env eid) ras)) /\
  (forall l log,
     _make_attribute_statement env target_eid issuer index = (Ok (AttributeStatement l), log) ->
     l <> []).
Proof.
  intros eid ras Hmd Hsel.
  assert (Hrun : _make_attribute_statement env target_eid issuer index =
                 match release_loop env eid ras [] [] with
                 | (Ok av, log) => (Ok (statement_of av), log)
                 | (Raise e, log) => (Raise e, log)
                 end).
  { unfold _make_attribute_statement. fold eid. rewrite Hmd, Hsel. reflexivity. }
  split; [|split; [|split; [|split]]].
  - intros ra ras' av log Hmiss. apply release_loop_miss. exact Hmiss.
  - rewrite Hrun, <- (release_loop_filter env eid ras [] [] []).
    destruct (release_loop env eid ras [] []) as [[av|e] log]; reflexivity.
  - rewrite Hrun.
    destruct (release_loop env eid ras [] []) as [[av|e] log] eqn:Hloop; simpl;
      [|discriminate].
    intros _. apply (release_loop_log env) in Hloop. exact Hloop.
  - intros Hnone. rewrite Hrun, (release_loop_all_miss env eid ras [] [] Hnone).
    reflexivity.
  - intros l log. rewrite Hrun.
    destruct (release_loop env eid ras [] []) as [[av|e] log0]; [|discriminate].
    intros [= Hst _]. exact (statement_of_nonempty av l Hst).
Qed.

Lemma release_skips_missing_witness :
  _make_attribute_statement Examples.env_all_missing None "https://sp.example.org" None =
    (Ok NoStatement,
     [LogAttributeNotFound (Examples.unspecified_format, "phone") "https://sp.example.org";
      LogAttributeNotFound (Examples.uri_format, "fax") "https://sp.example.org"]).
Proof.
  destruct (release_skips_missing Examples.env_all_missing None "https://sp.example.org"
              None (Examples.sp_metadata [Examples.acs_all_missing])
              Examples.acs_all_missing eq_refl eq_refl)
    as (_ & _ & _ & Hnone & _).
  apply Hnone. vm_compute. reflexivity.
Defined.

(** a partial release: the attribute in the middle is provided, its
    neighbours are logged and skipped *)
Example release_partial :
  _make_attribute_statement Examples.env_partial None "https://sp.example.org" None =
    (Ok (AttributeStatement
           [ {| a_NameFormat := Examples.uri_format; a_Name := "mail";
                a_FriendlyName := "mail";
                a_values := [ {| av_text := "a@example.org" |} ] |} ]),
     [LogAttributeNotFound (Examples.unspecified_format, "phone") "https://sp.example.org";
      LogAttributeNotFound (Examples.uri_format, "fax") "https://sp.example.org"]).
Proof. vm_compute. reflexivity. Qed.

End ReleaseFacts.

(** ** The keys manager *)

Module KeysFacts.

Import Keys.

Section WithKeys.

Variable Key : Type.
Variable auth : authority_config.
Variable env : collaborators Key.

Lemma store_insert (cache : gmap string (Volatile Key)) eid info :
  store Key cache eid info = <[eid := slot Key info]> cache.
Proof. unfold store. destruct (cache !! eid); reflexivity. Qed.

Lemma delitem_delete (cache : gmap string (Volatile Key)) eid :
  __delitem__ Key cache eid = delete eid cache.
Proof.
  unfold __delitem__. case_decide as Hin; [reflexivity|].
  symmetry. apply delete_id. destruct (cache !! eid) eqn:E; [|reflexivity].
  exfalso. apply Hin. eauto.
Qed.

Lemma cached_info_delitem (cache : gmap string (Volatile Key)) eid :
  cached_info Key (__delitem__ Key cache eid) eid = None.
Proof.
  rewrite delitem_delete. unfold cached_info. rewrite lookup_delete_eq. reflexivity.
Qed.

Lemma cached_info_store (cache : gmap string (Volatile Key)) eid info :
  cached_info Key (store Key cache eid info) eid = Some info.
Proof.
  rewrite store_insert. unfold cached_info. rewrite lookup_insert_eq. reflexivity.
Qed.

Lemma cached_info_store_ne (cache : gmap string (Volatile Key)) eid eid' info :
  eid' <> eid ->
  cached_info Key (store Key cache eid' info) eid = cached_info Key cache eid.
Proof.
  intros Hne. rewrite store_insert. unfold cached_info.
  rewrite lookup_insert_ne by exact Hne. reflexivity.
Qed.

(** what the subscriber may have done to the cache: nothing, or the
    deletion of the entry looked up *)
Lemma after_subscribers_cases (cache : gmap string (Volatile Key)) eid :
  after_subscribers Key auth env cache eid = cache \/
  after_subscribers Key auth env cache eid = delete eid cache.
Proof.
  unfold after_subscribers.
  destruct (String.eqb (entity_id auth) eid); [left; reflexivity|].
  destruct (fetches_metadata Key env eid); [|left; reflexivity].
  right. apply delitem_delete.
Qed.

Lemma after_subscribers_ne (cache : gmap string (Volatile Key)) eid eid' :
  eid' <> eid ->
  after_subscribers Key auth env cache eid !! eid' = cache !! eid'.
Proof.
  intros Hne. destruct (after_subscribers_cases cache eid) as [-> | ->]; [reflexivity|].
  apply lookup_delete_ne. congruence.
Qed.

(** the entry stored at the end is the same whether or not the subscriber
    deleted the former one *)
Lemma store_after_subscribers (cache : gmap string (Volatile Key)) eid info :
  store Key (after_subscribers Key auth env cache eid) eid info
  = <[eid := slot Key info]> cache.
Proof.
  rewrite store_insert.
  destruct (after_subscribers_cases cache eid) as [-> | ->]; [reflexivity|].
  apply insert_delete_eq.
Qed.

Lemma recompute_spec (cache : gmap string (Volatile Key)) eid :
  recompute Key auth env cache eid =
  match determine_keys Key auth env eid with
  | (Ok info, tr) => (Ok (snd info), <[eid := slot Key info]> cache, tr)
  | (Raise e, tr) => (Raise e, after_subscribers Key auth env cache eid, tr)
  end.
Proof.
  unfold recompute.
  destruct (determine_keys Key auth env eid) as [[info|e] tr]; [|reflexivity].
  rewrite store_after_subscribers. reflexivity.
Qed.

Lemma after_subscribers_delete (cache : gmap string (Volatile Key)) eid :
  after_subscribers Key auth env (delete eid cache) eid = delete eid cache.
Proof.
  destruct (after_subscribers_cases (delete eid cache) eid) as [-> | ->]; [reflexivity|].
  apply delete_id. apply lookup_delete_eq.
Qed.

(** the traces of the loops only grow *)
Lemma load_certs_trace certs : forall seen keys tr,
  exists more, snd (load_certs Key env certs seen keys tr) = tr ++ more.
Proof.
  induction certs as [|c certs IH]; intros seen keys tr; simpl.
  - exists []. rewrite app_nil_r. reflexivity.
  - case_decide; [apply IH|].
    destruct (key_loadMemory Key env c "KeyDataFormatCertDer").
    + destruct (IH ({[c]} ∪ seen) (keys ++ [a])
                   (tr ++ [EvKeyLoadMemory c "KeyDataFormatCertDer"])) as [more ->].
      eexists. rewrite <- app_assoc. reflexivity.
    + simpl. eexists. reflexivity.
Qed.

Lemma load_roles_trace eid roles : forall seen keys tr,
  exists more, snd (load_roles Key env eid roles seen keys tr) = tr ++ more.
Proof.
  induction roles as [|r roles IH]; intros seen keys tr; simpl.
  - exists []. rewrite app_nil_r. reflexivity.
  - destruct (load_certs_trace (get_role_certificates Key env eid r "signing") seen keys tr)
      as [more Hmore].
    destruct (load_certs Key env _ seen keys tr) as [[[seen' keys']|e] tr']; simpl in *; subst.
    + destruct (IH seen' keys' (tr ++ more)) as [more' ->].
      eexists. rewrite <- app_assoc. reflexivity.
    + eexists. reflexivity.
Qed.

(** determining keys that succeeds has called a collaborator *)
Lemma determine_keys_calls eid info tr :
  determine_keys Key auth env eid = (Ok info, tr) -> tr <> [].
Proof.
  unfold determine_keys.
  destruct (String.eqb (entity_id auth) eid).
  - unfold own_keys.
    destruct (password_argument Key auth env); [|discriminate].
    intros [= _ <-]. discriminate.
  - unfold foreign_keys.
    destruct (get_recent_metadata Key env eid); [|discriminate].
    destruct (load_roles_trace eid (map fst (role2element Key env)) ∅ []
                [EvGetRecentMetadata eid]) as [more Hmore].
    destruct (load_roles Key env eid _ ∅ [] _) as [[keys|e] tr']; [|discriminate].
    simpl in Hmore. subst tr'. intros [= _ <-]. discriminate.
Qed.

Lemma recompute_calls (cache : gmap string (Volatile Key)) eid keys cache' tr :
  recompute Key auth env cache eid = (Ok keys, cache', tr) -> tr <> [].
Proof.
  unfold recompute.
  destruct (determine_keys Key auth env eid) as [[info|e] tr'] eqn:Hdet; [|discriminate].
  intros [= _ _ <-]. exact (determine_keys_calls eid info tr' Hdet).
Qed.

(** a lookup that finds no entry determines the keys *)
Lemma getitem_absent (cache : gmap string (Volatile Key)) now eid :
  cache !! eid = None ->
  __getitem__ Key auth env cache now eid =
  match determine_keys Key auth env eid with
  | (Ok info, tr) => (Ok (snd info), <[eid := slot Key info]> cache, tr)
  | (Raise e, tr) => (Raise e, cache, tr)
  end.
Proof.
  intros Hnone. unfold __getitem__, cached_info. rewrite Hnone, recompute_spec.
  destruct (determine_keys Key auth env eid) as [[info|e] tr]; [reflexivity|].
  destruct (after_subscribers_cases cache eid) as [-> | ->]; [reflexivity|].
  rewrite (delete_id _ _ Hnone). reflexivity.
Qed.

(** a lookup that finds an entry that is no longer valid determines the
    keys *)
Lemma getitem_expired (cache : gmap string (Volatile Key)) now eid info0 :
  cached_info Key cache eid = Some info0 -> valid_at Key now info0 = false ->
  __getitem__ Key auth env cache now eid =
  match determine_keys Key auth env eid with
  | (Ok info, tr) => (Ok (snd info), <[eid := slot Key info]> cache, tr)
  | (Raise e, tr) => (Raise e, after_subscribers Key auth env cache eid, tr)
  end.
Proof.
  intros Hinfo Hexpired. unfold __getitem__. rewrite Hinfo, Hexpired.
  apply recompute_spec.
Qed.

Lemma valid_at_spec now (info : option Z * list Key) :
  valid_at Key now info = true <-> valid_until (fst info) now.
Proof.
  unfold valid_at, valid_until. destruct (fst info) as [t|].
  - rewrite Z.leb_le. split.
    + intros Hle. right. exists t. split; [reflexivity | exact Hle].
    + intros [Hnone|[t' [[= <-] Hle]]]; [discriminate | exact Hle].
  - split; [intros _; left; reflexivity | reflexivity].
Qed.

End WithKeys.

(** C2: [__getitem__] answers from the cache -- returns keys without
    calling a collaborator -- only when the entry of the entity id is valid
    at the current time, that is when its [validUntil] is [None] or not
    before the current time, and then it returns the cached keys.  With an
    entry that is no longer valid the keys are determined anew: the result
    and the calls are those of [determine_keys], which does not see the
    cache, the new entry replaces the old one, and when the determination
    fails the old entry is left or, if a subscriber deleted it, gone.
    After [__delitem__] (which removes the entry whatever it holds) the
    next [__getitem__] determines the keys anew in the same way, at
    whatever time and whatever the slot held before. *)
Theorem cached_keys_only_while_valid (Key : Type) (auth : authority_config)
    (env : collaborators Key) (cache : gmap string (Volatile Key)) (now : Z)
    (eid : string) :
  (forall keys cache',
     __getitem__ Key auth env cache now eid = (Ok keys, cache', []) ->
     exists vu, cached_info Key cache eid = Some (vu, keys) /\
                valid_until vu now /\ cache' = cache) /\
  (forall vu keys,
     cached_info Key cache eid = Some (vu, keys) -> valid_until vu now ->
     __getitem__ Key auth env cache now eid = (Ok keys, cache, [])) /\
  (forall vu keys,
     cached_info Key cache eid = Some (vu, keys) -> ~ valid_until vu now ->
     __getitem__ Key auth env cache now eid =
       match determine_keys Key auth env eid with
       | (Ok info, tr) => (Ok (snd info), <[eid := slot Key info]> cache, tr)
       | (Raise e, tr) => (Raise e, after_subscribers Key auth env cache eid, tr)
       end /\
     (after_subscribers Key auth env cache eid = cache \/
      after_subscribers Key auth env cache eid = delete eid cache)) /\
  cached_info Key (__delitem__ Key cache eid) eid = None /\
  __getitem__ Key auth env (__delitem__ Key cache eid) now eid =
    match determine_keys Key auth env eid with
    | (Ok info, tr) => (Ok (snd info), <[eid := slot Key info]> (delete eid cache), tr)
    | (Raise e, tr) => (Raise e, delete eid cache, tr)
    end /\
  (forall keys cache' tr,
     __getitem__ Key auth env (__delitem__ Key cache eid) now eid = (Ok keys, cache', tr) ->
     tr <> []) /\
  (forall (cache2 : gmap string (Volatile Key)) (now2 : Z),
     fst (fst (__getitem__ Key auth env (__delitem__ Key cache eid) now eid))
     = fst (fst (__getitem__ Key auth env (__delitem__ Key cache2 eid) now2 eid))).
Proof.
  assert (Hafter : forall (c : gmap string (Volatile Key)) t,
            __getitem__ Key auth env (__delitem__ Key c eid) t eid =
            match determine_keys Key auth env eid with
            | (Ok info, tr) => (Ok (snd info), <[eid := slot Key info]> (delete eid c), tr)
            | (Raise e, tr) => (Raise e, delete eid c, tr)
            end).
  { intros c t. unfold __getitem__. rewrite cached_info_delitem, recompute_spec.
    rewrite delitem_delete, after_subscribers_delete. reflexivity. }
  split; [|split; [|split; [|split; [|split; [|split]]]]].
  - intros keys cache' Hget. unfold __getitem__ in Hget.
    destruct (cached_info Key cache eid) as [[vu ks]|] eqn:Hinfo.
    + destruct (valid_at Key now (vu, ks)) eqn:Hvalid.
      * injection Hget as <- <-. exists vu. split; [reflexivity|].
        split; [|reflexivity].
        apply (valid_at_spec Key now (vu, ks)). exact Hvalid.
      * exfalso. exact (recompute_calls Key auth env cache eid keys cache' [] Hget eq_refl).
    + exfalso. exact (recompute_calls Key auth env cache eid keys cache' [] Hget eq_refl).
  - intros vu keys Hinfo Hvalid. unfold __getitem__. rewrite Hinfo.
    apply (valid_at_spec Key now (vu, keys)) in Hvalid. rewrite Hvalid. reflexivity.
  - intros vu keys Hinfo Hinvalid. split; [|apply after_subscribers_cases].
    unfold __getitem__. rewrite Hinfo.
    destruct (valid_at Key now (vu, keys)) eqn:Hvalid; [|apply recompute_spec].
    exfalso. apply Hinvalid. apply (valid_at_spec Key now (vu, keys)). exact Hvalid.
  - apply cached_info_delitem.
  - apply Hafter.
  - intros keys cache' tr. rewrite Hafter.
    destruct (determine_keys Key auth env eid) as [[info|e] tr'] eqn:Hdet; [|discriminate].
    intros [= _ _ <-]. exact (determine_keys_calls Key auth env eid info tr' Hdet).
  - intros cache2 now2. rewrite !Hafter.
    destruct (determine_keys Key auth env eid) as [[info|e] tr]; reflexivity.
Qed.

Section OwnKey.

Variable Key : Type.
Variable auth : authority_config.
Variable env : collaborators Key.

(** an entry without end of validity is valid at any time *)
Lemma unexpiring_hit (cache : gmap string (Volatile Key)) now eid ks :
  cached_info Key cache eid = Some (None, ks) ->
  __getitem__ Key auth env cache now eid = (Ok ks, cache, []).
Proof. intros Hinfo. unfold __getitem__. rewrite Hinfo. reflexivity. Qed.

(** a lookup, of whatever entity id and at whatever time, leaves an entry
    without end of validity as it is *)
Lemma getitem_keeps_unexpiring (cache : gmap string (Volatile Key)) now eid' eid ks :
  cached_info Key cache eid = Some (None, ks) ->
  cached_info Key (snd (fst (__getitem__ Key auth env cache now eid'))) eid
  = Some (None, ks).
Proof.
  intros Hinfo. destruct (decide (eid' = eid)) as [->|Hne].
  - rewrite (unexpiring_hit cache now eid ks Hinfo). exact Hinfo.
  - unfold __getitem__.
    assert (Hrec : cached_info Key (snd (fst (recompute Key auth env cache eid'))) eid
                   = Some (None, ks)).
    { rewrite recompute_spec. unfold cached_info in *.
      destruct (determine_keys Key auth env eid') as [[info|e] tr]; simpl.
      - rewrite lookup_insert_ne by exact Hne. exact Hinfo.
      - rewrite after_subscribers_ne by congruence. exact Hinfo. }
    destruct (cached_info Key cache eid') as [info'|]; [|exact Hrec].
    destruct (valid_at Key now info'); [exact Hinfo | exact Hrec].
Qed.

Lemma lookups_keep_unexpiring calls : forall (cache : gmap string (Volatile Key)) eid ks,
  cached_info Key cache eid = Some (None, ks) ->
  cached_info Key (lookups Key auth env cache calls) eid = Some (None, ks).
Proof.
  induction calls as [|[now eid'] calls IH]; intros cache eid ks Hinfo; simpl.
  - exact Hinfo.
  - apply IH. apply getitem_keeps_unexpiring. exact Hinfo.
Qed.

Lemma password_not_configured :
  password_configured auth = false -> password_argument Key auth env = Ok "fail".
Proof.
  unfold password_configured, password_argument.
  destruct (private_key_password auth) as [p|]; [|reflexivity].
  intros ->. reflexivity.
Qed.

Lemma determine_own_keys :
  determine_keys Key auth env (entity_id auth) = own_keys Key auth env.
Proof. unfold determine_keys. rewrite String.eqb_refl. reflexivity. Qed.

Lemma getitem_miss (cache : gmap string (Volatile Key)) now eid :
  is_miss Key cache now eid ->
  __getitem__ Key auth env cache now eid = recompute Key auth env cache eid.
Proof.
  unfold is_miss, __getitem__. intros Hmiss.
  destruct (cached_info Key cache eid) as [info|]; [|reflexivity].
  rewrite (Hmiss info eq_refl). reflexivity.
Qed.

End OwnKey.

(** C4: a lookup of the authority's own entity id that misses the cache
    loads the private key from the configured key file and caches it, as
    the only key, with [validUntil = None]: from then on every lookup of
    the own id, at any time and after any other lookups, is answered from
    the cache with that key and without a call, until [__delitem__] removes
    the entry; and when no private-key password is configured the password
    handed to the key loader is the sentinel [b"fail"]. *)
Theorem own_key_never_expires (Key : Type) (auth : authority_config)
    (env : collaborators Key) (cache : gmap string (Volatile Key)) (now : Z) :
  let eid := entity_id auth in
  let fn := Path._make_absolute (clienthome auth) (private_key auth) in
  is_miss Key cache now eid ->
  (forall pw k,
     password_argument Key auth env = Ok pw ->
     key_load Key env fn "KeyDataFormatPem" pw = Ok k ->
     __getitem__ Key auth env cache now eid =
       (Ok [k], <[eid := slot Key (None, [k])]> cache, [EvKeyLoad fn "KeyDataFormatPem" pw]) /\
     (forall calls now',
        cached_info Key (lookups Key auth env (<[eid := slot Key (None, [k])]> cache) calls) eid
          = Some (None, [k]) /\
        __getitem__ Key auth env
          (lookups Key auth env (<[eid := slot Key (None, [k])]> cache) calls) now' eid
          = (Ok [k], lookups Key auth env (<[eid := slot Key (None, [k])]> cache) calls, [])) /\
     cached_info Key (__delitem__ Key (<[eid := slot Key (None, [k])]> cache) eid) eid = None) /\
  (password_configured auth = false ->
     password_argument Key auth env = Ok "fail" /\
     snd (__getitem__ Key auth env cache now eid) = [EvKeyLoad fn "KeyDataFormatPem" "fail"]).
Proof.
  intros eid fn Hmiss. split.
  - intros pw k Hpw Hload.
    assert (Hslot : cached_info Key (<[eid := slot Key (None, [k])]> cache) eid
                    = Some (None, [k])).
    { unfold cached_info. rewrite lookup_insert_eq. reflexivity. }
    split; [|split].
    + rewrite (getitem_miss Key auth env cache now eid Hmiss), recompute_spec.
      subst eid. rewrite determine_own_keys.
      unfold own_keys. rewrite Hpw. fold fn. rewrite Hload. reflexivity.
    + intros calls now'.
      pose proof (lookups_keep_unexpiring Key auth env calls _ eid [k] Hslot) as Hkept.
      split; [exact Hkept|].
      apply unexpiring_hit. exact Hkept.
    + apply cached_info_delitem.
  - intros Hnopw.
    pose proof (password_not_configured Key auth env Hnopw) as Hpw.
    split; [exact Hpw|].
    rewrite (getitem_miss Key auth env cache now eid Hmiss), recompute_spec.
    subst eid. rewrite determine_own_keys.
    unfold own_keys. rewrite Hpw. fold fn.
    destruct (key_load Key env fn "KeyDataFormatPem" "fail"); reflexivity.
Qed.

Lemma own_key_never_expires_witness :
  Keys.__getitem__ string Examples.idp_config Examples.keys_env Examples.sp_cache 50
    "https://idp.example.org"
  = (Ok ["key /var/zope/etc/key.pem fail"],
     <["https://idp.example.org" :=
         Keys.slot string (None, ["key /var/zope/etc/key.pem fail"])]> Examples.sp_cache,
     [EvKeyLoad "/var/zope/etc/key.pem" "KeyDataFormatPem" "fail"]).
Proof.
  assert (Hmiss : is_miss string Examples.sp_cache 50 (entity_id Examples.idp_config)).
  { intros info Hinfo. vm_compute in Hinfo. discriminate Hinfo. }
  destruct (own_key_never_expires string Examples.idp_config Examples.keys_env
              Examples.sp_cache 50 Hmiss) as [Hload _].
  destruct (Hload "fail" "key /var/zope/etc/key.pem fail" eq_refl eq_refl) as [Hget _].
  exact Hget.
Defined.

Section ForeignKeys.

Variable Key : Type.
Variable auth : authority_config.
Variable env : collaborators Key.

Lemma first_occurrences_elem_of (l : list string) (x : string) :
  x ∈ first_occurrences l <-> x ∈ l.
Proof.
  induction l as [|y l IH]; simpl; [reflexivity|].
  rewrite !elem_of_cons, list_elem_of_filter, IH.
  destruct (decide (x = y)) as [->|Hne]; tauto.
Qed.

Lemma first_occurrences_NoDup (l : list string) : NoDup (first_occurrences l).
Proof.
  induction l as [|y l IH]; simpl; [constructor|].
  apply NoDup_cons. split.
  - rewrite list_elem_of_filter. intros [Hne _]. apply Hne. reflexivity.
  - apply NoDup_filter. exact IH.
Qed.

(** the distinct elements stay in the order of the list *)
Lemma first_occurrences_sublist (l : list string) : sublist (first_occurrences l) l.
Proof.
  induction l as [|y l IH]; simpl; [constructor|].
  apply sublist_skip. transitivity (first_occurrences l); [|exact IH].
  apply sublist_filter.
Qed.

Lemma filter_all (P : string -> Prop) `{forall x, Decision (P x)} (l : list string) :
  (forall x, P x) -> filter P l = l.
Proof.
  intros HP. induction l as [|y l IH]; [reflexivity|].
  rewrite filter_cons_True by apply HP. rewrite IH. reflexivity.
Qed.

(** the certificates of a list that are loaded when [seen] is the set of
    those met before: its first occurrences outside [seen] *)
Lemma load_certs_spec certs : forall (seen : gset string) keys tr,
  fst (load_certs Key env certs seen keys tr) =
    match load_all Key env (filter (fun c => c ∉ seen) (first_occurrences certs)) with
    | Ok ks => Ok (seen ∪ list_to_set certs, keys ++ ks)
    | Raise e => Raise e
    end /\
  (forall ks,
     load_all Key env (filter (fun c => c ∉ seen) (first_occurrences certs)) = Ok ks ->
     snd (load_certs Key env certs seen keys tr) =
       tr ++ map (fun c => EvKeyLoadMemory c "KeyDataFormatCertDer")
                 (filter (fun c => c ∉ seen) (first_occurrences certs))).
Proof.
  induction certs as [|c certs IH]; intros seen keys tr.
  - simpl. rewrite union_empty_r_L, !app_nil_r. split; [reflexivity|].
    intros ks _. reflexivity.
  - cbn [load_certs first_occurrences]. case_decide as Hseen.
    + rewrite filter_cons_False by (intros Hn; exact (Hn Hseen)).
      assert (Hsame : filter (fun c0 => c0 ∉ seen)
                        (filter (fun y => y <> c) (first_occurrences certs))
                      = filter (fun c0 => c0 ∉ seen) (first_occurrences certs)).
      { rewrite list_filter_filter. apply list_filter_iff.
        intros x. split; [tauto|]. intros Hx. split; [exact Hx|].
        intros ->. exact (Hx Hseen). }
      rewrite Hsame.
      assert (Hset : seen ∪ list_to_set (c :: certs) = seen ∪ list_to_set certs).
      { apply set_eq. intros x.
        rewrite !elem_of_union, !elem_of_list_to_set, elem_of_cons.
        split; [intros [Hx|[->|Hx]]; tauto | tauto]. }
      rewrite Hset. apply IH.
    + rewrite filter_cons_True by exact Hseen.
      assert (Hsame : filter (fun c0 => c0 ∉ seen)
                        (filter (fun y => y <> c) (first_occurrences certs))
                      = filter (fun c0 => c0 ∉ {[c]} ∪ seen) (first_occurrences certs)).
      { rewrite list_filter_filter. apply list_filter_iff.
        intros x. rewrite not_elem_of_union, not_elem_of_singleton. tauto. }
      rewrite Hsame. cbn [load_all rbind].
      destruct (key_loadMemory Key env c "KeyDataFormatCertDer") as [k|e]; cbn [rbind fst snd].
      * destruct (IH ({[c]} ∪ seen) (keys ++ [k])
                     (tr ++ [EvKeyLoadMemory c "KeyDataFormatCertDer"])) as [Hres Htr].
        rewrite Hres.
        assert (Hset : {[c]} ∪ seen ∪ list_to_set certs = seen ∪ list_to_set (c :: certs)).
        { apply set_eq. intros x.
          rewrite !elem_of_union, !elem_of_list_to_set, elem_of_cons, elem_of_singleton.
          tauto. }
        split.
        -- destruct (load_all Key env _) as [ks|e]; cbn [rbind]; [|reflexivity].
           rewrite Hset, <- app_assoc. reflexivity.
        -- intros ks Hks.
           destruct (load_all Key env _) as [ks'|e] eqn:Hall; cbn [rbind] in Hks;
             [|discriminate].
           rewrite (Htr ks' eq_refl), <- app_assoc. reflexivity.
      * split; [reflexivity|]. intros ks Hks. discriminate.
Qed.

Lemma load_certs_app l1 : forall l2 (seen : gset string) keys tr,
  load_certs Key env (l1 ++ l2) seen keys tr =
  match load_certs Key env l1 seen keys tr with
  | (Ok (seen', keys'), tr') => load_certs Key env l2 seen' keys' tr'
  | (Raise e, tr') => (Raise e, tr')
  end.
Proof.
  induction l1 as [|c l1 IH]; intros l2 seen keys tr; simpl; [reflexivity|].
  case_decide; [apply IH|].
  destruct (key_loadMemory Key env c "KeyDataFormatCertDer"); [apply IH | reflexivity].
Qed.

(** the two nested loops are one loop over the certificates of all roles *)
Lemma load_roles_concat eid roles : forall (seen : gset string) keys tr,
  load_roles Key env eid roles seen keys tr =
  match load_certs Key env
          (concat (map (fun r => get_role_certificates Key env eid r "signing") roles))
          seen keys tr with
  | (Ok (_, keys'), tr') => (Ok keys', tr')
  | (Raise e, tr') => (Raise e, tr')
  end.
Proof.
  induction roles as [|r roles IH]; intros seen keys tr; simpl; [reflexivity|].
  rewrite load_certs_app.
  destruct (load_certs Key env (get_role_certificates Key env eid r "signing") seen keys tr)
    as [[[seen' keys']|e] tr']; [apply IH | reflexivity].
Qed.

Lemma load_roles_spec eid :
  fst (load_roles Key env eid (map fst (role2element Key env)) ∅ [] [EvGetRecentMetadata eid])
    = load_all Key env (first_occurrences (signing_certificates Key env eid)) /\
  (forall ks,
     load_all Key env (first_occurrences (signing_certificates Key env eid)) = Ok ks ->
     snd (load_roles Key env eid (map fst (role2element Key env)) ∅ []
            [EvGetRecentMetadata eid])
     = EvGetRecentMetadata eid ::
       map (fun c => EvKeyLoadMemory c "KeyDataFormatCertDer")
           (first_occurrences (signing_certificates Key env eid))).
Proof.
  rewrite load_roles_concat. fold (signing_certificates Key env eid).
  destruct (load_certs_spec (signing_certificates Key env eid) ∅ [] [EvGetRecentMetadata eid])
    as [Hres Htr].
  rewrite (filter_all (fun c => c ∉ (∅ : gset string))) in Hres, Htr
    by (intros x; apply not_elem_of_empty).
  destruct (load_certs Key env (signing_certificates Key env eid) ∅ []
              [EvGetRecentMetadata eid]) as [[[seen' keys']|e] tr'] eqn:Hrun;
    simpl in *.
  - destruct (load_all Key env _) as [ks|e]; [|discriminate].
    injection Hres as _ ->. split; [reflexivity|].
    intros ks' [= <-]. exact (Htr ks eq_refl).
  - destruct (load_all Key env _) as [ks|e']; [discriminate|].
    injection Hres as ->. split; [reflexivity|]. intros ks' Hks. discriminate.
Qed.

Lemma load_all_length certs : forall ks,
  load_all Key env certs = Ok ks -> length ks = length certs.
Proof.
  induction certs as [|c certs IH]; intros ks; simpl.
  - intros [= <-]. reflexivity.
  - destruct (key_loadMemory Key env c "KeyDataFormatCertDer") as [k|e]; simpl; [|discriminate].
    destruct (load_all Key env certs) as [ks'|e]; simpl; [|discriminate].
    intros [= <-]. simpl. rewrite (IH ks' eq_refl). reflexivity.
Qed.

Lemma signing_certificates_In eid c :
  In c (signing_certificates Key env eid) <->
  exists r, In r (map fst (role2element Key env)) /\
            In c (get_role_certificates Key env eid r "signing").
Proof.
  unfold signing_certificates. rewrite in_concat. split.
  - intros [l [Hl Hc]]. apply in_map_iff in Hl as [r [<- Hr]]. exists r. tauto.
  - intros [r [Hr Hc]]. exists (get_role_certificates Key env eid r "signing").
    split; [|exact Hc]. apply in_map_iff. exists r. tauto.
Qed.

End ForeignKeys.

(** C5: a lookup of a foreign entity id that misses the cache stores the
    validity declared by the fetched metadata as [validUntil], and builds
    its keys by going through every role and loading, of the certificates
    marked for "signing", each distinct one exactly once, in the order in
    which they are first met. *)
Theorem foreign_keys_deduplicated (Key : Type) (auth : authority_config)
    (env : collaborators Key) (cache : gmap string (Volatile Key)) (now : Z)
    (eid : string) (rmd : EntityDescriptor) :
  let certs := first_occurrences (signing_certificates Key env eid) in
  entity_id auth <> eid ->
  is_miss Key cache now eid ->
  get_recent_metadata Key env eid = Ok rmd ->
  NoDup certs /\
  sublist certs (signing_certificates Key env eid) /\
  (forall c, In c certs <->
     exists r, In r (map fst (role2element Key env)) /\
               In c (get_role_certificates Key env eid r "signing")) /\
  fst (fst (__getitem__ Key auth env cache now eid)) = load_all Key env certs /\
  (forall keys,
     load_all Key env certs = Ok keys ->
     length keys = length certs /\
     __getitem__ Key auth env cache now eid =
       (Ok keys, <[eid := slot Key (validUntil rmd, keys)]> cache,
        EvGetRecentMetadata eid ::
        map (fun c => EvKeyLoadMemory c "KeyDataFormatCertDer") certs)).
Proof.
  intros certs Hforeign Hmiss Hmd.
  assert (Hget : __getitem__ Key auth env cache now eid =
                 match foreign_keys Key env eid with
                 | (Ok info, tr) => (Ok (snd info), <[eid := slot Key info]> cache, tr)
                 | (Raise e, tr) =>
                     (Raise e, after_subscribers Key auth env cache eid, tr)
                 end).
  { rewrite (getitem_miss Key auth env cache now eid Hmiss), recompute_spec.
    unfold determine_keys.
    destruct (String.eqb (entity_id auth) eid) eqn:Heq; [|reflexivity].
    apply String.eqb_eq in Heq. contradiction. }
  destruct (load_roles_spec Key env eid) as [Hres Htr]. fold certs in Hres, Htr.
  split; [apply first_occurrences_NoDup|].
  split; [apply first_occurrences_sublist|].
  split.
  { intros c. rewrite <- signing_certificates_In, <- !list_elem_of_In.
    apply first_occurrences_elem_of. }
  split.
  - rewrite Hget. unfold foreign_keys. rewrite Hmd.
    destruct (load_roles Key env eid _ ∅ [] _) as [[ks|e] tr]; simpl in *;
      rewrite <- Hres; reflexivity.
  - intros keys Hkeys. split; [exact (load_all_length Key env certs keys Hkeys)|].
    rewrite Hget. unfold foreign_keys. rewrite Hmd.
    specialize (Htr keys Hkeys). rewrite Hkeys in Hres.
    destruct (load_roles Key env eid _ ∅ [] _) as [[ks|e] tr]; simpl in *;
      [|discriminate].
    injection Hres as ->. subst tr. reflexivity.
Qed.

Lemma foreign_keys_deduplicated_witness :
  Keys.__getitem__ string Examples.idp_config Examples.keys_env ∅ 0
    "https://sp.example.org"
  = (Ok ["cert c1"; "cert c2"; "cert c3"],
     {[ "https://sp.example.org" :=
          Keys.slot string (Some 1000%Z, ["cert c1"; "cert c2"; "cert c3"]) ]},
     [EvGetRecentMetadata "https://sp.example.org";
      EvKeyLoadMemory "c1" "KeyDataFormatCertDer";
      EvKeyLoadMemory "c2" "KeyDataFormatCertDer";
      EvKeyLoadMemory "c3" "KeyDataFormatCertDer"]).
Proof.
  assert (Hforeign : entity_id Examples.idp_config <> "https://sp.example.org").
  { simpl. discriminate. }
  assert (Hmiss : is_miss string ∅ 0 "https://sp.example.org").
  { intros info Hinfo. vm_compute in Hinfo. discriminate Hinfo. }
  destruct (foreign_keys_deduplicated string Examples.idp_config Examples.keys_env ∅ 0
              "https://sp.example.org"
              {| SPSSODescriptors := []; validUntil := Some 1000%Z |}
              Hforeign Hmiss eq_refl) as (_ & _ & _ & _ & Hkeys).
  destruct (Hkeys ["cert c1"; "cert c2"; "cert c3"]) as [_ Hget].
  - vm_compute. reflexivity.
  - exact Hget.
Defined.

Lemma cached_keys_only_while_valid_witness :
  Keys.__getitem__ string Examples.idp_config Examples.keys_env Examples.sp_cache 50
    "https://sp.example.org"
  = (Ok ["old key"], Examples.sp_cache, []) /\
  Keys.__getitem__ string Examples.idp_config Examples.keys_env Examples.sp_cache 101
    "https://sp.example.org"
  = (Ok ["cert c1"; "cert c2"; "cert c3"],
     <["https://sp.example.org" :=
         Keys.slot string (Some 1000%Z, ["cert c1"; "cert c2"; "cert c3"])]>
       Examples.sp_cache,
     [EvGetRecentMetadata "https://sp.example.org";
      EvKeyLoadMemory "c1" "KeyDataFormatCertDer";
      EvKeyLoadMemory "c2" "KeyDataFormatCertDer";
      EvKeyLoadMemory "c3" "KeyDataFormatCertDer"]).
Proof.
  split.
  - destruct (cached_keys_only_while_valid string Examples.idp_config Examples.keys_env
                Examples.sp_cache 50 "https://sp.example.org")
      as (_ & Hhit & _).
    apply (Hhit (Some 100%Z)).
    + reflexivity.
    + right. exists 100%Z. split; [reflexivity | lia].
  - destruct (cached_keys_only_while_valid string Examples.idp_config Examples.keys_env
                Examples.sp_cache 101 "https://sp.example.org")
      as (_ & _ & Hexpired & _).
    destruct (Hexpired (Some 100%Z) ["old key"]) as [Hget _].
    + reflexivity.
    + intros [Hnone | [t [[= <-] Hle]]]; [discriminate | lia].
    + rewrite Hget. reflexivity.
Defined.

(** a lookup that fails after the metadata were fetched leaves no entry *)
Example failed_lookup_drops_entry :
  Keys.__getitem__ string Examples.idp_config MoreExamples.keys_env_unloadable
    Examples.sp_cache 101 "https://sp.example.org"
  = (Raise (ExternalError "cannot load c1"), delete "https://sp.example.org" Examples.sp_cache,
     [EvGetRecentMetadata "https://sp.example.org";
      EvKeyLoadMemory "c1" "KeyDataFormatCertDer"]).
Proof. vm_compute. reflexivity. Qed.

End KeysFacts.

(** ** The role registry *)

Module RegistryFacts.

Import Authority.

Section Dictionaries.

Context {V : Type}.

Lemma contains_set_ne (d : list (string * V)) k k' v :
  k' <> k -> Dict.contains k' (Dict.set d k v) = Dict.contains k' d.
Proof.
  intros Hne. induction d as [|[k0 v0] d IH]; simpl.
  - destruct (String.eqb_spec k k'); [congruence | reflexivity].
  - destruct (String.eqb_spec k0 k) as [->|Hk0]; simpl.
    + destruct (String.eqb_spec k k'); [congruence|].
      reflexivity.
    + rewrite IH. reflexivity.
Qed.

Lemma set_fresh (d : list (string * V)) k v :
  Dict.contains k d = false -> Dict.set d k v = d ++ [(k, v)].
Proof.
  induction d as [|[k0 v0] d IH]; simpl; [reflexivity|].
  destruct (String.eqb_spec k0 k) as [->|Hk0]; simpl; [discriminate|].
  intros Hd. rewrite (IH Hd). reflexivity.
Qed.

Lemma contains_app (d d' : list (string * V)) k :
  Dict.contains k (d ++ d') = Dict.contains k d || Dict.contains k d'.
Proof. unfold Dict.contains. apply existsb_app. Qed.

Lemma get_app_l (d d' : list (string * V)) k v :
  Dict.get k d = Some v -> Dict.get k (d ++ d') = Some v.
Proof.
  induction d as [|[k0 v0] d IH]; simpl; [discriminate|].
  destruct (String.eqb k0 k); [tauto | exact IH].
Qed.

End Dictionaries.

Section WithAuthority.

Variable Key : Type.
Variable cfg : authority_config.
Variable env : collaborators.

Lemma first_conflict_set_ne registry r path l :
  ~ In r l ->
  first_conflict (Dict.set registry r path) l = first_conflict registry l.
Proof.
  unfold first_conflict. induction l as [|r' l IH]; intros Hnotin; simpl; [reflexivity|].
  rewrite contains_set_ne by (intros ->; apply Hnotin; left; reflexivity).
  rewrite IH by (intros Hin; apply Hnotin; right; exact Hin). reflexivity.
Qed.

Lemma free_prefix_set_ne registry r path l :
  ~ In r l ->
  free_prefix (Dict.set registry r path) l = free_prefix registry l.
Proof.
  induction l as [|r' l IH]; intros Hnotin; simpl; [reflexivity|].
  rewrite contains_set_ne by (intros ->; apply Hnotin; left; reflexivity).
  rewrite IH by (intros Hin; apply Hnotin; right; exact Hin). reflexivity.
Qed.

(** the loop of the registration: it stops at the first implemented role
    the registry already maps, having appended the implemented roles met
    before it *)
Lemma register_loop_spec impl path names : forall registry,
  List.NoDup names ->
  Forall (fun r => is_ok (role_interface r) = true) names ->
  register_loop impl path names registry =
  (match first_conflict registry (List.filter (implements impl) names) with
   | None => Ok tt
   | Some r => Raise (already_registered r)
   end,
   registry ++ map (fun r => (r, path))
                   (free_prefix registry (List.filter (implements impl) names))).
Proof.
  induction names as [|r names IH]; intros registry Hnodup Hknown.
  - simpl. rewrite app_nil_r. reflexivity.
  - inversion Hnodup as [|? ? Hnotin Hnodup']; subst.
    inversion Hknown as [|? ? Hr Hknown']; subst.
    cbn [register_loop List.filter].
    destruct (role_interface r) as [i|e] eqn:Hi; [|discriminate].
    assert (Himpl : implements impl r = providedBy i impl).
    { unfold implements. rewrite Hi. reflexivity. }
    rewrite Himpl. destruct (providedBy i impl).
    + unfold first_conflict. cbn [List.find free_prefix].
      destruct (Dict.contains r registry) eqn:Hin.
      * cbn [map]. rewrite app_nil_r. reflexivity.
      * rewrite (IH _ Hnodup' Hknown').
        assert (Hnotin' : ~ In r (List.filter (implements impl) names)).
        { intros Hf. apply filter_In in Hf as [Hf _]. exact (Hnotin Hf). }
        rewrite first_conflict_set_ne, free_prefix_set_ne by exact Hnotin'.
        rewrite (set_fresh registry r path Hin), <- app_assoc. reflexivity.
    + apply IH; assumption.
Qed.

Lemma first_conflict_Some registry l r :
  In r l -> Dict.contains r registry = true ->
  exists r', first_conflict registry l = Some r'.
Proof.
  intros Hin Hc. unfold first_conflict.
  destruct (List.find _ l) as [r'|] eqn:Hfind; [eauto|].
  pose proof (find_none _ _ Hfind r Hin) as Hnone. simpl in Hnone. congruence.
Qed.

Lemma first_conflict_None registry l :
  (forall r, In r l -> Dict.contains r registry = false) ->
  first_conflict registry l = None /\ free_prefix registry l = l.
Proof.
  induction l as [|r l IH]; intros Hfree; [split; reflexivity|].
  unfold first_conflict in *. simpl.
  rewrite (Hfree r) by (left; reflexivity).
  destruct IH as [IH1 IH2]; [intros r' Hr'; apply Hfree; right; exact Hr'|].
  rewrite IH1, IH2. split; reflexivity.
Qed.

Lemma contains_registered (registry : list (string * list string)) path l r :
  In r l -> Dict.contains r (registry ++ map (fun r => (r, path)) l) = true.
Proof.
  intros Hin. rewrite contains_app. apply orb_true_iff. right.
  unfold Dict.contains. apply existsb_exists. exists (r, path). split.
  - apply in_map_iff. exists r. split; [reflexivity | exact Hin].
  - simpl. apply String.eqb_refl.
Qed.

End WithAuthority.

(** *** Unregistration *)

Section Unregistration.

Variable path : list string.

Lemma filter_twice {A : Type} (p q : A -> bool) (l : list A) :
  List.filter p (List.filter q l) = List.filter (fun x => p x && q x) l.
Proof.
  induction l as [|x l IH]; simpl; [reflexivity|].
  destruct (q x); simpl.
  - rewrite andb_true_r. destruct (p x); rewrite IH; reflexivity.
  - rewrite andb_false_r. exact IH.
Qed.

Lemma unregister_fold l : forall acc : list (string * list string),
  fold_left (fun rs item => if decide (snd item = path) then Dict.del rs (fst item) else rs)
            l acc
  = List.filter
      (fun kv => negb (existsb (fun item => bool_decide (snd item = path)
                                            && String.eqb (fst kv) (fst item)) l))
      acc.
Proof.
  induction l as [|item l IH]; intros acc; simpl.
  - induction acc as [|kv acc IHacc]; simpl; [reflexivity|]. rewrite <- IHacc. reflexivity.
  - rewrite IH. destruct (decide (snd item = path)) as [Hp|Hp].
    + unfold Dict.del. rewrite filter_twice. apply filter_ext. intros kv.
      rewrite (bool_decide_eq_true_2 _ Hp). simpl.
      rewrite negb_orb. apply andb_comm.
    + apply filter_ext. intros kv.
      rewrite (bool_decide_eq_false_2 _ Hp). reflexivity.
Qed.

Lemma unique_key (l : list (string * list string)) k v v' :
  List.NoDup (map fst l) -> In (k, v) l -> In (k, v') l -> v = v'.
Proof.
  induction l as [|[k0 v0] l IH]; simpl; intros Hnodup Hin Hin'; [destruct Hin|].
  inversion Hnodup as [|? ? Hnotin Hnodup']; subst.
  destruct Hin as [Heq|Hin], Hin' as [Heq'|Hin'].
  - congruence.
  - injection Heq as -> ->. exfalso. apply Hnotin.
    apply in_map_iff. exists (k, v'). split; [reflexivity | exact Hin'].
  - injection Heq' as -> ->. exfalso. apply Hnotin.
    apply in_map_iff. exists (k, v). split; [reflexivity | exact Hin].
  - exact (IH Hnodup' Hin Hin').
Qed.

(** unregistering removes the mappings to the path, and only them *)
Lemma unregister_loop_spec (registry : list (string * list string)) :
  List.NoDup (map fst registry) ->
  unregister_loop path registry =
  List.filter (fun item => negb (bool_decide (snd item = path))) registry.
Proof.
  intros Hnodup. unfold unregister_loop. rewrite unregister_fold.
  apply filter_ext_in. intros [k v] Hin. f_equal. simpl.
  destruct (bool_decide (v = path)) eqn:Hv.
  - apply existsb_exists. exists (k, v). split; [exact Hin|]. simpl.
    rewrite Hv, String.eqb_refl. reflexivity.
  - destruct (existsb _ registry) eqn:Hex; [|reflexivity].
    apply existsb_exists in Hex as [[k' v'] [Hin' Hboth]]. simpl in Hboth.
    apply andb_true_iff in Hboth as [Hp Hk].
    apply bool_decide_eq_true_1 in Hp. apply String.eqb_eq in Hk. subst k' v'.
    rewrite (unique_key registry k v path Hnodup Hin Hin') in Hv.
    rewrite bool_decide_eq_true_2 in Hv by reflexivity. discriminate.
Qed.

End Unregistration.

(** [unregister_role_implementor]: no role maps to the implementor's path
    any more, every other mapping is kept, and the cached metadata and
    keys are invalidated *)
Lemma unregister_role_implementor_spec (Key : Type) (cfg : authority_config)
    (st : state Key) (impl : implementor) :
  List.NoDup (map fst (roles Key st)) ->
  unregister_role_implementor Key cfg st impl =
  _update Key cfg
    (set_roles Key st
       (List.filter (fun item => negb (bool_decide (snd item = getPhysicalPath impl)))
                    (roles Key st))).
Proof.
  intros Hnodup. unfold unregister_role_implementor.
  rewrite (unregister_loop_spec _ _ Hnodup). reflexivity.
Qed.

Lemma set_roles_same (Key : Type) (st : state Key) : set_roles Key st (roles Key st) = st.
Proof. destruct st. reflexivity. Qed.

(** C7 (as amended): registering a role implementor fails with the
    "already registered" error when one of the roles it implements already
    maps to a path, and otherwise appends one (role, path) mapping per
    implemented role and invalidates the cached metadata and keys; in
    particular registering a role twice fails.  On failure nothing is
    invalidated and every mapping present before the call is kept; the
    mappings added are those of the implemented roles that precede the
    conflicting one in the role table, so the registry is unchanged when
    the conflicting role is the first one implemented. *)
Theorem register_role_implementor_spec (Key : Type) (cfg : authority_config)
    (env : collaborators) (st : state Key) (impl : implementor) :
  let path := getPhysicalPath impl in
  let mine := implemented_roles env impl in
  List.NoDup (map fst (role2element env)) ->
  role_table_known env ->
  (forall r, In r mine -> Dict.contains r (roles Key st) = true ->
     exists r', first_conflict (roles Key st) mine = Some r' /\
       register_role_implementor Key cfg env st impl =
         (Raise (already_registered r'),
          set_roles Key st
            (roles Key st ++ map (fun r => (r, path)) (free_prefix (roles Key st) mine)))) /\
  ((forall r, In r mine -> Dict.contains r (roles Key st) = false) ->
     register_role_implementor Key cfg env st impl =
       (Ok tt,
        _update Key cfg
          (set_roles Key st (roles Key st ++ map (fun r => (r, path)) mine)))) /\
  (forall e st',
     register_role_implementor Key cfg env st impl = (Raise e, st') ->
     calls Key st' = calls Key st /\
     eid2volatile_info Key st' = eid2volatile_info Key st /\
     (forall k v, Dict.get k (roles Key st) = Some v -> Dict.get k (roles Key st') = Some v)) /\
  (forall r rest,
     mine = r :: rest -> Dict.contains r (roles Key st) = true ->
     register_role_implementor Key cfg env st impl = (Raise (already_registered r), st)) /\
  (forall st' impl2 r,
     register_role_implementor Key cfg env st impl = (Ok tt, st') ->
     In r mine -> In r (implemented_roles env impl2) ->
     exists r', fst (register_role_implementor Key cfg env st' impl2)
                = Raise (already_registered r')).
Proof.
  intros path mine Hnodup Hknown.
  assert (Hloop : forall (s : state Key) (i : implementor),
            register_loop i (getPhysicalPath i) (map fst (role2element env)) (roles Key s) =
            (match first_conflict (roles Key s) (implemented_roles env i) with
             | None => Ok tt
             | Some r => Raise (already_registered r)
             end,
             roles Key s ++ map (fun r => (r, getPhysicalPath i))
                                (free_prefix (roles Key s) (implemented_roles env i)))).
  { intros s i. apply register_loop_spec; assumption. }
  split; [|split; [|split; [|split]]].
  - intros r Hr Hc.
    destruct (first_conflict_Some (roles Key st) mine r Hr Hc) as [r' Hr'].
    exists r'. split; [exact Hr'|].
    unfold register_role_implementor. rewrite Hloop. fold mine. rewrite Hr'. reflexivity.
  - intros Hfree.
    destruct (first_conflict_None (roles Key st) mine Hfree) as [Hnone Hall].
    unfold register_role_implementor. rewrite Hloop. fold mine.
    rewrite Hnone, Hall. reflexivity.
  - intros e st'. unfold register_role_implementor. rewrite Hloop.
    destruct (first_conflict (roles Key st) (implemented_roles env impl)); [|discriminate].
    intros [= _ <-]. simpl. split; [reflexivity|]. split; [reflexivity|].
    intros k v Hk. apply get_app_l. exact Hk.
  - intros r rest Hmine Hc.
    unfold register_role_implementor. rewrite Hloop. fold mine. rewrite Hmine.
    unfold first_conflict. simpl. rewrite Hc. simpl.
    rewrite app_nil_r, set_roles_same. reflexivity.
  - intros st' impl2 r. unfold register_role_implementor at 1. rewrite Hloop. fold mine.
    destruct (first_conflict (roles Key st) mine) eqn:Hconf; [discriminate|].
    intros [= <-] Hr Hr2.
    assert (Hfull : free_prefix (roles Key st) mine = mine).
    { clear -Hconf. unfold first_conflict in Hconf.
      induction mine as [|x l IH]; simpl in *; [reflexivity|].
      destruct (Dict.contains x (roles Key st)); [discriminate|].
      rewrite (IH Hconf). reflexivity. }
    fold path. rewrite Hfull.
    assert (Hc : Dict.contains r
                   (roles Key (_update Key cfg
                      (set_roles Key st (roles Key st ++ map (fun r => (r, path)) mine))))
                 = true).
    { simpl. apply contains_registered. exact Hr. }
    destruct (first_conflict_Some _ _ r Hr2 Hc) as [r' Hr'].
    exists r'. unfold register_role_implementor. rewrite Hloop, Hr'. reflexivity.
Qed.

Lemma five_roles_NoDup : List.NoDup (map fst Examples.five_roles).
Proof.
  simpl. repeat (constructor; [simpl; intuition discriminate|]). constructor.
Qed.

Lemma five_roles_known : role_table_known Examples.authority_env.
Proof. unfold role_table_known. simpl. repeat constructor. Qed.

Lemma register_role_implementor_spec_witness :
  register_role_implementor string Examples.idp_config Examples.authority_env
    Examples.ap_registered Examples.attribute_provider
  = (Raise (already_registered "ap"), Examples.ap_registered).
Proof.
  destruct (register_role_implementor_spec string Examples.idp_config Examples.authority_env
              Examples.ap_registered Examples.attribute_provider
              five_roles_NoDup five_roles_known) as (_ & _ & _ & Hfirst & _).
  apply (Hfirst "ap" []); reflexivity.
Defined.

(** C7 (as stated) fails: an identity provider that also provides
    attributes is registered while the role "ap" is taken; the call fails,
    yet the mapping of "idpsso" has been inserted. *)
Lemma register_failure_changes_registry :
  ~ (forall (st : state string) (impl : implementor) (e : exn),
       fst (register_role_implementor string Examples.idp_config Examples.authority_env
              st impl) = Raise e ->
       roles string (snd (register_role_implementor string Examples.idp_config
                            Examples.authority_env st impl))
       = roles string st).
Proof.
  intros Hunchanged.
  specialize (Hunchanged Examples.ap_registered Examples.idp_with_attributes
                (already_registered "ap") eq_refl).
  vm_compute in Hunchanged. discriminate Hunchanged.
Qed.

Example register_partial_insertion :
  register_role_implementor string Examples.idp_config Examples.authority_env
    Examples.ap_registered Examples.idp_with_attributes
  = (Raise (already_registered "ap"),
     Examples.registry [("ap", Examples.attrs_path); ("idpsso", Examples.idp_path)]).
Proof. vm_compute. reflexivity. Qed.

(** unregistering the implementor frees its roles: the registration that
    failed succeeds afterwards *)
Example unregister_then_register :
  fst (register_role_implementor string Examples.idp_config Examples.authority_env
         (unregister_role_implementor string Examples.idp_config
            Examples.ap_registered Examples.attribute_provider)
         Examples.idp_with_attributes)
  = Ok tt.
Proof. vm_compute. reflexivity. Qed.

End RegistryFacts.
(** ** The export of the own metadata *)

Module ExportFacts.

Import Authority.

Section WithAuthority.

Variable Key : Type.
Variable cfg : authority_config.
Variable env : collaborators.

(** the loop appends the descriptors of the roles other than "ap" and
    counts them *)
Lemma export_loop_spec items : forall rds rno,
  export_loop cfg env items rds rno =
  match role_descriptors cfg env
          (List.filter (fun item => negb (String.eqb (fst item) "ap")) items) with
  | Ok more => Ok (rds ++ more, (rno + length more)%nat)
  | Raise e => Raise e
  end.
Proof.
  induction items as [|[r p] items IH]; intros rds rno; simpl.
  - rewrite app_nil_r, Nat.add_0_r. reflexivity.
  - destruct (String.eqb r "ap"); simpl; [apply IH|].
    destruct (role_descriptor cfg env r p) as [rd|e]; simpl; [|reflexivity].
    rewrite IH.
    destruct (role_descriptors cfg env _) as [more|e]; simpl; [|reflexivity].
    rewrite <- app_assoc, Nat.add_succ_r. reflexivity.
Qed.

Lemma role_descriptors_Forall2 items : forall rds,
  role_descriptors cfg env items = Ok rds <->
  Forall2 (fun item rd => role_descriptor cfg env (fst item) (snd item) = Ok rd) items rds.
Proof.
  induction items as [|[r p] items IH]; intros rds; simpl.
  - split.
    + intros [= <-]. constructor.
    + intros Hall. inversion Hall. reflexivity.
  - split.
    + destruct (role_descriptor cfg env r p) as [rd|e] eqn:Hrd; simpl; [|discriminate].
      destruct (role_descriptors cfg env items) as [more|e] eqn:Hmore; simpl; [|discriminate].
      intros [= <-]. constructor; [exact Hrd|]. apply IH. reflexivity.
    + intros Hall. inversion Hall as [|? rd ? more Hrd Hmore]; subst. simpl in Hrd.
      rewrite Hrd. simpl. apply IH in Hmore. rewrite Hmore. reflexivity.
Qed.

Lemma gen_metadata_has_generator r :
  is_ok (gen_metadata cfg env r) = true -> has_generator r.
Proof.
  unfold gen_metadata, has_generator.
  destruct (String.eqb_spec r "sso"); [tauto|].
  destruct (String.eqb_spec r "idpsso"); [tauto|].
  destruct (String.eqb_spec r "spsso"); [tauto|].
  discriminate.
Qed.

(** a role descriptor is built only for a role with a generator *)
Lemma role_descriptor_has_generator r p :
  is_ok (role_descriptor cfg env r p) = true -> has_generator r.
Proof.
  unfold role_descriptor. intros Hok. apply gen_metadata_has_generator.
  destruct (unrestrictedTraverse env p) as [i|]; cbn [rbind is_ok] in Hok; [|discriminate].
  destruct (Dict.get r (role2element env)) as [el|]; cbn [rbind is_ok] in Hok; [|discriminate].
  destruct (add_key_descriptors cfg env [certificate cfg; future_certificate cfg]
              (metadata.new_descriptor el)) as [rd|];
    cbn [rbind is_ok] in Hok; [|discriminate].
  destruct (has_NameIDFormat env el); [destruct (nameid_supported i)|];
    cbn [rbind is_ok] in Hok; try discriminate;
    (destruct (gen_metadata cfg env r); [reflexivity | discriminate]).
Qed.

Lemma role_descriptors_fail items r p :
  In (r, p) items -> is_ok (role_descriptor cfg env r p) = false ->
  is_ok (role_descriptors cfg env items) = false.
Proof.
  induction items as [|[r' p'] items IH]; intros Hin Hfail; [destruct Hin|].
  simpl. destruct Hin as [[= -> ->]|Hin].
  - destruct (role_descriptor cfg env r p); [discriminate | reflexivity].
  - destruct (role_descriptor cfg env r' p'); simpl; [|reflexivity].
    specialize (IH Hin Hfail).
    destruct (role_descriptors cfg env items); [discriminate | reflexivity].
Qed.

Lemma role_descriptors_app items1 : forall items2,
  role_descriptors cfg env (items1 ++ items2) =
  match role_descriptors cfg env items1 with
  | Ok rds1 =>
      match role_descriptors cfg env items2 with
      | Ok rds2 => Ok (rds1 ++ rds2)
      | Raise e => Raise e
      end
  | Raise e => Raise e
  end.
Proof.
  induction items1 as [|[r p] items1 IH]; intros items2; simpl.
  - destruct (role_descriptors cfg env items2); reflexivity.
  - destruct (role_descriptor cfg env r p); simpl; [|reflexivity].
    rewrite IH. destruct (role_descriptors cfg env items1); simpl; [|reflexivity].
    destruct (role_descriptors cfg env items2); reflexivity.
Qed.

(** the loop body is the preparation of the descriptor followed by the
    generator of the role *)
Lemma role_descriptor_prepared r p :
  role_descriptor cfg env r p =
  match prepare_descriptor cfg env r p with
  | Ok x =>
      match gen_metadata cfg env r with
      | Ok g => Ok (g (fst x) (snd x))
      | Raise e => Raise e
      end
  | Raise e => Raise e
  end.
Proof.
  unfold role_descriptor, prepare_descriptor.
  destruct (unrestrictedTraverse env p) as [i|]; cbn [rbind]; [|reflexivity].
  destruct (Dict.get r (role2element env)) as [el|]; cbn [rbind]; [|reflexivity].
  destruct (add_key_descriptors cfg env [certificate cfg; future_certificate cfg]
              (metadata.new_descriptor el)) as [rd|]; cbn [rbind]; [|reflexivity].
  destruct (has_NameIDFormat env el); [destruct (nameid_supported i)|];
    cbn [rbind fst snd]; reflexivity.
Qed.

Lemma gen_metadata_missing r :
  ~ has_generator r ->
  gen_metadata cfg env r = Raise (AttributeError ("gen_metadata_" +:+ r)).
Proof.
  unfold gen_metadata, has_generator. intros Hnone.
  destruct (String.eqb_spec r "sso"); [tauto|].
  destruct (String.eqb_spec r "idpsso"); [tauto|].
  destruct (String.eqb_spec r "spsso"); [tauto|].
  reflexivity.
Qed.

End WithAuthority.

(** C8 (as amended): exporting the own metadata fails with the "no
    associated roles" error when the role registry is empty, and also when
    no role other than "ap" is registered.  Otherwise, when a role
    descriptor can be built for every registered role other than "ap"
    (which takes a role with a metadata generator -- "idpsso" or "spsso" --
    and collaborators that succeed), it produces the entity descriptor with
    exactly these role descriptors, one per such role, in the order of the
    registry.  With a registered role other than "ap" that has no
    generator the export always fails; it fails with the [AttributeError]
    naming the missing generator when this role is the first whose
    descriptor cannot be built and the steps before the generator --
    traversal, certificate files, name id formats -- succeed for it. *)
Theorem export_own_metadata_spec (Key : Type) (cfg : authority_config)
    (env : collaborators) (st : state Key) (now : Z) :
  (roles Key st = [] ->
     _export_own_metadata Key cfg env st now = Raise (ValueError no_roles_message [])) /\
  (exported_roles Key st = [] ->
     _export_own_metadata Key cfg env st now = Raise (ValueError no_roles_message [])) /\
  (forall rds,
     exported_roles Key st <> [] ->
     Forall2 (fun item rd => role_descriptor cfg env (fst item) (snd item) = Ok rd)
             (exported_roles Key st) rds ->
     length rds = length (exported_roles Key st) /\
     _export_own_metadata Key cfg env st now =
       Ok {| metadata.entityID := entity_id cfg;
             metadata.ed_validUntil := (now + metadata_validity cfg)%Z;
             metadata.RoleDescriptors := rds |}) /\
  (forall ed,
     _export_own_metadata Key cfg env st now = Ok ed ->
     exported_roles Key st <> [] /\
     length (metadata.RoleDescriptors ed) = length (exported_roles Key st) /\
     Forall2 (fun item rd => role_descriptor cfg env (fst item) (snd item) = Ok rd)
             (exported_roles Key st) (metadata.RoleDescriptors ed) /\
     (forall r p, In (r, p) (exported_roles Key st) -> has_generator r)) /\
  (forall r p,
     In (r, p) (exported_roles Key st) -> ~ has_generator r ->
     is_ok (_export_own_metadata Key cfg env st now) = false) /\
  (forall items1 r p items2 x,
     exported_roles Key st = items1 ++ (r, p) :: items2 ->
     is_ok (role_descriptors cfg env items1) = true ->
     ~ has_generator r ->
     prepare_descriptor cfg env r p = Ok x ->
     _export_own_metadata Key cfg env st now
     = Raise (AttributeError ("gen_metadata_" +:+ r))).
Proof.
  assert (Hrun : _export_own_metadata Key cfg env st now =
                 match role_descriptors cfg env (exported_roles Key st) with
                 | Ok [] => Raise (ValueError no_roles_message [])
                 | Ok rds =>
                     Ok {| metadata.entityID := entity_id cfg;
                           metadata.ed_validUntil := (now + metadata_validity cfg)%Z;
                           metadata.RoleDescriptors := rds |}
                 | Raise e => Raise e
                 end).
  { unfold _export_own_metadata. rewrite export_loop_spec. fold (exported_roles Key st).
    destruct (role_descriptors cfg env (exported_roles Key st)) as [[|rd rds]|e];
      reflexivity. }
  assert (Hempty : exported_roles Key st = [] ->
                   _export_own_metadata Key cfg env st now
                   = Raise (ValueError no_roles_message [])).
  { intros Hnone. rewrite Hrun, Hnone. reflexivity. }
  split; [|split; [exact Hempty|split; [|split; [|split]]]].
  - intros Hnone. apply Hempty. unfold exported_roles. rewrite Hnone. reflexivity.
  - intros rds Hsome Hall.
    pose proof (Forall2_length _ _ _ Hall) as Hlen.
    split; [symmetry; exact Hlen|].
    apply role_descriptors_Forall2 in Hall. rewrite Hrun, Hall.
    destruct rds as [|rd rds]; [|reflexivity].
    destruct (exported_roles Key st); [contradiction | discriminate].
  - intros ed Hed. rewrite Hrun in Hed.
    destruct (role_descriptors cfg env (exported_roles Key st)) as [[|rd rds]|e] eqn:Hrds;
      try discriminate.
    injection Hed as <-. simpl.
    apply role_descriptors_Forall2 in Hrds.
    pose proof (Forall2_length _ _ _ Hrds) as Hlen.
    split; [intros Hnone; rewrite Hnone in Hlen; discriminate|].
    split; [symmetry; exact Hlen|].
    split; [exact Hrds|].
    intros r p Hin.
    apply (role_descriptor_has_generator cfg env r p).
    clear -Hrds Hin. induction Hrds as [|item rd' items rds' Hitem Hrest IH]; [destruct Hin|].
    destruct Hin as [->|Hin]; [simpl in Hitem; rewrite Hitem; reflexivity|].
    apply IH. exact Hin.
  - intros r p Hin Hnogen. rewrite Hrun.
    assert (Hfail : is_ok (role_descriptor cfg env r p) = false).
    { destruct (is_ok (role_descriptor cfg env r p)) eqn:Hok; [|reflexivity].
      exfalso. apply Hnogen. exact (role_descriptor_has_generator cfg env r p Hok). }
    pose proof (role_descriptors_fail cfg env _ r p Hin Hfail) as Hnone.
    destruct (role_descriptors cfg env (exported_roles Key st)); [discriminate | reflexivity].
  - intros items1 r p items2 x Hroles Hbuilt Hnogen Hprepared.
    rewrite Hrun, Hroles, role_descriptors_app.
    destruct (role_descriptors cfg env items1); [|discriminate].
    cbn [role_descriptors].
    rewrite role_descriptor_prepared, Hprepared, (gen_metadata_missing cfg env r Hnogen).
    reflexivity.
Qed.

Lemma export_own_metadata_spec_witness :
  _export_own_metadata string Examples.idp_config Examples.authority_env
    Examples.three_registered 0
  = Ok {| metadata.entityID := "https://idp.example.org";
          metadata.ed_validUntil := 86400;
          metadata.RoleDescriptors := Examples.exported_descriptors |}
  /\ map metadata.element Examples.exported_descriptors
     = ["IDPSSODescriptor"; "SPSSODescriptor"].
Proof.
  split; [|reflexivity].
  destruct (export_own_metadata_spec string Examples.idp_config Examples.authority_env
              Examples.three_registered 0) as (_ & _ & Hall & _).
  apply (Hall Examples.exported_descriptors).
  - simpl. discriminate.
  - simpl. repeat constructor.
Defined.

(** C8 (as stated) fails: with the role "authn" registered, a role other
    than "ap", the export neither raises the "no associated roles" error
    nor produces a document: the class has no generator for this role. *)
Lemma export_unsupported_role :
  exported_roles string Examples.authn_registered <> [] /\
  _export_own_metadata string Examples.idp_config Examples.authority_env
    Examples.authn_registered 0
  = Raise (AttributeError "gen_metadata_authn").
Proof. split; [discriminate | vm_compute; reflexivity]. Qed.

(** the role without generator fails earlier when a step before the
    generator fails *)
Example export_unsupported_role_unadaptable :
  _export_own_metadata string Examples.idp_config MoreExamples.unadaptable_env
    Examples.authn_registered 0
  = Raise (TypeError "Could not adapt").
Proof. vm_compute. reflexivity. Qed.

Example export_only_ap :
  _export_own_metadata string Examples.idp_config Examples.authority_env
    Examples.ap_registered 0
  = Raise (ValueError no_roles_message []).
Proof. reflexivity. Qed.

End ExportFacts.

(** ** Entity ids as object ids *)

Module EntityFacts.

Import Entity.

(** a safe character is neither the percent sign nor the dollar sign *)
Lemma always_safe_plain (c : ascii) :
  always_safe c = true -> Ascii.eqb c "%" = false /\ Ascii.eqb c "$" = false.
Proof.
  destruct c as [[] [] [] [] [] [] [] []]; vm_compute; intros H;
    first [discriminate H | split; reflexivity].
Qed.

(** the two digits [quote] writes for a byte are read back as that byte *)
Lemma unhex_hexdigit (c : ascii) :
  unhex (hexdigit (nat_of_ascii c / 16)) = Some (nat_of_ascii c / 16)%nat /\
  unhex (hexdigit (nat_of_ascii c mod 16)) = Some (nat_of_ascii c mod 16)%nat /\
  ascii_of_nat (16 * (nat_of_ascii c / 16) + nat_of_ascii c mod 16) = c.
Proof.
  destruct c as [[] [] [] [] [] [] [] []]; vm_compute; repeat split; reflexivity.
Qed.

(** hexadecimal digits are neither the percent sign nor the dollar sign *)
Lemma hexdigit_plain (c : ascii) :
  Ascii.eqb (hexdigit (nat_of_ascii c / 16)) "%" = false /\
  Ascii.eqb (hexdigit (nat_of_ascii c / 16)) "$" = false /\
  Ascii.eqb (hexdigit (nat_of_ascii c mod 16)) "%" = false /\
  Ascii.eqb (hexdigit (nat_of_ascii c mod 16)) "$" = false.
Proof.
  destruct c as [[] [] [] [] [] [] [] []]; vm_compute; repeat split; reflexivity.
Qed.

(** replacing the dollar signs gives back what [quote] wrote: [quote]
    writes no dollar sign *)
Lemma replace_quote (s : string) :
  replace "$" "%" (replace "%" "$" (quote s)) = quote s.
Proof.
  induction s as [|c s IH]; [reflexivity|].
  cbn [quote]. destruct (always_safe c) eqn:Hsafe.
  - destruct (always_safe_plain c Hsafe) as [Hpc Hdl].
    cbn [replace]. rewrite Hpc, Hdl, IH. reflexivity.
  - destruct (hexdigit_plain c) as (H1 & H2 & H3 & H4).
    cbn [replace]. rewrite H1, H2, H3, H4, IH. reflexivity.
Qed.

Lemma unquote_quote (s : string) : unquote (quote s) = s.
Proof.
  induction s as [|c s IH]; [reflexivity|].
  cbn [quote]. destruct (always_safe c) eqn:Hsafe.
  - destruct (always_safe_plain c Hsafe) as [Hpc _].
    cbn [unquote]. rewrite Hpc, IH. reflexivity.
  - destruct (unhex_hexdigit c) as (Hhi & Hlo & Hc).
    cbn [unquote]. rewrite Hhi, Hlo, Hc, IH. reflexivity.
Qed.

(** C10: the quoting of entity ids round-trips: [_unquote(_quote(s))] is
    [s] for every entity id, whatever characters it contains, so looking
    an entity up by its quoted id finds the entity stored under the id
    itself. *)
Theorem quote_roundtrip (s : string) :
  _unquote (_quote s) = s /\
  forall entities : gmap string entity,
    _getOb entities (_quote s) = get_entity entities s.
Proof.
  assert (Hround : _unquote (_quote s) = s).
  { unfold _unquote, _quote. rewrite replace_quote. apply unquote_quote. }
  split; [exact Hround|].
  intros entities. unfold _getOb. rewrite Hround. reflexivity.
Qed.

(** ids with a percent sign, a dollar sign and characters that object ids
    must not contain *)
Example quote_special :
  _quote "https://idp.example.org/a%b$c d" = "https$3A$2F$2Fidp.example.org$2Fa$25b$24c$20d".
Proof. reflexivity. Qed.

Example unquote_special :
  _unquote "https$3A$2F$2Fidp.example.org$2Fa$25b$24c$20d" = "https://idp.example.org/a%b$c d".
Proof. reflexivity. Qed.

(** [unquote] leaves a percent sign that is not followed by two
    hexadecimal digits *)
Example unquote_stray_percent :
  unquote "%zz%4" = "%zz%4" /\ unquote "%41%4a%4A%" = "AJJ%" /\ unquote "%%41" = "%A".
Proof. repeat split; reflexivity. Qed.

End EntityFacts.

(** ** Deletion guards *)

Module DeletionFacts.

Import Authority.

Section WithAuthority.

Variable env : collaborators.


End WithAuthority.







End DeletionFacts.

(** * Further properties *)

(** ** The selector, continued *)

Module SelectorMore.

Import Selector.

Lemma find_app_first {A : Type} (p : A -> bool) (l l' : list A) :
  find p (l ++ l') = match find p l with Some x => Some x | None => find p l' end.
Proof.
  induction l as [|x l IH]; simpl; [reflexivity|].
  destruct (p x); [reflexivity | exact IH].
Qed.

(** X1: with an explicit index the selector returns the first service, in
    the order of the document and across all SP descriptors, that carries
    this index; [isDefault] plays no part. *)
Theorem select_explicit_index_first (md : EntityDescriptor) (i : Z) :
  _attribute_consuming_service md (Some i) =
  find (fun acs => (i =? index acs)%Z)
       (concat (map AttributeConsumingServices (SPSSODescriptors md))).
Proof.
  unfold _attribute_consuming_service.
  induction (SPSSODescriptors md) as [|sp sps IH]; simpl; [reflexivity|].
  rewrite find_app_first, SelectorFacts.select_in_sp_index, IH. reflexivity.
Qed.

(** X2: with no index requested the selector returns one of the services
    the document declares, and it returns [None] only when no SP descriptor
    declares any service. *)
Theorem select_default_declared (md : EntityDescriptor) :
  match _attribute_consuming_service md None with
  | Some acs => In acs (concat (map AttributeConsumingServices (SPSSODescriptors md)))
  | None => concat (map AttributeConsumingServices (SPSSODescriptors md)) = []
  end.
Proof.
  unfold _attribute_consuming_service.
  induction (SPSSODescriptors md) as [|sp sps IH]; simpl; [reflexivity|].
  rewrite SelectorFacts.select_in_sp_default.
  destruct (AttributeConsumingServices sp) as [|a l] eqn:Hacss.
  - simpl. exact IH.
  - destruct (spec_select_default (a :: l)) as [acs|] eqn:Hsel.
    + apply in_or_app. left. unfold spec_select_default in Hsel.
      destruct (find explicitly_default (a :: l)) as [x|] eqn:Hx.
      * injection Hsel as <-. exact (proj1 (find_some _ _ Hx)).
      * destruct (find default_unset (a :: l)) as [y|] eqn:Hy.
        -- injection Hsel as <-. exact (proj1 (find_some _ _ Hy)).
        -- simpl in Hsel. injection Hsel as <-. left. reflexivity.
    + destruct (SelectorFacts.spec_select_default_nonempty a l) as [acs Hacs].
      congruence.
Qed.

End SelectorMore.

(** ** Attribute release, continued *)

Module ReleaseMore.

Import Release.

Section WithCollaborators.

Variable env : collaborators.

(** the catalog key of a provided attribute *)
Lemma catalog_fold (l : list ProvidedAttribute) :
  forall (m : gmap (string * string) ProvidedAttribute) k,
  fold_left (fun attrs att => <[(format att, title att) := att]> attrs) l m !! k =
  match find (fun d => bool_decide ((format d, title d) = k)) (rev l) with
  | Some d => Some d
  | None => m !! k
  end.
Proof.
  induction l as [|a l IH] using rev_ind; intros m k; [reflexivity|].
  rewrite fold_left_app, rev_app_distr. simpl.
  case_bool_decide as Hk.
  - rewrite <- Hk. apply lookup_insert_eq.
  - rewrite lookup_insert_ne by exact Hk. apply IH.
Qed.

Lemma release_loop_attributes eid ras : forall av log av' log',
  release_loop env eid ras av log = (Ok av', log') ->
  exists more,
    av' = av ++ more /\
    Forall2 (fun ra a =>
               exists d, catalog env !! ran_of env ra = Some d /\
                         make_attribute env ra d eid = Ok a)
            (List.filter (provided env) ras) more.
Proof.
  induction ras as [|ra ras IH]; intros av log av' log' Hrun; simpl in Hrun.
  - injection Hrun as <- _. exists []. rewrite app_nil_r. split; [reflexivity | constructor].
  - simpl. unfold provided at 1.
    destruct (catalog env !! ran_of env ra) as [d|] eqn:Hd; simpl.
    + destruct (make_attribute env ra d eid) as [att|] eqn:Hatt; [|discriminate].
      apply IH in Hrun as (more & -> & Hall).
      exists (att :: more). rewrite <- app_assoc. split; [reflexivity|].
      constructor; [|exact Hall]. exists d. split; [exact Hd | exact Hatt].
    + apply IH in Hrun. exact Hrun.
Qed.

Lemma make_attribute_names ra d eid a :
  make_attribute env ra d eid = Ok a ->
  a_NameFormat a = format d /\ a_Name a = title d /\
  a_FriendlyName a = ostr_or (FriendlyName ra) (pa_id d).
Proof.
  unfold make_attribute.
  destruct (raw_value env d eid) as [v|]; cbn [rbind]; [|discriminate].
  destruct (xs_convert_to_xml env (type d) v) as [xv|]; cbn [rbind]; [|discriminate].
  intros [= <-]. repeat split; reflexivity.
Qed.

Lemma release_loop_raises eid ras1 : forall ra ras2 d e av log,
  Forall (fun r => forall d', catalog env !! ran_of env r = Some d' ->
                              is_ok (make_attribute env r d' eid) = true) ras1 ->
  catalog env !! ran_of env ra = Some d ->
  make_attribute env ra d eid = Raise e ->
  fst (release_loop env eid (ras1 ++ ra :: ras2) av log) = Raise e.
Proof.
  induction ras1 as [|r ras1 IH]; intros ra ras2 d e av log Hgood Hd Hfail; simpl.
  - rewrite Hd, Hfail. reflexivity.
  - inversion Hgood as [|? ? Hr Hrest]; subst.
    destruct (catalog env !! ran_of env r) as [d'|] eqn:Hd'.
    + specialize (Hr d' eq_refl).
      destruct (make_attribute env r d' eid); [|discriminate].
      apply (IH _ _ d); assumption.
    + apply (IH _ _ d); assumption.
Qed.

End WithCollaborators.

(** X3: the catalog maps a pair of format and name to the last provided
    attribute, in the order of [objectValues], that has this format and
    this title; attributes sharing both are shadowed by the last one. *)
Theorem catalog_last_wins (env : collaborators) (k : string * string) :
  catalog env !! k =
  find (fun d => bool_decide ((format d, title d) = k)) (rev (objectValues env)).
Proof.
  unfold catalog. rewrite catalog_fold.
  destruct (find _ (rev (objectValues env))); [reflexivity | apply lookup_empty].
Qed.

(** X4: when the release returns an attribute statement, its attributes
    are, in the order of the request, those of the requested attributes
    the catalog provides: each carries the format and title of its catalog
    entry, which are the normalized format and the name requested, and as
    friendly name the requested one or, when that is missing or empty, the
    id of the catalog entry. *)
Theorem release_attributes_follow_request (env : collaborators)
    (target_eid : option string) (issuer : string) (index : option Z)
    (md : EntityDescriptor) (acs : AttributeConsumingService)
    (l : list Attribute) (log : list log_entry) :
  get_recent_metadata env (ostr_or target_eid issuer) = Ok md ->
  Selector._attribute_consuming_service md index = Some acs ->
  _make_attribute_statement env target_eid issuer index = (Ok (AttributeStatement l), log) ->
  Forall2 (fun ra a =>
             (a_NameFormat a, a_Name a) = ran_of env ra /\
             exists d, catalog env !! ran_of env ra = Some d /\
                       a_FriendlyName a = ostr_or (FriendlyName ra) (pa_id d))
          (List.filter (provided env) (RequestedAttributes acs)) l.
Proof.
  intros Hmd Hsel. unfold _make_attribute_statement. rewrite Hmd, Hsel.
  destruct (release_loop env _ (RequestedAttributes acs) [] []) as [[av|e] log0] eqn:Hloop;
    [|discriminate].
  intros [= Hst _].
  assert (Hav : av = l).
  { unfold statement_of in Hst. destruct (truthy_list av); [|discriminate].
    injection Hst as ->. reflexivity. }
  subst av.
  apply release_loop_attributes in Hloop as (more & Hmore & Hall). simpl in Hmore. subst more.
  eapply Forall2_impl; [exact Hall|].
  intros ra a (d & Hd & Hatt). simpl.
  destruct (make_attribute_names env ra d _ a Hatt) as (Hf & Hn & Hfr).
  pose proof (catalog_last_wins env (ran_of env ra)) as Hlast. rewrite Hd in Hlast.
  symmetry in Hlast. apply find_some in Hlast as [_ Hkey].
  apply bool_decide_eq_true_1 in Hkey.
  split; [rewrite Hf, Hn; exact Hkey|].
  exists d. split; [exact Hd | exact Hfr].
Qed.

Lemma release_attributes_follow_request_witness :
  Forall2 (fun ra a =>
             (a_NameFormat a, a_Name a) = ran_of Examples.env_partial ra /\
             exists d, catalog Examples.env_partial !! ran_of Examples.env_partial ra = Some d /\
                       a_FriendlyName a = ostr_or (FriendlyName ra) (pa_id d))
          [Examples.ra_mail]
          [ {| a_NameFormat := Examples.uri_format; a_Name := "mail";
               a_FriendlyName := "mail";
               a_values := [ {| av_text := "a@example.org" |} ] |} ].
Proof.
  apply (release_attributes_follow_request Examples.env_partial None
           "https://sp.example.org" None (Examples.sp_metadata [Examples.acs_partial])
           Examples.acs_partial _
           [LogAttributeNotFound (Examples.unspecified_format, "phone") "https://sp.example.org";
            LogAttributeNotFound (Examples.uri_format, "fax") "https://sp.example.org"]
           eq_refl eq_refl).
  vm_compute. reflexivity.
Defined.

(** X5: a requested attribute the catalog provides but whose value cannot
    be obtained or converted aborts the release: when the provided
    attributes requested before it are converted, the release raises the
    exception of this attribute, whatever is requested after it. *)
Theorem release_aborts_on_conversion_failure (env : collaborators)
    (target_eid : option string) (issuer : string) (index : option Z)
    (md : EntityDescriptor) (acs : AttributeConsumingService)
    (ras1 ras2 : list RequestedAttribute) (ra : RequestedAttribute)
    (d : ProvidedAttribute) (e : exn) :
  get_recent_metadata env (ostr_or target_eid issuer) = Ok md ->
  Selector._attribute_consuming_service md index = Some acs ->
  RequestedAttributes acs = ras1 ++ ra :: ras2 ->
  Forall (fun r => forall d', catalog env !! ran_of env r = Some d' ->
            is_ok (make_attribute env r d' (ostr_or target_eid issuer)) = true) ras1 ->
  catalog env !! ran_of env ra = Some d ->
  make_attribute env ra d (ostr_or target_eid issuer) = Raise e ->
  fst (_make_attribute_statement env target_eid issuer index) = Raise e.
Proof.
  intros Hmd Hsel Hras Hgood Hd Hfail.
  pose proof (release_loop_raises env (ostr_or target_eid issuer) ras1 ra ras2 d e [] []
                Hgood Hd Hfail) as Hloop.
  unfold _make_attribute_statement. rewrite Hmd, Hsel, Hras.
  destruct (release_loop env _ (ras1 ++ ra :: ras2) [] []) as [[av|e'] log];
    simpl in Hloop; [discriminate|].
  injection Hloop as ->. reflexivity.
Qed.

Lemma release_aborts_on_conversion_failure_witness :
  fst (_make_attribute_statement MoreExamples.env_with_age None "https://sp.example.org" None)
  = Raise (ExternalError "cannot convert").
Proof.
  apply (release_aborts_on_conversion_failure MoreExamples.env_with_age None
           "https://sp.example.org" None
           (Examples.sp_metadata [MoreExamples.acs_with_age]) MoreExamples.acs_with_age
           [Examples.ra_phone; Examples.ra_mail] [Examples.ra_fax] MoreExamples.ra_age
           MoreExamples.age (ExternalError "cannot convert") eq_refl eq_refl eq_refl).
  - constructor.
    + intros d' Hd'. vm_compute in Hd'. discriminate Hd'.
    + constructor; [|constructor].
      intros d' Hd'. vm_compute in Hd'. injection Hd' as <-. vm_compute. reflexivity.
  - vm_compute. reflexivity.
  - vm_compute. reflexivity.
Defined.

(** X6: every provided attribute is announced by [add_attribute_metadata],
    in the order of [objectValues] and after what the descriptor already
    lists, and an announced attribute with a non-empty format, requested by
    the format and name announced, is provided by the catalog. *)
Theorem announced_attributes_are_provided (env : collaborators)
    (attributes : list Attribute) (ad : ProvidedAttribute) :
  In ad (objectValues env) ->
  format ad <> "" ->
  Advertise.add_attribute_metadata env attributes =
    attributes ++ map Advertise.advertised (objectValues env) /\
  provided env (Advertise.request_of (Advertise.advertised ad)) = true.
Proof.
  intros Hin Hformat. split.
  - unfold Advertise.add_attribute_metadata. clear Hin. generalize attributes.
    induction (objectValues env) as [|a l IH]; intros attrs; simpl.
    + rewrite app_nil_r. reflexivity.
    + rewrite IH, <- app_assoc. reflexivity.
  - unfold provided. rewrite catalog_last_wins.
    assert (Hkey : ran_of env (Advertise.request_of (Advertise.advertised ad))
                   = (format ad, title ad)).
    { unfold ran_of, Advertise.request_of, Advertise.advertised. simpl.
      destruct (format ad); [contradiction | reflexivity]. }
    rewrite Hkey.
    destruct (find _ (rev (objectValues env))) eqn:Hfind; [reflexivity|].
    exfalso. apply in_rev in Hin.
    pose proof (find_none _ _ Hfind ad Hin) as Hnone. simpl in Hnone.
    rewrite bool_decide_eq_true_2 in Hnone by reflexivity. discriminate.
Qed.

Lemma announced_attributes_are_provided_witness :
  Advertise.add_attribute_metadata MoreExamples.env_with_age [] =
    [] ++ map Advertise.advertised [Examples.mail; MoreExamples.age] /\
  provided MoreExamples.env_with_age
    (Advertise.request_of (Advertise.advertised MoreExamples.age)) = true.
Proof.
  apply (announced_attributes_are_provided MoreExamples.env_with_age [] MoreExamples.age).
  - simpl. right. left. reflexivity.
  - simpl. discriminate.
Defined.

End ReleaseMore.

(** ** The keys manager, continued *)

Module KeysMore.

Import Keys.

(** X7: a lookup changes at most the cache slot of the entity id looked
    up.  A lookup that fails leaves the cache as it was, except that the
    entry looked up is gone when the entity is a foreign one whose
    metadata had to be fetched: the subscriber deleted it, and nothing was
    stored in its place. *)
Theorem lookup_touches_one_slot (Key : Type) (auth : authority_config)
    (env : collaborators Key) (cache : gmap string (Volatile Key)) (now : Z)
    (eid eid' : string) :
  eid' <> eid ->
  snd (fst (__getitem__ Key auth env cache now eid)) !! eid' = cache !! eid' /\
  (is_ok (fst (fst (__getitem__ Key auth env cache now eid))) = false ->
   (entity_id auth = eid \/ fetches_metadata Key env eid = false ->
    snd (fst (__getitem__ Key auth env cache now eid)) = cache) /\
   (entity_id auth <> eid -> fetches_metadata Key env eid = true ->
    snd (fst (__getitem__ Key auth env cache now eid)) = delete eid cache)).
Proof.
  intros Hne.
  assert (Hown : entity_id auth = eid \/ fetches_metadata Key env eid = false ->
                 after_subscribers Key auth env cache eid = cache).
  { unfold after_subscribers. intros [Heq|Hfetch].
    - apply String.eqb_eq in Heq. rewrite Heq. reflexivity.
    - rewrite Hfetch. destruct (String.eqb (entity_id auth) eid); reflexivity. }
  assert (Hforeign : entity_id auth <> eid -> fetches_metadata Key env eid = true ->
                     after_subscribers Key auth env cache eid = delete eid cache).
  { unfold after_subscribers. intros Hother Hfetch.
    apply String.eqb_neq in Hother. rewrite Hother, Hfetch.
    apply KeysFacts.delitem_delete. }
  assert (Hrec : let r := recompute Key auth env cache eid in
                 snd (fst r) !! eid' = cache !! eid' /\
                 (is_ok (fst (fst r)) = false ->
                  snd (fst r) = after_subscribers Key auth env cache eid)).
  { rewrite KeysFacts.recompute_spec.
    destruct (determine_keys Key auth env eid) as [[info|e] tr]; simpl.
    - split; [|discriminate]. apply lookup_insert_ne. congruence.
    - split; [|reflexivity]. apply KeysFacts.after_subscribers_ne. exact Hne. }
  unfold __getitem__.
  destruct (cached_info Key cache eid) as [info|].
  - destruct (valid_at Key now info).
    + simpl. split; [reflexivity | discriminate].
    + destruct Hrec as [Hother Hfail]. split; [exact Hother|].
      intros Hfailed. rewrite (Hfail Hfailed). split; assumption.
  - destruct Hrec as [Hother Hfail]. split; [exact Hother|].
    intros Hfailed. rewrite (Hfail Hfailed). split; assumption.
Qed.

Lemma lookup_touches_one_slot_witness :
  __getitem__ string Examples.idp_config MoreExamples.keys_env_unloadable
    Examples.sp_cache 101 "https://sp.example.org"
  = (Raise (ExternalError "cannot load c1"), ∅,
     [EvGetRecentMetadata "https://sp.example.org";
      EvKeyLoadMemory "c1" "KeyDataFormatCertDer"]).
Proof.
  destruct (lookup_touches_one_slot string Examples.idp_config
              MoreExamples.keys_env_unloadable Examples.sp_cache 101
              "https://sp.example.org" "https://idp.example.org")
    as [_ Hfailed]; [discriminate|].
  destruct (Hfailed eq_refl) as [_ Hgone].
  specialize (Hgone ltac:(discriminate) eq_refl).
  destruct (__getitem__ string Examples.idp_config MoreExamples.keys_env_unloadable
              Examples.sp_cache 101 "https://sp.example.org") as [[r c] tr] eqn:Hget.
  simpl in Hgone. subst c.
  vm_compute in Hget. injection Hget as <- <-.
  vm_compute. reflexivity.
Defined.

(** X8: the keys a successful lookup returns are the keys the cache holds
    afterwards for the entity id: as long as their validity lasts, every
    further lookup returns them without a call and without touching the
    cache; once it is over the next lookup does not return them but what
    the determination of the keys gives, with its calls, and replaces the
    entry. *)
Theorem lookup_result_is_cached (Key : Type) (auth : authority_config)
    (env : collaborators Key) (cache cache' : gmap string (Volatile Key)) (now : Z)
    (eid : string) (keys : list Key) (tr : list event) :
  __getitem__ Key auth env cache now eid = (Ok keys, cache', tr) ->
  exists vu,
    cached_info Key cache' eid = Some (vu, keys) /\
    (forall now', valid_until vu now' ->
       __getitem__ Key auth env cache' now' eid = (Ok keys, cache', [])) /\
    (forall now', ~ valid_until vu now' ->
       __getitem__ Key auth env cache' now' eid =
       match determine_keys Key auth env eid with
       | (Ok info, tr') => (Ok (snd info), <[eid := slot Key info]> cache', tr')
       | (Raise e, tr') => (Raise e, after_subscribers Key auth env cache' eid, tr')
       end).
Proof.
  intros Hget.
  assert (Hslot : exists vu, cached_info Key cache' eid = Some (vu, keys)).
  { unfold __getitem__ in Hget.
    assert (Hrec : recompute Key auth env cache eid = (Ok keys, cache', tr) ->
                   exists vu, cached_info Key cache' eid = Some (vu, keys)).
    { rewrite KeysFacts.recompute_spec.
      destruct (determine_keys Key auth env eid) as [[[vu ks]|e] tr']; [|discriminate].
      intros [= <- <- _]. exists vu. unfold cached_info.
      rewrite lookup_insert_eq. reflexivity. }
    destruct (cached_info Key cache eid) as [[vu ks]|] eqn:Hinfo; [|exact (Hrec Hget)].
    destruct (valid_at Key now (vu, ks)); [|exact (Hrec Hget)].
    injection Hget as <- <- _. exists vu. exact Hinfo. }
  destruct Hslot as [vu Hslot]. exists vu. split; [exact Hslot|]. split.
  - intros now' Hvalid. unfold __getitem__. rewrite Hslot.
    apply (KeysFacts.valid_at_spec Key now' (vu, keys)) in Hvalid. rewrite Hvalid.
    reflexivity.
  - intros now' Hinvalid.
    apply (KeysFacts.getitem_expired Key auth env cache' now' eid (vu, keys) Hslot).
    destruct (valid_at Key now' (vu, keys)) eqn:Hvalid; [|reflexivity].
    exfalso. apply Hinvalid. apply (KeysFacts.valid_at_spec Key now' (vu, keys)).
    exact Hvalid.
Qed.

Lemma lookup_result_is_cached_witness :
  __getitem__ string Examples.idp_config Examples.keys_env Examples.sp_cache 50
    "https://sp.example.org"
  = (Ok ["old key"], Examples.sp_cache, []) /\
  __getitem__ string Examples.idp_config Examples.keys_env Examples.sp_cache 101
    "https://sp.example.org"
  = (Ok ["cert c1"; "cert c2"; "cert c3"],
     <["https://sp.example.org" :=
         slot string (Some 1000%Z, ["cert c1"; "cert c2"; "cert c3"])]> Examples.sp_cache,
     [EvGetRecentMetadata "https://sp.example.org";
      EvKeyLoadMemory "c1" "KeyDataFormatCertDer";
      EvKeyLoadMemory "c2" "KeyDataFormatCertDer";
      EvKeyLoadMemory "c3" "KeyDataFormatCertDer"]).
Proof.
  destruct (lookup_result_is_cached string Examples.idp_config Examples.keys_env
              Examples.sp_cache Examples.sp_cache 50 "https://sp.example.org"
              ["old key"] [] eq_refl) as (vu & Hslot & Hvalid & Hexpired).
  assert (Hvu : vu = Some 100%Z).
  { vm_compute in Hslot. injection Hslot as <-. reflexivity. }
  subst vu. split.
  - apply Hvalid. right. exists 100%Z. split; [reflexivity | lia].
  - rewrite (Hexpired 101%Z).
    + reflexivity.
    + intros [Hnone | [t [[= <-] Hle]]]; [discriminate | lia].
Defined.

(** X9: for a foreign entity whose metadata carry no certificate marked
    for signing, [get] returns the default it is given, no key is loaded,
    and the empty list of keys is cached with the validity of the
    metadata. *)
Theorem get_default_without_certificates (Key : Type) (auth : authority_config)
    (env : collaborators Key) (cache : gmap string (Volatile Key)) (now : Z)
    (eid : string) (rmd : EntityDescriptor) (default : list Key) :
  entity_id auth <> eid ->
  is_miss Key cache now eid ->
  get_recent_metadata Key env eid = Ok rmd ->
  signing_certificates Key env eid = [] ->
  get Key auth env cache now eid default =
    (Ok default, <[eid := slot Key (validUntil rmd, [])]> cache, [EvGetRecentMetadata eid]).
Proof.
  intros Hforeign Hmiss Hmd Hnone.
  destruct (KeysFacts.load_roles_spec Key env eid) as [Hres Htr].
  rewrite Hnone in Hres, Htr. simpl in Hres, Htr. specialize (Htr [] eq_refl).
  unfold get. rewrite (KeysFacts.getitem_miss Key auth env cache now eid Hmiss).
  rewrite KeysFacts.recompute_spec. unfold determine_keys.
  destruct (String.eqb (entity_id auth) eid) eqn:Heq.
  { apply String.eqb_eq in Heq. contradiction. }
  unfold foreign_keys. rewrite Hmd.
  destruct (load_roles Key env eid _ ∅ [] _) as [[ks|e] tr]; simpl in Hres, Htr;
    [|discriminate].
  injection Hres as ->. subst tr. reflexivity.
Qed.

Lemma get_default_without_certificates_witness :
  get string Examples.idp_config MoreExamples.keys_env_no_certs ∅ 0
    "https://sp.example.org" ["fallback"]
  = (Ok ["fallback"],
     <["https://sp.example.org" := slot string (None, [])]> ∅,
     [EvGetRecentMetadata "https://sp.example.org"]).
Proof.
  apply (get_default_without_certificates string Examples.idp_config
           MoreExamples.keys_env_no_certs ∅ 0 "https://sp.example.org"
           {| SPSSODescriptors := []; validUntil := None |} ["fallback"]).
  - simpl. discriminate.
  - intros info Hinfo. vm_compute in Hinfo. discriminate Hinfo.
  - reflexivity.
  - reflexivity.
Defined.

(** X10: the password handed to the key loader is never empty.  A
    configured password that is not empty and whose bytes are not empty is
    handed over as it is (a byte string) or encoded (a text); the sentinel
    [b"fail"] takes its place exactly when no password is configured, when
    it is empty, or when its encoding is empty; and when the encoding
    fails no key is loaded at all. *)
Theorem password_argument_never_empty (Key : Type) (auth : authority_config)
    (env : collaborators Key) :
  let fn := Path._make_absolute (clienthome auth) (private_key auth) in
  (forall pw, password_argument Key auth env = Ok pw ->
     pw <> "" /\
     snd (own_keys Key auth env) = [EvKeyLoad fn "KeyDataFormatPem" pw]) /\
  (forall p b,
     private_key_password auth = Some p -> truthy_pystr p = true ->
     _to_bytes Key env p = Ok b -> b <> "" ->
     password_argument Key auth env = Ok b) /\
  (forall b,
     private_key_password auth = Some (Bytes b) -> b <> "" ->
     password_argument Key auth env = Ok b) /\
  (password_configured auth = false \/
   (exists p, private_key_password auth = Some p /\ _to_bytes Key env p = Ok "") ->
   password_argument Key auth env = Ok "fail") /\
  (forall pw, password_argument Key auth env = Ok pw ->
     (exists p, private_key_password auth = Some p /\ truthy_pystr p = true /\
                _to_bytes Key env p = Ok pw) \/
     (pw = "fail" /\
      (password_configured auth = false \/
       exists p, private_key_password auth = Some p /\ _to_bytes Key env p = Ok ""))) /\
  (forall p e,
     private_key_password auth = Some p -> truthy_pystr p = true ->
     _to_bytes Key env p = Raise e ->
     own_keys Key auth env = (Raise e, [])).
Proof.
  intros fn.
  assert (Hconf : forall p b,
            private_key_password auth = Some p -> truthy_pystr p = true ->
            _to_bytes Key env p = Ok b -> b <> "" ->
            password_argument Key auth env = Ok b).
  { intros p b Hp Htruthy Hbytes Hb. unfold password_argument.
    rewrite Hp, Htruthy, Hbytes. cbn [rbind].
    destruct b; [contradiction | reflexivity]. }
  split; [|split; [exact Hconf|split; [|split; [|split]]]].
  - intros pw Hpw. split.
    + revert Hpw. unfold password_argument.
      destruct (private_key_password auth) as [p|]; [|intros [= <-]; discriminate].
      destruct (truthy_pystr p); [|intros [= <-]; discriminate].
      destruct (_to_bytes Key env p) as [b|e]; cbn [rbind]; [|discriminate].
      destruct b; simpl; intros [= <-]; discriminate.
    + unfold own_keys. rewrite Hpw. reflexivity.
  - intros b Hp Hb. apply (Hconf (Bytes b) b Hp); [|reflexivity | exact Hb].
    destruct b; [contradiction | reflexivity].
  - unfold password_configured, password_argument.
    intros [Hnone | [p [Hp Hbytes]]].
    + destruct (private_key_password auth) as [p|]; [|reflexivity].
      rewrite Hnone. reflexivity.
    + rewrite Hp, Hbytes. destruct (truthy_pystr p); reflexivity.
  - intros pw. unfold password_configured, password_argument.
    destruct (private_key_password auth) as [p|].
    + destruct (truthy_pystr p) eqn:Htruthy.
      * destruct (_to_bytes Key env p) as [b|e] eqn:Hbytes; cbn [rbind]; [|discriminate].
        destruct b as [|c b]; simpl; intros [= <-].
        -- right. split; [reflexivity|]. right. exists p. split; [reflexivity | exact Hbytes].
        -- left. exists p. repeat split; [exact Htruthy | exact Hbytes].
      * intros [= <-]. right. split; [reflexivity | left; reflexivity].
    + intros [= <-]. right. split; [reflexivity | left; reflexivity].
  - intros p e Hp Htruthy Hbytes. unfold own_keys, password_argument.
    rewrite Hp, Htruthy, Hbytes. reflexivity.
Qed.

Lemma password_argument_never_empty_witness :
  password_argument string MoreExamples.idp_config_with_password Examples.keys_env
  = Ok "secret" /\
  snd (own_keys string MoreExamples.idp_config_with_password Examples.keys_env)
  = [EvKeyLoad "/var/zope/etc/key.pem" "KeyDataFormatPem" "secret"].
Proof.
  destruct (password_argument_never_empty string MoreExamples.idp_config_with_password
              Examples.keys_env) as (Hloaded & Hconfigured & _).
  assert (Hpw : password_argument string MoreExamples.idp_config_with_password
                  Examples.keys_env = Ok "secret").
  { apply (Hconfigured (Text "secret") "secret"); try reflexivity. discriminate. }
  split; [exact Hpw|]. apply (Hloaded "secret" Hpw).
Defined.

End KeysMore.

(** ** The role registry, continued *)

Module RegistryMore.

Import Authority.

Section Dictionaries.

Context {V : Type}.

Lemma contains_In (d : list (string * V)) k :
  Dict.contains k d = true <-> In k (map fst d).
Proof.
  unfold Dict.contains. rewrite existsb_exists, in_map_iff. split.
  - intros [kv [Hin Heq]]. apply String.eqb_eq in Heq. exists kv. tauto.
  - intros [kv [Heq Hin]]. exists kv. split; [exact Hin|]. apply String.eqb_eq. exact Heq.
Qed.

Lemma contains_false_get (d : list (string * V)) k :
  Dict.contains k d = false -> Dict.get k d = None.
Proof.
  induction d as [|[k0 v0] d IH]; simpl; [reflexivity|].
  destruct (String.eqb k0 k); simpl; [discriminate | exact IH].
Qed.

Lemma get_app (d d' : list (string * V)) k :
  Dict.get k (d ++ d') =
  match Dict.get k d with Some v => Some v | None => Dict.get k d' end.
Proof.
  induction d as [|[k0 v0] d IH]; simpl; [reflexivity|].
  destruct (String.eqb k0 k); [reflexivity | exact IH].
Qed.

Lemma get_pairs (l : list string) (v : V) k :
  Dict.get k (map (fun r => (r, v)) l) = if bool_decide (k ∈ l) then Some v else None.
Proof.
  induction l as [|r l IH]; simpl; [reflexivity|].
  destruct (String.eqb_spec r k) as [->|Hne].
  - rewrite bool_decide_eq_true_2 by (left). reflexivity.
  - rewrite IH. case_bool_decide as Hin.
    + rewrite bool_decide_eq_true_2 by (right; exact Hin). reflexivity.
    + rewrite bool_decide_eq_false_2; [reflexivity|].
      intros Hin'. apply elem_of_cons in Hin' as [Heq|Hin']; [congruence | tauto].
Qed.

(** looking a key up after a selection of the entries, keys being unique *)
Lemma get_filter (p : string * V -> bool) (d : list (string * V)) k :
  List.NoDup (map fst d) ->
  Dict.get k (List.filter p d) =
  match Dict.get k d with
  | Some v => if p (k, v) then Some v else None
  | None => None
  end.
Proof.
  induction d as [|[k0 v0] d IH]; simpl; intros Hnodup; [reflexivity|].
  inversion Hnodup as [|? ? Hnotin Hnodup']; subst.
  destruct (String.eqb_spec k0 k) as [->|Hne].
  - destruct (p (k, v0)) eqn:Hp; simpl.
    + rewrite String.eqb_refl. reflexivity.
    + rewrite (IH Hnodup'). rewrite contains_false_get; [reflexivity|].
      destruct (Dict.contains k d) eqn:Hc; [|reflexivity].
      apply contains_In in Hc. contradiction.
  - destruct (p (k0, v0)); simpl.
    + destruct (String.eqb_spec k0 k); [congruence|]. exact (IH Hnodup').
    + exact (IH Hnodup').
Qed.

Lemma filter_keys_NoDup (p : string * V -> bool) (d : list (string * V)) :
  List.NoDup (map fst d) -> List.NoDup (map fst (List.filter p d)).
Proof.
  induction d as [|kv d IH]; simpl; intros Hnodup; [constructor|].
  inversion Hnodup as [|? ? Hnotin Hnodup']; subst.
  destruct (p kv); simpl; [|exact (IH Hnodup')].
  constructor; [|exact (IH Hnodup')].
  intros Hin. apply Hnotin. apply in_map_iff in Hin as [kv' [Heq Hin]].
  apply filter_In in Hin as [Hin _]. apply in_map_iff. exists kv'. tauto.
Qed.

End Dictionaries.

Section WithAuthority.

Variable Key : Type.
Variable cfg : authority_config.
Variable env : collaborators.

Lemma free_prefix_full registry l :
  first_conflict registry l = None ->
  free_prefix registry l = l /\ forall r, In r l -> Dict.contains r registry = false.
Proof.
  unfold first_conflict. induction l as [|x l IH]; simpl; intros Hnone.
  - split; [reflexivity | intros r []].
  - destruct (Dict.contains x registry) eqn:Hx; [discriminate|].
    destruct (IH Hnone) as [Hfull Hfree]. rewrite Hfull. split; [reflexivity|].
    intros r [<-|Hr]; [exact Hx | exact (Hfree r Hr)].
Qed.

Lemma free_prefix_incl registry l r :
  In r (free_prefix registry l) -> In r l /\ Dict.contains r registry = false.
Proof.
  induction l as [|x l IH]; simpl; [intros []|].
  destruct (Dict.contains x registry) eqn:Hx; [intros []|].
  intros [<-|Hr]; [split; [left; reflexivity | exact Hx]|].
  destruct (IH Hr) as [Hin Hc]. split; [right; exact Hin | exact Hc].
Qed.

Lemma free_prefix_NoDup registry l :
  List.NoDup l -> List.NoDup (free_prefix registry l).
Proof.
  induction l as [|x l IH]; simpl; intros Hnodup; [constructor|].
  inversion Hnodup as [|? ? Hnotin Hnodup']; subst.
  destruct (Dict.contains x registry); [constructor|].
  constructor; [|exact (IH Hnodup')].
  intros Hin. apply Hnotin. exact (proj1 (free_prefix_incl registry l x Hin)).
Qed.

Lemma implemented_roles_NoDup impl :
  List.NoDup (map fst (role2element env)) -> List.NoDup (implemented_roles env impl).
Proof. intros Hnodup. unfold implemented_roles. apply List.NoDup_filter. exact Hnodup. Qed.

(** the registry a registration leaves, whether it succeeds or not *)
Lemma register_roles (st : state Key) impl :
  List.NoDup (map fst (role2element env)) ->
  role_table_known env ->
  roles Key (snd (register_role_implementor Key cfg env st impl)) =
  roles Key st ++ map (fun r => (r, getPhysicalPath impl))
                      (free_prefix (roles Key st) (implemented_roles env impl)).
Proof.
  intros Hnodup Hknown. unfold register_role_implementor.
  rewrite (RegistryFacts.register_loop_spec impl (getPhysicalPath impl) _ (roles Key st)
             Hnodup Hknown).
  fold (implemented_roles env impl).
  destruct (first_conflict (roles Key st) (implemented_roles env impl)); reflexivity.
Qed.

Lemma register_success (st st' : state Key) impl :
  List.NoDup (map fst (role2element env)) ->
  role_table_known env ->
  register_role_implementor Key cfg env st impl = (Ok tt, st') ->
  first_conflict (roles Key st) (implemented_roles env impl) = None /\
  st' = _update Key cfg
           (set_roles Key st
              (roles Key st ++ map (fun r => (r, getPhysicalPath impl))
                                   (implemented_roles env impl))).
Proof.
  intros Hnodup Hknown. unfold register_role_implementor.
  rewrite (RegistryFacts.register_loop_spec impl (getPhysicalPath impl) _ (roles Key st)
             Hnodup Hknown).
  fold (implemented_roles env impl).
  destruct (first_conflict (roles Key st) (implemented_roles env impl)) eqn:Hconf;
    [discriminate|].
  intros [= <-]. split; [reflexivity|].
  rewrite (proj1 (free_prefix_full _ _ Hconf)). reflexivity.
Qed.

End WithAuthority.

(** X11: after a successful registration every role the implementor
    implements resolves to the implementor's path, and every other role
    resolves as it did before. *)
Theorem registered_roles_resolve (Key : Type) (cfg : authority_config)
    (env : collaborators) (st st' : state Key) (impl : implementor) :
  List.NoDup (map fst (role2element env)) ->
  role_table_known env ->
  register_role_implementor Key cfg env st impl = (Ok tt, st') ->
  forall r,
    Dict.get r (roles Key st') =
    if bool_decide (r ∈ implemented_roles env impl)
    then Some (getPhysicalPath impl)
    else Dict.get r (roles Key st).
Proof.
  intros Hnodup Hknown Hreg r.
  destruct (register_success Key cfg env st st' impl Hnodup Hknown Hreg) as [Hconf ->].
  simpl. rewrite get_app, get_pairs.
  destruct (free_prefix_full _ _ Hconf) as [_ Hfree].
  case_bool_decide as Hin.
  - apply list_elem_of_In in Hin.
    rewrite (contains_false_get _ _ (Hfree r Hin)). reflexivity.
  - destruct (Dict.get r (roles Key st)); reflexivity.
Qed.

Lemma registered_roles_resolve_witness :
  Dict.get "idpsso"
    (roles string
       (snd (register_role_implementor string Examples.idp_config Examples.authority_env
               (Examples.registry [("spsso", Examples.sp_path)])
               Examples.idp_with_attributes)))
  = Some Examples.idp_path.
Proof.
  apply (registered_roles_resolve string Examples.idp_config Examples.authority_env
           (Examples.registry [("spsso", Examples.sp_path)]) _
           Examples.idp_with_attributes
           RegistryFacts.five_roles_NoDup RegistryFacts.five_roles_known eq_refl "idpsso").
Defined.

(** X12: unregistering an implementor leaves no role that maps to its
    path, keeps every mapping to another path, and invalidates the cached
    metadata; it does so also when the implementor had no role. *)
Theorem unregister_frees_path (Key : Type) (cfg : authority_config)
    (st : state Key) (impl : implementor) :
  List.NoDup (map fst (roles Key st)) ->
  forall r,
    Dict.get r (roles Key (unregister_role_implementor Key cfg st impl)) =
    match Dict.get r (roles Key st) with
    | Some p => if bool_decide (p = getPhysicalPath impl) then None else Some p
    | None => None
    end /\
    calls Key (unregister_role_implementor Key cfg st impl) =
      calls Key st ++ [EvClearMetadata (entity_id cfg)].
Proof.
  intros Hnodup r.
  rewrite (RegistryFacts.unregister_role_implementor_spec Key cfg st impl Hnodup). simpl.
  split; [|reflexivity].
  rewrite (get_filter _ _ r Hnodup).
  destruct (Dict.get r (roles Key st)) as [p|]; [|reflexivity]. simpl.
  destruct (bool_decide (p = getPhysicalPath impl)); reflexivity.
Qed.

Lemma unregister_frees_path_witness :
  Dict.get "idpsso"
    (roles string (unregister_role_implementor string Examples.idp_config
                     Examples.three_registered Examples.idp_with_attributes))
  = None.
Proof.
  assert (Hnodup : List.NoDup (map fst (roles string Examples.three_registered))).
  { simpl. repeat (constructor; [simpl; intuition discriminate|]). constructor. }
  exact (proj1 (unregister_frees_path string Examples.idp_config Examples.three_registered
                  Examples.idp_with_attributes Hnodup "idpsso")).
Defined.

(** X13: the registry never holds two mappings of one role: a
    registration, successful or not, and an unregistration keep the roles
    of the registry distinct. *)
Theorem registry_roles_stay_distinct (Key : Type) (cfg : authority_config)
    (env : collaborators) (st : state Key) (impl : implementor) :
  List.NoDup (map fst (role2element env)) ->
  role_table_known env ->
  List.NoDup (map fst (roles Key st)) ->
  List.NoDup (map fst (roles Key (snd (register_role_implementor Key cfg env st impl)))) /\
  List.NoDup (map fst (roles Key (unregister_role_implementor Key cfg st impl))).
Proof.
  intros Hnodup Hknown Hroles. split.
  - rewrite (register_roles Key cfg env st impl Hnodup Hknown).
    rewrite map_app, map_map, map_id. apply NoDup_ListNoDup, NoDup_app.
    split; [apply NoDup_ListNoDup; exact Hroles|]. split.
    + intros r Hr Hfree. apply list_elem_of_In in Hr, Hfree.
      apply free_prefix_incl in Hfree as [_ Hc].
      apply contains_In in Hr. congruence.
    + apply NoDup_ListNoDup, free_prefix_NoDup, implemented_roles_NoDup. exact Hnodup.
  - rewrite (RegistryFacts.unregister_role_implementor_spec Key cfg st impl Hroles). simpl.
    apply filter_keys_NoDup. exact Hroles.
Qed.

Lemma registry_roles_stay_distinct_witness :
  List.NoDup (map fst (roles string
    (snd (register_role_implementor string Examples.idp_config Examples.authority_env
            Examples.ap_registered Examples.idp_with_attributes)))) /\
  List.NoDup (map fst (roles string
    (unregister_role_implementor string Examples.idp_config Examples.ap_registered
       Examples.idp_with_attributes))).
Proof.
  apply (registry_roles_stay_distinct string Examples.idp_config Examples.authority_env
           Examples.ap_registered Examples.idp_with_attributes
           RegistryFacts.five_roles_NoDup RegistryFacts.five_roles_known).
  simpl. constructor; [simpl; tauto | constructor].
Defined.

(** X14: registering an implementor and unregistering it again gives the
    registry back as it was, provided no role mapped to the implementor's
    path before. *)
Theorem register_unregister_roundtrip (Key : Type) (cfg : authority_config)
    (env : collaborators) (st st' : state Key) (impl : implementor) :
  List.NoDup (map fst (role2element env)) ->
  role_table_known env ->
  List.NoDup (map fst (roles Key st)) ->
  Forall (fun item => snd item <> getPhysicalPath impl) (roles Key st) ->
  register_role_implementor Key cfg env st impl = (Ok tt, st') ->
  roles Key (unregister_role_implementor Key cfg st' impl) = roles Key st.
Proof.
  intros Hnodup Hknown Hroles Hfresh Hreg.
  pose proof (registry_roles_stay_distinct Key cfg env st impl Hnodup Hknown Hroles)
    as [Hdistinct _].
  rewrite Hreg in Hdistinct. simpl in Hdistinct.
  rewrite (RegistryFacts.unregister_role_implementor_spec Key cfg st' impl Hdistinct).
  destruct (register_success Key cfg env st st' impl Hnodup Hknown Hreg) as [_ ->].
  simpl. rewrite List.filter_app.
  assert (Hkeep : List.filter
                    (fun item => negb (bool_decide (snd item = getPhysicalPath impl)))
                    (roles Key st) = roles Key st).
  { clear -Hfresh. induction Hfresh as [|item l Hitem Hrest IH]; simpl; [reflexivity|].
    rewrite (bool_decide_eq_false_2 _ Hitem). simpl. rewrite IH. reflexivity. }
  assert (Hdrop : forall l : list string,
            List.filter (fun item => negb (bool_decide (snd item = getPhysicalPath impl)))
                        (map (fun r => (r, getPhysicalPath impl)) l) = []).
  { intros l. induction l as [|r l IH]; simpl; [reflexivity|].
    rewrite bool_decide_eq_true_2 by reflexivity. exact IH. }
  rewrite Hkeep, Hdrop, app_nil_r. reflexivity.
Qed.

Lemma register_unregister_roundtrip_witness :
  roles string
    (unregister_role_implementor string Examples.idp_config
       (snd (register_role_implementor string Examples.idp_config Examples.authority_env
               (Examples.registry [("spsso", Examples.sp_path)])
               Examples.idp_with_attributes))
       Examples.idp_with_attributes)
  = [("spsso", Examples.sp_path)].
Proof.
  apply (register_unregister_roundtrip string Examples.idp_config Examples.authority_env
           (Examples.registry [("spsso", Examples.sp_path)]) _
           Examples.idp_with_attributes
           RegistryFacts.five_roles_NoDup RegistryFacts.five_roles_known).
  - simpl. constructor; [simpl; tauto | constructor].
  - simpl. constructor; [simpl; discriminate | constructor].
  - reflexivity.
Defined.

End RegistryMore.

(** ** Invalidation of the cached keys *)

Module InvalidationMore.

Import Authority.

Section WithAuthority.

Variable Key : Type.
Variable cfg : authority_config.

Lemma delitem_drops (st st' : state Key) (eid : string) :
  eid2volatile_info Key st' = Keys.__delitem__ Key (eid2volatile_info Key st) eid ->
  Subscribers.keys_dropped Key eid st st'.
Proof.
  intros Hcache. unfold Subscribers.keys_dropped.
  rewrite Hcache, KeysFacts.delitem_delete. split.
  - apply lookup_delete_eq.
  - intros eid' Hne. apply lookup_delete_ne. congruence.
Qed.

Lemma dropped_is_miss (st st' : state Key) (eid : string) (now : Z) :
  Subscribers.keys_dropped Key eid st st' ->
  Keys.is_miss Key (eid2volatile_info Key st') now eid.
Proof.
  intros [Hnone _] info Hinfo. unfold Keys.cached_info in Hinfo.
  rewrite Hnone in Hinfo. discriminate.
Qed.

End WithAuthority.

(** X15: [_update], the unregistration of an implementor and the
    subscriber [own_metadata_changed] drop the cached keys of the
    authority's own entity id, and [signature_context_changed] drops those
    of the entity concerned; the keys of all other entities stay cached,
    and the next lookup of the entity id concerned determines its keys
    anew. *)
Theorem invalidation_forces_reload (Key : Type) (cfg : authority_config)
    (kenv : Keys.collaborators Key) (st : state Key) (impl : implementor)
    (o_id : string) (now : Z) :
  Subscribers.keys_dropped Key (entity_id cfg) st (_update Key cfg st) /\
  Subscribers.keys_dropped Key (entity_id cfg) st (unregister_role_implementor Key cfg st impl) /\
  Subscribers.keys_dropped Key (entity_id cfg) st (Subscribers.own_metadata_changed Key cfg st) /\
  Subscribers.keys_dropped Key o_id st (Subscribers.signature_context_changed Key st o_id) /\
  roles Key (Subscribers.signature_context_changed Key st o_id) = roles Key st /\
  Keys.__getitem__ Key cfg kenv (eid2volatile_info Key (_update Key cfg st)) now
    (entity_id cfg)
  = match Keys.own_keys Key cfg kenv with
    | (Ok info, tr) =>
        (Ok (snd info),
         <[entity_id cfg := Keys.slot Key info]> (eid2volatile_info Key (_update Key cfg st)),
         tr)
    | (Raise e, tr) => (Raise e, eid2volatile_info Key (_update Key cfg st), tr)
    end /\
  Keys.__getitem__ Key cfg kenv
    (eid2volatile_info Key (Subscribers.signature_context_changed Key st o_id)) now o_id
  = match Keys.determine_keys Key cfg kenv o_id with
    | (Ok info, tr) =>
        (Ok (snd info),
         <[o_id := Keys.slot Key info]>
           (eid2volatile_info Key (Subscribers.signature_context_changed Key st o_id)),
         tr)
    | (Raise e, tr) =>
        (Raise e, eid2volatile_info Key (Subscribers.signature_context_changed Key st o_id),
         tr)
    end.
Proof.
  assert (Hupdate : Subscribers.keys_dropped Key (entity_id cfg) st (_update Key cfg st)).
  { apply delitem_drops. reflexivity. }
  assert (Hchanged : Subscribers.keys_dropped Key o_id st
                       (Subscribers.signature_context_changed Key st o_id)).
  { apply delitem_drops. reflexivity. }
  split; [exact Hupdate|].
  split; [apply delitem_drops; reflexivity|].
  split; [exact Hupdate|].
  split; [exact Hchanged|].
  split; [reflexivity|].
  split.
  - rewrite <- KeysFacts.determine_own_keys.
    apply KeysFacts.getitem_absent. exact (proj1 Hupdate).
  - apply KeysFacts.getitem_absent. exact (proj1 Hchanged).
Qed.

(** X16: a successful registration invalidates: it records the clearing
    of the own metadata, drops the cached keys of the own entity id and
    keeps those of every other entity, so that the next lookup of the own
    id loads the private key again. *)
Theorem registration_invalidates (Key : Type) (cfg : authority_config)
    (env : collaborators) (kenv : Keys.collaborators Key) (st st' : state Key)
    (impl : implementor) (now : Z) :
  register_role_implementor Key cfg env st impl = (Ok tt, st') ->
  calls Key st' = calls Key st ++ [EvClearMetadata (entity_id cfg)] /\
  Subscribers.keys_dropped Key (entity_id cfg) st st' /\
  Keys.__getitem__ Key cfg kenv (eid2volatile_info Key st') now (entity_id cfg)
  = match Keys.own_keys Key cfg kenv with
    | (Ok info, tr) =>
        (Ok (snd info), <[entity_id cfg := Keys.slot Key info]> (eid2volatile_info Key st'), tr)
    | (Raise e, tr) => (Raise e, eid2volatile_info Key st', tr)
    end.
Proof.
  unfold register_role_implementor.
  destruct (register_loop impl (getPhysicalPath impl) (map fst (role2element env))
              (roles Key st)) as [[[]|e] roles']; [|discriminate].
  intros [= <-].
  assert (Hdropped : Subscribers.keys_dropped Key (entity_id cfg) st
                       (_update Key cfg (set_roles Key st roles'))).
  { apply delitem_drops. reflexivity. }
  split; [reflexivity|]. split; [exact Hdropped|].
  rewrite <- KeysFacts.determine_own_keys.
  apply KeysFacts.getitem_absent. exact (proj1 Hdropped).
Qed.

Lemma registration_invalidates_witness :
  calls string
    (snd (register_role_implementor string Examples.idp_config Examples.authority_env
            MoreExamples.cached_state Examples.service_provider))
  = [EvClearMetadata "https://idp.example.org"] /\
  eid2volatile_info string
    (snd (register_role_implementor string Examples.idp_config Examples.authority_env
            MoreExamples.cached_state Examples.service_provider))
  !! "https://idp.example.org" = None.
Proof.
  destruct (registration_invalidates string Examples.idp_config Examples.authority_env
              Examples.keys_env MoreExamples.cached_state _ Examples.service_provider 0
              eq_refl) as (Hcalls & [Hnone _] & _).
  split; [exact Hcalls | exact Hnone].
Defined.

End InvalidationMore.

(** ** The export of the own metadata, continued *)

Module ExportMore.

Import Authority.

Section WithAuthority.

Variable Key : Type.
Variable cfg : authority_config.
Variable env : collaborators.

Lemma same_but_keys_refl (rd : metadata.RoleDescriptor) : ExportSpec.same_but_keys rd rd.
Proof. unfold ExportSpec.same_but_keys. repeat split; reflexivity. Qed.

Lemma files_of_cons c certs :
  ExportSpec.files_of cfg (c :: certs) =
  if truthy_ostr c
  then Path._make_absolute (clienthome cfg) (ostr_or c "") :: ExportSpec.files_of cfg certs
  else ExportSpec.files_of cfg certs.
Proof.
  unfold ExportSpec.files_of. destruct c as [s|]; simpl; [|reflexivity].
  destruct (truthy_str s); reflexivity.
Qed.

(** the loop over the configured certificates appends one signing key
    descriptor per file read and changes nothing else *)
Lemma add_key_descriptors_spec certs : forall rd rd',
  add_key_descriptors cfg env certs rd = Ok rd' ->
  exists cs,
    ExportSpec.read_all env (ExportSpec.files_of cfg certs) = Ok cs /\
    metadata.KeyDescriptors rd' =
      metadata.KeyDescriptors rd ++ map ExportSpec.signing_descriptor cs /\
    ExportSpec.same_but_keys rd rd'.
Proof.
  induction certs as [|c certs IH]; intros rd rd'.
  - simpl. intros [= <-]. exists []. rewrite app_nil_r.
    split; [reflexivity|]. split; [reflexivity | apply same_but_keys_refl].
  - cbn [add_key_descriptors]. rewrite files_of_cons.
    destruct (truthy_ostr c); [|apply IH].
    cbn [ExportSpec.read_all].
    destruct (read_file env (Path._make_absolute (clienthome cfg) (ostr_or c "")))
      as [cert|e]; cbn [rbind]; [|discriminate].
    intros Hrest. apply IH in Hrest as (cs & Hread & Hkeys & Hsame).
    rewrite Hread. cbn [rbind].
    exists (cert :: cs). split; [reflexivity|]. split.
    + rewrite Hkeys. simpl. rewrite <- app_assoc. reflexivity.
    + exact Hsame.
Qed.


(** the generators leave the key descriptors, the name id formats and the
    element alone *)
Lemma gen_metadata_keeps r g i rd :
  gen_metadata cfg env r = Ok g ->
  metadata.KeyDescriptors (g i rd) = metadata.KeyDescriptors rd /\
  metadata.NameIDFormat (g i rd) = metadata.NameIDFormat rd /\
  metadata.element (g i rd) = metadata.element rd.
Proof.
  unfold gen_metadata.
  destruct (String.eqb r "sso"); [intros [= <-]; repeat split; reflexivity|].
  destruct (String.eqb r "idpsso").
  { intros [= <-]. unfold gen_metadata_idpsso.
    destruct (providedBy "IApRole" i); repeat split; reflexivity. }
  destruct (String.eqb r "spsso"); [|discriminate].
  intros [= <-]. unfold gen_metadata_spsso.
  destruct (wants_assertions_signed i); repeat split; reflexivity.
Qed.

(** what the steps of a role descriptor establish *)
Lemma role_descriptor_inv r p rd :
  role_descriptor cfg env r p = Ok rd ->
  exists i el cs g rd0,
    unrestrictedTraverse env p = Ok i /\
    Dict.get r (role2element env) = Some el /\
    ExportSpec.read_all env (ExportSpec.certificate_files cfg) = Ok cs /\
    gen_metadata cfg env r = Ok g /\
    rd = g i rd0 /\
    metadata.element rd0 = el /\
    metadata.KeyDescriptors rd0 = map ExportSpec.signing_descriptor cs /\
    metadata.NameIDFormat rd0 =
      (if has_NameIDFormat env el then nameid_supported i else None) /\
    metadata.SingleSignOnService rd0 = [] /\
    metadata.AssertionConsumerService rd0 = [] /\
    metadata.WantsAssertionsSigned rd0 = false /\
    metadata.attribute_metadata rd0 = [].
Proof.
  unfold role_descriptor. intros Hrd.
  destruct (unrestrictedTraverse env p) as [i|]; cbn [rbind] in Hrd; [|discriminate].
  destruct (Dict.get r (role2element env)) as [el|]; cbn [rbind] in Hrd; [|discriminate].
  destruct (add_key_descriptors cfg env [certificate cfg; future_certificate cfg]
              (metadata.new_descriptor el)) as [rd1|] eqn:Hkeys;
    cbn [rbind] in Hrd; [|discriminate].
  apply add_key_descriptors_spec in Hkeys as (cs & Hread & Hkds & Hsame).
  destruct Hsame as (Hel & Hnif & Hsso & Hacs & Hwant & Hattr). simpl in *.
  destruct (has_NameIDFormat env el) eqn:Hhas.
  - destruct (nameid_supported i) as [supported|] eqn:Hsup; cbn [rbind] in Hrd;
      [|discriminate].
    destruct (gen_metadata cfg env r) as [g|] eqn:Hg; cbn [rbind] in Hrd; [|discriminate].
    injection Hrd as <-.
    exists i, el, cs, g, (metadata.set_NameIDFormat rd1 supported). simpl.
    rewrite Hhas, Hsup.
    repeat split; try reflexivity; try assumption; exact Hread.
  - cbn [rbind] in Hrd.
    destruct (gen_metadata cfg env r) as [g|] eqn:Hg; cbn [rbind] in Hrd; [|discriminate].
    injection Hrd as <-.
    exists i, el, cs, g, rd1. rewrite Hhas.
    repeat split; try reflexivity; try assumption; exact Hread.
Qed.

Lemma export_run (st : state Key) (now : Z) :
  _export_own_metadata Key cfg env st now =
  match role_descriptors cfg env (exported_roles Key st) with
  | Ok [] => Raise (ValueError no_roles_message [])
  | Ok rds =>
      Ok {| metadata.entityID := entity_id cfg;
            metadata.ed_validUntil := (now + metadata_validity cfg)%Z;
            metadata.RoleDescriptors := rds |}
  | Raise e => Raise e
  end.
Proof.
  unfold _export_own_metadata. rewrite ExportFacts.export_loop_spec.
  fold (exported_roles Key st).
  destruct (role_descriptors cfg env (exported_roles Key st)) as [[|rd rds]|e]; reflexivity.
Qed.

End WithAuthority.

(** X17: an exported document carries the authority's entity id, is valid
    until the configured validity after the time of the export, and every
    role descriptor in it has the same key descriptors: one for signing per
    configured certificate file, current before future, holding the bytes
    read from it. *)
Theorem exported_key_descriptors (Key : Type) (cfg : authority_config)
    (env : collaborators) (st : state Key) (now : Z) (ed : metadata.EntityDescriptor) :
  _export_own_metadata Key cfg env st now = Ok ed ->
  metadata.entityID ed = entity_id cfg /\
  metadata.ed_validUntil ed = (now + metadata_validity cfg)%Z /\
  exists cs,
    ExportSpec.read_all env (ExportSpec.certificate_files cfg) = Ok cs /\
    Forall (fun rd => metadata.KeyDescriptors rd = map ExportSpec.signing_descriptor cs)
           (metadata.RoleDescriptors ed).
Proof.
  rewrite export_run.
  destruct (role_descriptors cfg env (exported_roles Key st)) as [[|rd rds]|e] eqn:Hrds;
    try discriminate.
  intros [= <-]. simpl. split; [reflexivity|]. split; [reflexivity|].
  apply ExportFacts.role_descriptors_Forall2 in Hrds.
  assert (Hall : Forall (fun rd' => exists r p, role_descriptor cfg env r p = Ok rd')
                        (rd :: rds)).
  { clear -Hrds. induction Hrds as [|[r p] rd' items rds' Hitem Hrest IH]; constructor.
    - exists r, p. exact Hitem.
    - exact IH. }
  inversion Hall as [|? ? [r [p Hfirst]] Hothers]; subst.
  destruct (role_descriptor_inv cfg env r p rd Hfirst)
    as (i & el & cs & g & rd0 & _ & _ & Hread & Hg & -> & _ & Hkds & _).
  exists cs. split; [exact Hread|].
  apply Forall_forall. intros rd' Hin.
  apply (proj1 (Forall_forall _ _) Hall) in Hin as [r' [p' Hrd']].
  destruct (role_descriptor_inv cfg env r' p' rd' Hrd')
    as (i' & el' & cs' & g' & rd0' & _ & _ & Hread' & Hg' & -> & _ & Hkds' & _).
  rewrite Hread in Hread'. injection Hread' as <-.
  rewrite (proj1 (gen_metadata_keeps cfg env r' g' i' rd0' Hg')). exact Hkds'.
Qed.

Lemma exported_key_descriptors_witness :
  exists cs,
    ExportSpec.read_all Examples.authority_env
      (ExportSpec.certificate_files Examples.idp_config) = Ok cs /\
    Forall (fun rd => metadata.KeyDescriptors rd = map ExportSpec.signing_descriptor cs)
           Examples.exported_descriptors.
Proof.
  destruct (exported_key_descriptors string Examples.idp_config Examples.authority_env
              Examples.three_registered 0
              {| metadata.entityID := "https://idp.example.org";
                 metadata.ed_validUntil := 86400;
                 metadata.RoleDescriptors := Examples.exported_descriptors |})
    as (_ & _ & Hkeys).
  - vm_compute. reflexivity.
  - exact Hkeys.
Defined.

(** X18: the role descriptor of an identity provider lists the redirect
    and the POST single-sign-on endpoints below the implementor's url, in
    this order, and announces the implementor's attributes only when the
    implementor is an attribute provider as well; that of a service
    provider lists one assertion consumer endpoint, POST bound, with index
    1 and default, announces its attributes, and wants assertions signed
    exactly when the implementor is configured so.  Either one carries the
    name id formats the implementor supports when its class has a
    [NameIDFormat]. *)
Theorem sso_descriptor_endpoints (cfg : authority_config) (env : collaborators)
    (r : string) (p : list string) (rd : metadata.RoleDescriptor) (i : implementor) :
  role_descriptor cfg env r p = Ok rd ->
  unrestrictedTraverse env p = Ok i ->
  (r = "idpsso" ->
     metadata.SingleSignOnService rd = ExportSpec.idp_endpoints (_get_url cfg env i) /\
     metadata.AssertionConsumerService rd = [] /\
     metadata.WantsAssertionsSigned rd = false /\
     metadata.attribute_metadata rd =
       if providedBy "IApRole" i then own_attribute_metadata i else []) /\
  (r = "spsso" ->
     metadata.SingleSignOnService rd = [] /\
     metadata.AssertionConsumerService rd = ExportSpec.sp_endpoints (_get_url cfg env i) /\
     metadata.WantsAssertionsSigned rd = wants_assertions_signed i /\
     metadata.attribute_metadata rd = own_attribute_metadata i) /\
  metadata.NameIDFormat rd =
    (if has_NameIDFormat env (metadata.element rd) then nameid_supported i else None).
Proof.
  intros Hrd Hi.
  destruct (role_descriptor_inv cfg env r p rd Hrd)
    as (i' & el & cs & g & rd0 & Hi' & _ & _ & Hg & -> & Hel & _ & Hnif & Hsso & Hacs
        & Hwant & Hattr).
  rewrite Hi in Hi'. injection Hi' as <-.
  destruct (gen_metadata_keeps cfg env r g i rd0 Hg) as (_ & Hnif' & Hel').
  split; [|split].
  - intros ->. unfold gen_metadata in Hg. simpl in Hg. injection Hg as <-.
    unfold gen_metadata_idpsso, gen_metadata_sso.
    destruct (providedBy "IApRole" i); simpl; rewrite Hsso, Hacs, Hwant, ?Hattr;
      repeat split; reflexivity.
  - intros ->. unfold gen_metadata in Hg. simpl in Hg. injection Hg as <-.
    unfold gen_metadata_spsso, gen_metadata_sso.
    destruct (wants_assertions_signed i); simpl; rewrite Hsso, Hacs, Hattr, ?Hwant;
      repeat split; reflexivity.
  - rewrite Hnif', Hel', Hel. exact Hnif.
Qed.

Lemma sso_descriptor_endpoints_witness :
  metadata.SingleSignOnService MoreExamples.idp_descriptor =
    ExportSpec.idp_endpoints "https://idp.example.org/site/idp" /\
  metadata.attribute_metadata MoreExamples.idp_descriptor
    = [(Examples.uri_format, "mail", "mail")].
Proof.
  assert (Hrd : role_descriptor Examples.idp_config Examples.authority_env "idpsso"
                  Examples.idp_path = Ok MoreExamples.idp_descriptor).
  { vm_compute. reflexivity. }
  destruct (sso_descriptor_endpoints Examples.idp_config Examples.authority_env "idpsso"
              Examples.idp_path MoreExamples.idp_descriptor Examples.idp_with_attributes
              Hrd eq_refl) as [Hidp _].
  destruct (Hidp eq_refl) as (Hsso & _ & _ & Hattr).
  split; [exact Hsso | exact Hattr].
Defined.

Lemma filter_idempotent {A : Type} (f : A -> bool) (l : list A) :
  List.filter f (List.filter f l) = List.filter f l.
Proof.
  induction l as [|x l IH]; simpl; [reflexivity|].
  destruct (f x) eqn:Hx; simpl; rewrite ?Hx, IH; reflexivity.
Qed.

(** X19: the mappings of the role "ap" take no part in the export: they
    are skipped before their path is resolved, so the export of a registry
    is that of the registry without them. *)
Theorem export_ignores_ap (Key : Type) (cfg : authority_config) (env : collaborators)
    (st : state Key) (now : Z) :
  _export_own_metadata Key cfg env st now =
  _export_own_metadata Key cfg env (set_roles Key st (exported_roles Key st)) now.
Proof.
  rewrite !export_run. unfold exported_roles. simpl.
  rewrite filter_idempotent. reflexivity.
Qed.

(** X20: the export fails with the exception of the first registered role,
    other than "ap", whose role descriptor cannot be built. *)
Theorem export_first_failure (Key : Type) (cfg : authority_config) (env : collaborators)
    (st : state Key) (now : Z) (items1 items2 : list (string * list string))
    (r : string) (p : list string) (e : exn) :
  exported_roles Key st = items1 ++ (r, p) :: items2 ->
  is_ok (role_descriptors cfg env items1) = true ->
  role_descriptor cfg env r p = Raise e ->
  _export_own_metadata Key cfg env st now = Raise e.
Proof.
  intros Hroles Hgood Hfail. rewrite export_run, Hroles, ExportFacts.role_descriptors_app.
  destruct (role_descriptors cfg env items1); [|discriminate].
  simpl. rewrite Hfail. reflexivity.
Qed.

Lemma export_first_failure_witness :
  _export_own_metadata string Examples.idp_config Examples.authority_env
    MoreExamples.dangling_sp_registered 0
  = Raise (KeyError "/site/gone").
Proof.
  apply (export_first_failure string Examples.idp_config Examples.authority_env
           MoreExamples.dangling_sp_registered 0
           [("idpsso", Examples.idp_path)] [] "spsso" MoreExamples.dangling_path).
  - reflexivity.
  - vm_compute. reflexivity.
  - vm_compute. reflexivity.
Defined.

(** an attribute provider whose path no longer resolves does not disturb
    the export *)
Example export_with_dangling_ap :
  is_ok (_export_own_metadata string Examples.idp_config Examples.authority_env
           MoreExamples.dangling_ap_registered 0) = true.
Proof. vm_compute. reflexivity. Qed.

End ExportMore.

(** ** Adding, moving and deleting the authority *)

Module MoveMore.

Import Authority.

(** a membership in a concrete list of actions, or an equation between
    concrete values, that cannot hold *)
Ltac refute_concrete H :=
  simpl in H;
  repeat match type of H with
         | _ \/ _ => destruct H as [H|H]
         end;
  first [ discriminate H | contradiction | congruence ].

(** a goal of the handler's characterization in one of its concrete cases *)
Ltac settle_case :=
  simpl;
  first
    [ reflexivity
    | discriminate
    | tauto
    | congruence
    | (repeat split; first [ discriminate | reflexivity | congruence ])
    | (split; [discriminate|]; eexists; split; reflexivity)
    | (repeat split; try discriminate; eexists; split; reflexivity) ].

(** X21: [move_handler] adds the authority's own entity exactly when the
    authority is new (it had no parent) and is put below a site with a
    persistent site manager; it registers the utility exactly when the
    authority gets a parent below such a site, and then it succeeds; the
    registered roles play a part only in a deletion; and a move below a
    site whose manager is not persistent fails after the utility has been
    unregistered. *)
Theorem move_handler_effects (set_order : list (list string) -> list (list string))
    (active : option site) (o_roles : list (string * list string)) (e : moved_event) :
  (In AddOwnEntity (snd (move_handler set_order active o_roles e)) <->
     oldParent e = None /\ newParent e <> None /\
     exists sm, active = Some sm /\ sm_has_p_jar sm = true) /\
  (In RegisterUtility (snd (move_handler set_order active o_roles e)) <->
     newParent e <> None /\ exists sm, active = Some sm /\ sm_has_p_jar sm = true) /\
  (In RegisterUtility (snd (move_handler set_order active o_roles e)) ->
     fst (move_handler set_order active o_roles e) = Ok tt) /\
  (is_deletion e = false ->
     move_handler set_order active o_roles e = move_handler set_order active [] e) /\
  (forall sm, active = Some sm -> sm_has_p_jar sm = false ->
     oldParent e <> None -> newParent e <> None ->
     move_handler set_order active o_roles e =
       (Raise (ValueError "need a persistent active site" []), [UnregisterUtility])).
Proof.
  destruct e as [old new].
  destruct active as [[persistent]|]; [destruct persistent|];
    destruct old as [p|]; destruct new as [q|]; destruct o_roles as [|item rest];
    unfold move_handler, is_deletion; cbn;
    (split; [|split; [|split; [|split]]]).
  all: try (split;
            [ intros H; first [ refute_concrete H | settle_case ]
            | first
                [ intros (H1 & H2 & sm & H3 & H4);
                  first [ discriminate H1 | discriminate H3 | (exfalso; apply H2; reflexivity)
                        | (injection H3 as <-; discriminate H4) | settle_case ]
                | intros (H2 & sm & H3 & H4);
                  first [ discriminate H3 | (exfalso; apply H2; reflexivity)
                        | (injection H3 as <-; discriminate H4) | settle_case ] ] ]).
  all: try (intros H; first [ refute_concrete H | settle_case ]).
  all: try (intros sm H3 H4 H5 H6;
            first [ discriminate H3 | (exfalso; apply H5; reflexivity)
                  | (exfalso; apply H6; reflexivity)
                  | (injection H3 as <-; discriminate H4) | settle_case ]).
Qed.

(** the authority is added below a persistent site, and moved within it
    while roles are registered *)
Example move_handler_add :
  move_handler MoreExamples.insertion_order (Some {| sm_has_p_jar := true |}) []
    {| oldParent := None; newParent := Some [""; "site"] |}
  = (Ok tt, [RegisterUtility; AddOwnEntity]).
Proof. reflexivity. Qed.

Example move_handler_move :
  move_handler MoreExamples.insertion_order (Some {| sm_has_p_jar := true |})
    [("idpsso", Examples.idp_path)]
    {| oldParent := Some [""; "site"]; newParent := Some [""; "site"; "saml"] |}
  = (Ok tt, [UnregisterUtility; RegisterUtility]).
Proof. reflexivity. Qed.

(** the order of first occurrences is one a set may have *)
Lemma insertion_order_lists_the_set : lists_the_set MoreExamples.insertion_order.
Proof.
  intros l. unfold MoreExamples.insertion_order.
  assert (Hin : forall p, In p (first_occurrences l) <-> In p l).
  { induction l as [|y l IH]; intros p; simpl; [reflexivity|].
    rewrite <- !list_elem_of_In, list_elem_of_filter, !list_elem_of_In, IH.
    destruct (decide (p = y)) as [->|Hne]; [tauto|].
    split; [tauto|]. intros [Heq|Hp]; [congruence | tauto]. }
  split; [|exact Hin]. clear Hin.
  induction l as [|y l IH]; simpl; [constructor|]. constructor.
  - rewrite <- list_elem_of_In, list_elem_of_filter. intros [Hne _]. apply Hne. reflexivity.
  - apply NoDup_ListNoDup, NoDup_filter, NoDup_ListNoDup. exact IH.
Qed.

(** X27: the object whose deletion [move_handler] guards is the authority,
    the owner of the role registry: with an active site its deletion is
    refused with a [ValueError] for as long as the registry holds any role
    mapping, whatever path it points at, and succeeds (unregistering the
    utility) only when every role mapping has been removed; without an
    active site the deletion is let through.  The error lists the paths
    the roles map to, each once, in an order that is not determined. *)
Theorem authority_deletion_guard (set_order : list (list string) -> list (list string))
    (sm : site) (o_roles : list (string * list string)) (e : moved_event) :
  is_deletion e = true ->
  (o_roles <> [] ->
     move_handler set_order (Some sm) o_roles e = (Raise (refusal set_order o_roles), [])) /\
  (o_roles = [] ->
     move_handler set_order (Some sm) o_roles e = (Ok tt, [UnregisterUtility])) /\
  (is_ok (fst (move_handler set_order (Some sm) o_roles e)) = true <-> o_roles = []) /\
  move_handler set_order None o_roles e = (Ok tt, []) /\
  (lists_the_set set_order ->
     List.NoDup (listed_paths set_order o_roles) /\
     forall p, In p (listed_paths set_order o_roles) <-> exists r, In (r, p) o_roles).
Proof.
  unfold is_deletion. intros Hdel. apply andb_true_iff in Hdel as [Hold Hnew].
  assert (Hsome : o_roles <> [] ->
                  move_handler set_order (Some sm) o_roles e
                  = (Raise (refusal set_order o_roles), [])).
  { intros Hroles. unfold move_handler. rewrite Hold, Hnew.
    destruct o_roles; [contradiction | reflexivity]. }
  assert (Hnone : o_roles = [] ->
                  move_handler set_order (Some sm) o_roles e = (Ok tt, [UnregisterUtility])).
  { intros ->. unfold move_handler. rewrite Hold, Hnew. reflexivity. }
  split; [exact Hsome|]. split; [exact Hnone|]. split; [|split].
  - destruct o_roles as [|item rest].
    + rewrite Hnone by reflexivity. split; reflexivity.
    + rewrite Hsome by discriminate. split; discriminate.
  - unfold move_handler. rewrite Hnew. reflexivity.
  - intros Hset. unfold listed_paths.
    destruct (Hset (map snd o_roles)) as [Hnodup Hsame].
    split; [exact Hnodup|]. intros p. rewrite Hsame, in_map_iff. split.
    + intros [[r p'] [Hp Hin]]. simpl in Hp. subst p'. exists r. exact Hin.
    + intros [r Hin]. exists (r, p). split; [reflexivity | exact Hin].
Qed.

Lemma authority_deletion_guard_witness :
  move_handler MoreExamples.insertion_order (Some {| sm_has_p_jar := true |})
    [("idpsso", Examples.idp_path); ("ap", Examples.idp_path)] Examples.deletion
  = (Raise (ValueError "must first delete role implementers" ["/site/idp"]), []).
Proof.
  destruct (authority_deletion_guard MoreExamples.insertion_order
              {| sm_has_p_jar := true |}
              [("idpsso", Examples.idp_path); ("ap", Examples.idp_path)]
              Examples.deletion eq_refl)
    as [Hrefused _].
  apply Hrefused. discriminate.
Defined.

(** the guard does not look at the object a role maps to, and without an
    active site it lets the deletion through *)
Example deletion_guard_ignores_path :
  fst (move_handler MoreExamples.insertion_order (Some {| sm_has_p_jar := true |})
         [("spsso", Examples.sp_path)] Examples.deletion)
  = Raise (ValueError "must first delete role implementers" ["/site/sp"]).
Proof. reflexivity. Qed.

Example deletion_without_site :
  move_handler MoreExamples.insertion_order None [("idpsso", Examples.idp_path)]
    Examples.deletion
  = (Ok tt, []).
Proof. reflexivity. Qed.

End MoveMore.

(** ** Entity ids as object ids, continued *)

Module EntityMore.

Import Entity.

Lemma hexdigit_safe (c : ascii) :
  always_safe (hexdigit (nat_of_ascii c / 16)) = true /\
  always_safe (hexdigit (nat_of_ascii c mod 16)) = true.
Proof.
  destruct c as [[] [] [] [] [] [] [] []]; vm_compute; split; reflexivity.
Qed.

Lemma unquote_of_quote (s : string) : _unquote (_quote s) = s.
Proof.
  unfold _unquote, _quote. rewrite EntityFacts.replace_quote.
  apply EntityFacts.unquote_quote.
Qed.

(** X22: a quoted id consists of letters, digits, the characters [_.-~]
    and the dollar sign only: whatever the entity id contains, the object
    id has no percent sign, no slash, no colon and no blank. *)
Theorem quoted_id_characters (s : string) :
  Forall (fun c => always_safe c = true \/ c = "$"%char) (list_ascii_of_string (_quote s)).
Proof.
  unfold _quote. induction s as [|c s IH]; [constructor|].
  cbn [quote]. destruct (always_safe c) eqn:Hsafe.
  - destruct (EntityFacts.always_safe_plain c Hsafe) as [Hpc _].
    cbn [replace list_ascii_of_string]. rewrite Hpc.
    constructor; [left; exact Hsafe | exact IH].
  - destruct (EntityFacts.hexdigit_plain c) as (H1 & _ & H3 & _).
    destruct (hexdigit_safe c) as [Hhi Hlo].
    cbn [replace list_ascii_of_string]. rewrite H1, H3. simpl.
    constructor; [right; reflexivity|].
    constructor; [left; exact Hhi|].
    constructor; [left; exact Hlo | exact IH].
Qed.

(** X23: distinct entity ids have distinct object ids: [_quote] is
    injective. *)
Theorem quote_injective (s s' : string) : _quote s = _quote s' <-> s = s'.
Proof.
  split; [|intros ->; reflexivity].
  intros Heq. rewrite <- (unquote_of_quote s), <- (unquote_of_quote s'), Heq.
  reflexivity.
Qed.

(** X24: deleting by its quoted id an entity that is stored under its own
    entity id: a protected one is refused with a [TypeError]; an
    unprotected one is removed, so that it is no longer found, while every
    other entity is found as before; and the quoted id of no entity is
    ignored. *)
Theorem delete_by_quoted_id (entities : gmap string entity) (s : string) (e : entity) :
  entities !! s = Some e ->
  id e = s ->
  (protected e = true ->
     _delOb entities (_quote s) = Raise (TypeError "Cannot delete a protected entity")) /\
  (protected e = false ->
     _delOb entities (_quote s) = Ok (delete s entities) /\
     _getOb (delete s entities) (_quote s) = None /\
     forall s', s' <> s ->
       _getOb (delete s entities) (_quote s') = _getOb entities (_quote s')) /\
  (forall s0, entities !! s0 = None -> _delOb entities (_quote s0) = Ok entities).
Proof.
  intros He Hid.
  assert (Hfind : forall t, _unquote (_quote t) = t) by exact unquote_of_quote.
  split; [|split].
  - intros Hprot. unfold _delOb, get_entity. rewrite Hfind, He, Hprot. reflexivity.
  - intros Hprot. split; [|split].
    + unfold _delOb, get_entity, del_entity. rewrite Hfind, He, Hprot, Hid. reflexivity.
    + unfold _getOb, get_entity. rewrite Hfind. apply lookup_delete_eq.
    + intros s' Hne. unfold _getOb, get_entity. rewrite Hfind.
      apply lookup_delete_ne. congruence.
  - intros s0 Hnone. unfold _delOb, get_entity. rewrite Hfind, Hnone. reflexivity.
Qed.

Lemma delete_by_quoted_id_witness :
  _delOb MoreExamples.two_entities "https$3A$2F$2Fidp.example.org"
  = Raise (TypeError "Cannot delete a protected entity").
Proof.
  destruct (delete_by_quoted_id MoreExamples.two_entities "https://idp.example.org"
              MoreExamples.own_entity) as [Hprotected _].
  - vm_compute. reflexivity.
  - reflexivity.
  - apply Hprotected. reflexivity.
Defined.

(** the unprotected entity of the example is deleted *)
Example delete_unprotected :
  _delOb MoreExamples.two_entities "https$3A$2F$2Fsp.example.org$2Fa$25b"
  = Ok (delete "https://sp.example.org/a%b" MoreExamples.two_entities).
Proof. reflexivity. Qed.

(** X25: when every entity is stored under its own entity id, each object
    id the manager lists resolves, by [__getitem__], to an entity whose
    [getId()] is this object id, and no object id is listed twice; the
    quoted id of an entity id that is not stored raises [KeyError]. *)
Theorem object_ids_resolve (entities : gmap string entity) :
  EntityManager.well_keyed entities ->
  Forall (fun oid => exists e, EntityManager.__getitem__ entities oid = Ok e /\
                               EntityManager.getId e = oid)
         (objectIds (EntityManager.list_entities entities)) /\
  NoDup (objectIds (EntityManager.list_entities entities)) /\
  (forall s, entities !! s = None ->
     EntityManager.__getitem__ entities (_quote s) = Raise (KeyError (_quote s))).
Proof.
  intros Hkeyed.
  assert (Hids : objectIds (EntityManager.list_entities entities)
                 = map _quote (map fst (map_to_list entities))).
  { unfold objectIds, EntityManager.list_entities. rewrite !map_map.
    apply map_ext_in. intros [k e] Hin. simpl.
    apply list_elem_of_In, elem_of_map_to_list in Hin.
    rewrite (Hkeyed k e Hin). reflexivity. }
  split; [|split].
  - rewrite Hids, map_map. apply Forall_forall. intros oid Hin.
    apply list_elem_of_In, in_map_iff in Hin as [[k e] [<- Hin]]. simpl.
    apply list_elem_of_In, elem_of_map_to_list in Hin.
    exists e. unfold EntityManager.__getitem__, _getOb, get_entity.
    rewrite unquote_of_quote, Hin. split; [reflexivity|].
    unfold EntityManager.getId. rewrite (Hkeyed k e Hin). reflexivity.
  - rewrite Hids. apply NoDup_fmap_2.
    + intros x y Hxy. apply quote_injective. exact Hxy.
    + apply NoDup_fst_map_to_list.
  - intros s Hnone. unfold EntityManager.__getitem__, _getOb, get_entity.
    rewrite unquote_of_quote, Hnone. reflexivity.
Qed.

Lemma object_ids_resolve_witness :
  NoDup (objectIds (EntityManager.list_entities MoreExamples.two_entities)).
Proof.
  assert (Hkeyed : EntityManager.well_keyed MoreExamples.two_entities).
  { intros k e Hk. unfold MoreExamples.two_entities in Hk.
    apply lookup_insert_Some in Hk as [[<- <-]|[_ Hk]]; [reflexivity|].
    apply lookup_singleton_Some in Hk as [<- <-]. reflexivity. }
  exact (proj1 (proj2 (object_ids_resolve MoreExamples.two_entities Hkeyed))).
Defined.

End EntityMore.

(** ** File names *)

Module PathMore.

Import Path.

Lemma isabs_append (a b : string) : isabs a = true -> isabs (a +:+ b) = true.
Proof.
  destruct a as [|c a]; simpl; [discriminate|].
  destruct c as [[] [] [] [] [] [] [] []]; simpl; try discriminate; reflexivity.
Qed.

(** X26: an absolute file name is left as it is, and when the client home
    is absolute every file name is made absolute, so that making it
    absolute once more changes nothing. *)
Theorem make_absolute_is_absolute (clienthome fn : string) :
  isabs clienthome = true ->
  isabs (_make_absolute clienthome fn) = true /\
  _make_absolute clienthome (_make_absolute clienthome fn) = _make_absolute clienthome fn /\
  (isabs fn = true -> _make_absolute clienthome fn = fn).
Proof.
  intros Hhome.
  assert (Habs : isabs (_make_absolute clienthome fn) = true).
  { unfold _make_absolute. destruct (isabs fn) eqn:Hfn; [exact Hfn|].
    unfold join. rewrite Hfn.
    destruct (negb (truthy_str clienthome) || endswith_slash clienthome);
      apply isabs_append; exact Hhome. }
  split; [exact Habs|]. split.
  - unfold _make_absolute at 1. rewrite Habs. reflexivity.
  - intros Hfn. unfold _make_absolute. rewrite Hfn. reflexivity.
Qed.

Lemma make_absolute_is_absolute_witness :
  isabs (_make_absolute "/var/zope" "etc/key.pem") = true /\
  _make_absolute "/var/zope" (_make_absolute "/var/zope" "etc/key.pem")
    = _make_absolute "/var/zope" "etc/key.pem" /\
  (isabs "etc/key.pem" = true -> _make_absolute "/var/zope" "etc/key.pem" = "etc/key.pem").
Proof.
  apply (make_absolute_is_absolute "/var/zope" "etc/key.pem"). reflexivity.
Defined.

(** a relative client home does not make file names absolute, and then
    the operation is not idempotent *)
Example make_absolute_relative_home :
  _make_absolute "var" "key.pem" = "var/key.pem" /\
  _make_absolute "var" (_make_absolute "var" "key.pem") = "var/var/key.pem".
Proof. split; reflexivity. Qed.

End PathMore.
